(** * scribble.rs: the lobby turn-state machine of [game/lobby.go]

    A shallow embedding of the round engine (drawer rotation, word choice,
    hint reveal, guess scoring, vote kicks, renaming) together with the
    properties of it that the specification states.

    Conventions of the embedding.
    - Go's [int] and [int64] are [Z]; every addition and subtraction the
      source performs on them is wrapped to 64 bits by [int64].
    - A Go [string] is a Rocq [string] (a sequence of bytes); ranging over a
      string decodes UTF-8 the way the Go runtime does ([runes]).
    - A [*Player] is an address [ptr]; the records live in the memory [mem]
      carried by the lobby, so that the player list, [Drawer] and [Owner]
      alias the same records, also after a player left the list.
    - The injected hooks ([WriteAsJSON], [WritePublicSystemMessage], ...)
      append to the log [sent].
    - A run-time panic is the result [Panic]; the hint loop that has used up
      the random numbers it was given without leaving is [Spin].
    - [float64] arithmetic is replaced by exact arithmetic on the same
      expression (see [guessPoints] and [drawerBonus]). The two agree only
      on a bounded range: a statement that names the value of such an
      expression carries the bound as a hypothesis. *)

From Stdlib Require Import ZArith Lia String Ascii List Bool QArith Qround Reals Lra.
From Stdlib Require Lqa.
From stdpp Require Import base option list strings gmap.

Local Open Scope string_scope.
Local Open Scope Z_scope.

(** ** Machine integers *)

Definition int64 (z : Z) : Z := (z + 2 ^ 63) mod 2 ^ 64 - 2 ^ 63.

Definition inInt64 (z : Z) : Prop := - 2 ^ 63 <= z < 2 ^ 63.

(** ** Results of code that may panic or fail to leave a loop *)

Inductive result (A : Type) : Type :=
| Done (a : A)
| Panic
| Spin.

Arguments Done {A} a.
Arguments Panic {A}.
Arguments Spin {A}.

Definition bind {A B : Type} (r : result A) (k : A -> result B) : result B :=
  match r with
  | Done a => k a
  | Panic => Panic
  | Spin => Spin
  end.

(** [obtains r P]: the code returned, with a result that satisfies [P]. *)
Definition obtains {A : Type} (r : result A) (P : A -> Prop) : Prop :=
  match r with
  | Done a => P a
  | Panic => False
  | Spin => False
  end.

Notation "'let*' x ':=' r 'in' k" := (bind r (fun x => k))
  (at level 10, x name, r at level 100, k at level 200, only parsing).

(** ** Strings: bytes, UTF-8 decoding, the library functions used *)

Definition byteOf (c : ascii) : Z := Z.of_N (N_of_ascii c).

Definition bytes (s : string) : list Z := map byteOf (list_ascii_of_string s).

Definition RuneError : Z := 65533.

Definition between (lo hi b : Z) : bool := (lo <=? b) && (b <=? hi).

(** [utf8.first] and [utf8.acceptRanges]: for a leading byte, the length of
    the sequence and the range the second byte must lie in; [None] for a byte
    that cannot start a multi-byte sequence. *)
Definition first (b0 : Z) : option (nat * Z * Z) :=
  if between 194 223 b0 then Some (2%nat, 128, 191)
  else if b0 =? 224 then Some (3%nat, 160, 191)
  else if between 225 236 b0 then Some (3%nat, 128, 191)
  else if b0 =? 237 then Some (3%nat, 128, 159)
  else if between 238 239 b0 then Some (3%nat, 128, 191)
  else if b0 =? 240 then Some (4%nat, 144, 191)
  else if between 241 243 b0 then Some (4%nat, 128, 191)
  else if b0 =? 244 then Some (4%nat, 128, 143)
  else None.

Definition cont (b : Z) : Z := Z.land b 63.

(** [utf8.DecodeRuneInString]: the rune at the head of [s] and its width. *)
Definition decodeRune (s : list Z) : Z * nat :=
  match s with
  | [] => (RuneError, 0%nat)
  | b0 :: s1 =>
    if b0 <? 128 then (b0, 1%nat)
    else
      match first b0 with
      | None => (RuneError, 1%nat)
      | Some (sz, lo, hi) =>
        match s1 with
        | [] => (RuneError, 1%nat)
        | b1 :: s2 =>
          if negb (between lo hi b1) then (RuneError, 1%nat)
          else if (sz =? 2)%nat
          then (Z.lor (Z.shiftl (Z.land b0 31) 6) (cont b1), 2%nat)
          else
            match s2 with
            | [] => (RuneError, 1%nat)
            | b2 :: s3 =>
              if negb (between 128 191 b2) then (RuneError, 1%nat)
              else if (sz =? 3)%nat
              then (Z.lor (Z.lor (Z.shiftl (Z.land b0 15) 12) (Z.shiftl (cont b1) 6))
                          (cont b2), 3%nat)
              else
                match s3 with
                | [] => (RuneError, 1%nat)
                | b3 :: _ =>
                  if negb (between 128 191 b3) then (RuneError, 1%nat)
                  else (Z.lor (Z.lor (Z.lor (Z.shiftl (Z.land b0 7) 18)
                                            (Z.shiftl (cont b1) 12))
                                     (Z.shiftl (cont b2) 6))
                              (cont b3), 4%nat)
                end
            end
        end
      end
  end.

(** [for _, char := range word] and [[]rune(word)]: the runes of a string,
    an invalid byte giving [RuneError] and advancing one byte. *)
Fixpoint decodeAll (fuel : nat) (s : list Z) : list Z :=
  match fuel with
  | O => []
  | S fuel' =>
    match s with
    | [] => []
    | _ :: _ => let '(r, w) := decodeRune s in r :: decodeAll fuel' (drop w s)
    end
  end.

Definition runes (s : string) : list Z := decodeAll (String.length s) (bytes s).

(** [len(s)] of a Go string: its number of bytes. *)
Definition len (s : string) : Z := Z.of_nat (String.length s).

(** [s[:n]]: the first [n] bytes; Go panics when [n] exceeds the length. *)
Definition slicePrefix (n : nat) (s : string) : result string :=
  if (n <=? String.length s)%nat then Done (substring 0 n s) else Panic.

(** [html.EscapeString]: the five characters [<], [>], [&], ['] and the
    double quote are replaced by their entities. *)
Definition escapeChar (c : ascii) : string :=
  match nat_of_ascii c with
  | 38%nat => "&amp;"
  | 39%nat => "&#39;"
  | 60%nat => "&lt;"
  | 62%nat => "&gt;"
  | 34%nat => "&#34;"
  | _ => String c EmptyString
  end.

Fixpoint EscapeString (s : string) : string :=
  match s with
  | EmptyString => EmptyString
  | String c s' => escapeChar c +:+ EscapeString s'
  end.

(** [strings.Join]. *)
Definition Join (elems : list string) (sep : string) : string := String.concat sep elems.

(** The Levenshtein distance of two rune sequences. *)
Fixpoint lev (s : list Z) : list Z -> nat :=
  fix lev_s (t : list Z) : nat :=
    match s, t with
    | [], _ => length t
    | _ :: _, [] => length s
    | a :: s', b :: t' =>
      if a =? b then lev s' t'
      else S (Nat.min (Nat.min (lev s' t) (lev_s t')) (lev s' t'))
    end.

(** [levenshtein.ComputeDistance] of github.com/agnivade/levenshtein: the
    edit distance counted in runes. *)
Definition ComputeDistance (a b : string) : Z := Z.of_nat (lev (runes a) (runes b)).

(** ** Scores *)

(** Binary search: with [ok lo = false] and [ok hi = true], a point [r] in
    [(lo, hi]] where [ok] turns true ([ok (r - 1) = false], [ok r = true]);
    [fuel] halvings are enough for an interval of width [2 ^ fuel]. *)
Fixpoint bisect (fuel : nat) (lo hi : Z) (ok : Z -> bool) : Z :=
  match fuel with
  | O => hi
  | S fuel' =>
    if hi - lo <=? 1 then hi
    else
      let mid := lo + (hi - lo) / 2 in
      if ok mid then bisect fuel' lo mid ok else bisect fuel' mid hi ok
  end.

(** [math.Ceil(math.Pow(m, 1.3) * 2)] for [m >= 1], in exact arithmetic: the
    integer [n] with [n - 1 < 2 * m^(13/10) <= n], that is
    [(n - 1)^10 < 2^10 * m^13 <= n^10], looked for between 0 and [2 * m^2]
    (see [ceilTwicePow_real] for the statement over the reals). *)
Definition ceilTwicePow (m : Z) : Z :=
  let v := 1024 * m ^ 13 in
  bisect (S (Z.to_nat (Z.log2_up (2 * m * m)))) 0 (2 * m * m) (fun n => v <=? n ^ 10).

(** Line 171: [int(math.Ceil(math.Pow(math.Max(float64(secondsLeft), 1), 1.3) * 2))],
    in exact arithmetic. This is the value of the code while at most 300
    seconds are left, the longest drawing time of [LobbySettingBounds]
    (see [guessPoints_margin]); beyond that the rounding of [math.Pow] can
    move the ceiling (at 1024 seconds the code gives one point more), and
    where the product leaves the range of [int] the conversion gives the
    least [int]. *)
Definition guessPoints (secondsLeft : Z) : Z := ceilTwicePow (Z.max secondsLeft 1).

(** Whether [2 * m^1.3] lies more than a thousandth away from every
    integer, stated on integers. *)
Definition farFromInteger (m : Z) : bool :=
  let n := ceilTwicePow m in
  let v := 1024 * m ^ 13 * 1000 ^ 10 in
  ((1000 * (n - 1) + 1) ^ 10 <? v) && (v <? (1000 * n - 1) ^ 10).

(** ** Data model

    The structs [Lobby], [Player] and [WordHint] are declared outside
    [lobby.go]; the records below have the fields that [lobby.go] reads and
    writes. *)

Definition ptr := nat.

Inductive PlayerState : Type := Guessing | Drawing | Standby.

Global Instance PlayerState_eq_dec : EqDecision PlayerState.
Proof. solve_decision. Defined.

Record Player : Type := {
  ID : string;
  Name : string;
  Connected : bool;
  ws : bool;                       (* whether the connection handle is non-nil *)
  Score : Z;
  LastScore : Z;
  Rank : Z;
  State : PlayerState;
  votedForKick : gmap string bool
}.

Record WordHint : Type := {
  Character : Z;                   (* a rune; 0 while hidden *)
  Underline : bool
}.

(** The variables of the goroutine that [advanceLobby] starts next to the
    ticker. *)
Record Ticker : Type := {
  showNextHintInSeconds : Z;
  hintsLeft : Z
}.

(** Arguments of a [fmt.Sprintf] call. *)
Inductive Arg : Type := AStr (s : string) | AInt (z : Z).

(** Payloads of outbound events. *)
Inductive Data : Type :=
| DNone
| DString (s : string)
| DSprintf (format : string) (args : list Arg)
| DMessage (Author Content : string)
| DWords (words : list string)
| DHints (hints : option (list WordHint))
| DPlayers (players : list ptr)
| DNextTurn (round : Z) (players : list ptr) (roundEndTime : Z).

(** Calls of the injected hooks, and of [ws.Close]. *)
Inductive Event : Type :=
| WriteAsJSON (player : ptr) (type : string) (data : Data)
| WritePublicSystemMessage (text : Data)
| TriggerSimpleUpdateEvent (type : string)
| TriggerComplexUpdateEvent (type : string) (data : Data)
| TriggerComplexUpdatePerPlayerEvent (type : string) (data : ptr -> Data)
| Close (player : ptr).

Record Lobby : Type := {
  Players : list ptr;
  Drawer : option ptr;
  Owner : option ptr;
  Round : Z;
  MaxRounds : Z;
  DrawingTime : Z;
  EnableVotekick : bool;
  CurrentWord : string;
  WordChoice : list string;
  WordHints : option (list WordHint);
  WordHintsShown : option (list WordHint);
  scoreEarnedByGuessers : Z;
  alreadyUsedWords : list string;
  RoundEndTime : Z;
  timeLeftTicker : option Ticker;
  CurrentDrawing : list Z;
  mem : ptr -> Player;             (* the player records the pointers refer to *)
  sent : list Event                (* what the hooks were called with, oldest first *)
}.

(** Payload of an inbound event ([JSEvent.Data], an [interface{}]). *)
Inductive Value : Type :=
| VInt (i : Z)
| VFloat (f : Q)
| VString (s : string)
| VOther.

(** *** Field updates *)

Definition set_Name (v : string) (x : Player) : Player :=
  {| ID := ID x; Name := v; Connected := Connected x; ws := ws x; Score := Score x;
     LastScore := LastScore x; Rank := Rank x; State := State x;
     votedForKick := votedForKick x |}.

Definition set_Score (v : Z) (x : Player) : Player :=
  {| ID := ID x; Name := Name x; Connected := Connected x; ws := ws x; Score := v;
     LastScore := LastScore x; Rank := Rank x; State := State x;
     votedForKick := votedForKick x |}.

Definition set_LastScore (v : Z) (x : Player) : Player :=
  {| ID := ID x; Name := Name x; Connected := Connected x; ws := ws x; Score := Score x;
     LastScore := v; Rank := Rank x; State := State x; votedForKick := votedForKick x |}.

Definition set_Rank (v : Z) (x : Player) : Player :=
  {| ID := ID x; Name := Name x; Connected := Connected x; ws := ws x; Score := Score x;
     LastScore := LastScore x; Rank := v; State := State x;
     votedForKick := votedForKick x |}.

Definition set_State (v : PlayerState) (x : Player) : Player :=
  {| ID := ID x; Name := Name x; Connected := Connected x; ws := ws x; Score := Score x;
     LastScore := LastScore x; Rank := Rank x; State := v; votedForKick := votedForKick x |}.

Definition set_votedForKick (v : gmap string bool) (x : Player) : Player :=
  {| ID := ID x; Name := Name x; Connected := Connected x; ws := ws x; Score := Score x;
     LastScore := LastScore x; Rank := Rank x; State := State x; votedForKick := v |}.

Definition set_Players (v : list ptr) (x : Lobby) : Lobby :=
  {| Players := v; Drawer := Drawer x; Owner := Owner x; Round := Round x;
     MaxRounds := MaxRounds x; DrawingTime := DrawingTime x;
     EnableVotekick := EnableVotekick x; CurrentWord := CurrentWord x;
     WordChoice := WordChoice x; WordHints := WordHints x;
     WordHintsShown := WordHintsShown x;
     scoreEarnedByGuessers := scoreEarnedByGuessers x;
     alreadyUsedWords := alreadyUsedWords x; RoundEndTime := RoundEndTime x;
     timeLeftTicker := timeLeftTicker x; CurrentDrawing := CurrentDrawing x;
     mem := mem x; sent := sent x |}.

Definition set_Drawer (v : option ptr) (x : Lobby) : Lobby :=
  {| Players := Players x; Drawer := v; Owner := Owner x; Round := Round x;
     MaxRounds := MaxRounds x; DrawingTime := DrawingTime x;
     EnableVotekick := EnableVotekick x; CurrentWord := CurrentWord x;
     WordChoice := WordChoice x; WordHints := WordHints x;
     WordHintsShown := WordHintsShown x;
     scoreEarnedByGuessers := scoreEarnedByGuessers x;
     alreadyUsedWords := alreadyUsedWords x; RoundEndTime := RoundEndTime x;
     timeLeftTicker := timeLeftTicker x; CurrentDrawing := CurrentDrawing x;
     mem := mem x; sent := sent x |}.

Definition set_Owner (v : option ptr) (x : Lobby) : Lobby :=
  {| Players := Players x; Drawer := Drawer x; Owner := v; Round := Round x;
     MaxRounds := MaxRounds x; DrawingTime := DrawingTime x;
     EnableVotekick := EnableVotekick x; CurrentWord := CurrentWord x;
     WordChoice := WordChoice x; WordHints := WordHints x;
     WordHintsShown := WordHintsShown x;
     scoreEarnedByGuessers := scoreEarnedByGuessers x;
     alreadyUsedWords := alreadyUsedWords x; RoundEndTime := RoundEndTime x;
     timeLeftTicker := timeLeftTicker x; CurrentDrawing := CurrentDrawing x;
     mem := mem x; sent := sent x |}.

Definition set_Round (v : Z) (x : Lobby) : Lobby :=
  {| Players := Players x; Drawer := Drawer x; Owner := Owner x; Round := v;
     MaxRounds := MaxRounds x; DrawingTime := DrawingTime x;
     EnableVotekick := EnableVotekick x; CurrentWord := CurrentWord x;
     WordChoice := WordChoice x; WordHints := WordHints x;
     WordHintsShown := WordHintsShown x;
     scoreEarnedByGuessers := scoreEarnedByGuessers x;
     alreadyUsedWords := alreadyUsedWords x; RoundEndTime := RoundEndTime x;
     timeLeftTicker := timeLeftTicker x; CurrentDrawing := CurrentDrawing x;
     mem := mem x; sent := sent x |}.

Definition set_CurrentWord (v : string) (x : Lobby) : Lobby :=
  {| Players := Players x; Drawer := Drawer x; Owner := Owner x; Round := Round x;
     MaxRounds := MaxRounds x; DrawingTime := DrawingTime x;
     EnableVotekick := EnableVotekick x; CurrentWord := v; WordChoice := WordChoice x;
     WordHints := WordHints x; WordHintsShown := WordHintsShown x;
     scoreEarnedByGuessers := scoreEarnedByGuessers x;
     alreadyUsedWords := alreadyUsedWords x; RoundEndTime := RoundEndTime x;
     timeLeftTicker := timeLeftTicker x; CurrentDrawing := CurrentDrawing x;
     mem := mem x; sent := sent x |}.

Definition set_WordChoice (v : list string) (x : Lobby) : Lobby :=
  {| Players := Players x; Drawer := Drawer x; Owner := Owner x; Round := Round x;
     MaxRounds := MaxRounds x; DrawingTime := DrawingTime x;
     EnableVotekick := EnableVotekick x; CurrentWord := CurrentWord x; WordChoice := v;
     WordHints := WordHints x; WordHintsShown := WordHintsShown x;
     scoreEarnedByGuessers := scoreEarnedByGuessers x;
     alreadyUsedWords := alreadyUsedWords x; RoundEndTime := RoundEndTime x;
     timeLeftTicker := timeLeftTicker x; CurrentDrawing := CurrentDrawing x;
     mem := mem x; sent := sent x |}.

Definition set_WordHints (v : option (list WordHint)) (x : Lobby) : Lobby :=
  {| Players := Players x; Drawer := Drawer x; Owner := Owner x; Round := Round x;
     MaxRounds := MaxRounds x; DrawingTime := DrawingTime x;
     EnableVotekick := EnableVotekick x; CurrentWord := CurrentWord x;
     WordChoice := WordChoice x; WordHints := v; WordHintsShown := WordHintsShown x;
     scoreEarnedByGuessers := scoreEarnedByGuessers x;
     alreadyUsedWords := alreadyUsedWords x; RoundEndTime := RoundEndTime x;
     timeLeftTicker := timeLeftTicker x; CurrentDrawing := CurrentDrawing x;
     mem := mem x; sent := sent x |}.

Definition set_WordHintsShown (v : option (list WordHint)) (x : Lobby) : Lobby :=
  {| Players := Players x; Drawer := Drawer x; Owner := Owner x; Round := Round x;
     MaxRounds := MaxRounds x; DrawingTime := DrawingTime x;
     EnableVotekick := EnableVotekick x; CurrentWord := CurrentWord x;
     WordChoice := WordChoice x; WordHints := WordHints x; WordHintsShown := v;
     scoreEarnedByGuessers := scoreEarnedByGuessers x;
     alreadyUsedWords := alreadyUsedWords x; RoundEndTime := RoundEndTime x;
     timeLeftTicker := timeLeftTicker x; CurrentDrawing := CurrentDrawing x;
     mem := mem x; sent := sent x |}.

Definition set_scoreEarnedByGuessers (v : Z) (x : Lobby) : Lobby :=
  {| Players := Players x; Drawer := Drawer x; Owner := Owner x; Round := Round x;
     MaxRounds := MaxRounds x; DrawingTime := DrawingTime x;
     EnableVotekick := EnableVotekick x; CurrentWord := CurrentWord x;
     WordChoice := WordChoice x; WordHints := WordHints x;
     WordHintsShown := WordHintsShown x; scoreEarnedByGuessers := v;
     alreadyUsedWords := alreadyUsedWords x; RoundEndTime := RoundEndTime x;
     timeLeftTicker := timeLeftTicker x; CurrentDrawing := CurrentDrawing x;
     mem := mem x; sent := sent x |}.

Definition set_alreadyUsedWords (v : list string) (x : Lobby) : Lobby :=
  {| Players := Players x; Drawer := Drawer x; Owner := Owner x; Round := Round x;
     MaxRounds := MaxRounds x; DrawingTime := DrawingTime x;
     EnableVotekick := EnableVotekick x; CurrentWord := CurrentWord x;
     WordChoice := WordChoice x; WordHints := WordHints x;
     WordHintsShown := WordHintsShown x;
     scoreEarnedByGuessers := scoreEarnedByGuessers x; alreadyUsedWords := v;
     RoundEndTime := RoundEndTime x; timeLeftTicker := timeLeftTicker x;
     CurrentDrawing := CurrentDrawing x; mem := mem x; sent := sent x |}.

Definition set_RoundEndTime (v : Z) (x : Lobby) : Lobby :=
  {| Players := Players x; Drawer := Drawer x; Owner := Owner x; Round := Round x;
     MaxRounds := MaxRounds x; DrawingTime := DrawingTime x;
     EnableVotekick := EnableVotekick x; CurrentWord := CurrentWord x;
     WordChoice := WordChoice x; WordHints := WordHints x;
     WordHintsShown := WordHintsShown x;
     scoreEarnedByGuessers := scoreEarnedByGuessers x;
     alreadyUsedWords := alreadyUsedWords x; RoundEndTime := v;
     timeLeftTicker := timeLeftTicker x; CurrentDrawing := CurrentDrawing x;
     mem := mem x; sent := sent x |}.

Definition set_timeLeftTicker (v : option Ticker) (x : Lobby) : Lobby :=
  {| Players := Players x; Drawer := Drawer x; Owner := Owner x; Round := Round x;
     MaxRounds := MaxRounds x; DrawingTime := DrawingTime x;
     EnableVotekick := EnableVotekick x; CurrentWord := CurrentWord x;
     WordChoice := WordChoice x; WordHints := WordHints x;
     WordHintsShown := WordHintsShown x;
     scoreEarnedByGuessers := scoreEarnedByGuessers x;
     alreadyUsedWords := alreadyUsedWords x; RoundEndTime := RoundEndTime x;
     timeLeftTicker := v; CurrentDrawing := CurrentDrawing x; mem := mem x;
     sent := sent x |}.

Definition set_CurrentDrawing (v : list Z) (x : Lobby) : Lobby :=
  {| Players := Players x; Drawer := Drawer x; Owner := Owner x; Round := Round x;
     MaxRounds := MaxRounds x; DrawingTime := DrawingTime x;
     EnableVotekick := EnableVotekick x; CurrentWord := CurrentWord x;
     WordChoice := WordChoice x; WordHints := WordHints x;
     WordHintsShown := WordHintsShown x;
     scoreEarnedByGuessers := scoreEarnedByGuessers x;
     alreadyUsedWords := alreadyUsedWords x; RoundEndTime := RoundEndTime x;
     timeLeftTicker := timeLeftTicker x; CurrentDrawing := v; mem := mem x;
     sent := sent x |}.

Definition set_mem (v : ptr -> Player) (x : Lobby) : Lobby :=
  {| Players := Players x; Drawer := Drawer x; Owner := Owner x; Round := Round x;
     MaxRounds := MaxRounds x; DrawingTime := DrawingTime x;
     EnableVotekick := EnableVotekick x; CurrentWord := CurrentWord x;
     WordChoice := WordChoice x; WordHints := WordHints x;
     WordHintsShown := WordHintsShown x;
     scoreEarnedByGuessers := scoreEarnedByGuessers x;
     alreadyUsedWords := alreadyUsedWords x; RoundEndTime := RoundEndTime x;
     timeLeftTicker := timeLeftTicker x; CurrentDrawing := CurrentDrawing x; mem := v;
     sent := sent x |}.

Definition set_sent (v : list Event) (x : Lobby) : Lobby :=
  {| Players := Players x; Drawer := Drawer x; Owner := Owner x; Round := Round x;
     MaxRounds := MaxRounds x; DrawingTime := DrawingTime x;
     EnableVotekick := EnableVotekick x; CurrentWord := CurrentWord x;
     WordChoice := WordChoice x; WordHints := WordHints x;
     WordHintsShown := WordHintsShown x;
     scoreEarnedByGuessers := scoreEarnedByGuessers x;
     alreadyUsedWords := alreadyUsedWords x; RoundEndTime := RoundEndTime x;
     timeLeftTicker := timeLeftTicker x; CurrentDrawing := CurrentDrawing x;
     mem := mem x; sent := v |}.

(** ** The engine *)

Section Engine.

(** Collaborators that are not part of [lobby.go]: the word source, the
    text functions of the Go library whose tables are not reproduced here,
    and the value Go gives to [int(+Inf)], which the language leaves to the
    implementation. *)
Variable GetRandomWords : Lobby -> list string.
Variable TrimSpace : string -> string.       (* strings.TrimSpace *)
Variable ToLower : string -> string.         (* strings.ToLower *)
Variable Replace : string -> string.         (* discordemojimap.Replace *)
Variable intOfInf : Z.

Definition emit (e : Event) (l : Lobby) : Lobby := set_sent (sent l ++ [e]) l.

Definition update (m : ptr -> Player) (p : ptr) (f : Player -> Player) : ptr -> Player :=
  fun q => if decide (q = p) then f (m q) else m q.

Definition modify (p : ptr) (f : Player -> Player) (l : Lobby) : Lobby :=
  set_mem (update (mem l) p f) l.

(** [for _, otherPlayer := range lobby.Players { f(otherPlayer) }]. *)
Definition forPlayers (f : Player -> Player) (l : Lobby) : Lobby :=
  set_mem (foldl (fun m p => update m p f) (mem l) (Players l)) l.

Definition isGuessing (p : Player) : bool := bool_decide (State p = Guessing).

Definition isAnyoneStillGuessing (l : Lobby) : bool :=
  existsb (fun p => isGuessing (mem l p)) (Players l).

Definition sendMessageToAll (message : string) (sender : ptr) (l : Lobby) : Lobby :=
  let escaped := EscapeString (Replace message) in
  set_sent (sent l ++
            map (fun target =>
                   WriteAsJSON target "message"
                     (DMessage (EscapeString (Name (mem l sender))) escaped))
                (Players l)) l.

Definition sendMessageToAllNonGuessing (message : string) (sender : ptr) (l : Lobby) : Lobby :=
  let escaped := EscapeString (Replace message) in
  set_sent (sent l ++
            map (fun target =>
                   WriteAsJSON target "non-guessing-player-message"
                     (DMessage (EscapeString (Name (mem l sender))) escaped))
                (List.filter (fun target => negb (isGuessing (mem l target))) (Players l))) l.

Definition GetAvailableWordHints (l : Lobby) (player : ptr) : option (list WordHint) :=
  match State (mem l player) with
  | Drawing | Standby => WordHintsShown l
  | Guessing => WordHints l
  end.

Definition triggerPlayersUpdate (l : Lobby) : Lobby :=
  emit (TriggerComplexUpdateEvent "update-players" (DPlayers (Players l))) l.

Definition triggerCorrectGuessEvent (l : Lobby) : Lobby :=
  emit (TriggerSimpleUpdateEvent "correct-guess") l.

Definition triggerWordHintUpdate (l : Lobby) : Lobby :=
  if String.eqb (CurrentWord l) "" then l
  else emit (TriggerComplexUpdatePerPlayerEvent "update-wordhint"
               (fun player => DHints (GetAvailableWordHints l player))) l.

Definition playersThatAreHigher (m : ptr -> Player) (ps : list ptr) (a : ptr) : Z :=
  Z.of_nat (length (List.filter (fun b => Score (m a) <? Score (m b)) ps)).

Definition recalculateRanks (l : Lobby) : Lobby :=
  set_mem (foldl (fun m a =>
                    update m a (set_Rank (int64 (playersThatAreHigher m (Players l) a + 1))))
                 (mem l) (Players l)) l.

(** The second loop of [selectNextDrawer], with the drawer held so far. *)
Fixpoint scanConnected (m : ptr -> Player) (ps : list ptr) (drawer : option ptr)
  : option ptr :=
  match ps with
  | [] => drawer
  | otherPlayer :: rest =>
    if decide (Some otherPlayer = drawer) then drawer
    else if negb (Connected (m otherPlayer)) then scanConnected m rest drawer
    else scanConnected m rest (Some otherPlayer)
  end.

(** Index of the first element of [ps] that [test] accepts. *)
Fixpoint indexWhere (test : ptr -> bool) (ps : list ptr) : option nat :=
  match ps with
  | [] => None
  | p :: rest => if test p then Some O else S <$> indexWhere test rest
  end.

Definition selectNextDrawer (l : Lobby) : result Lobby :=
  match indexWhere (fun otherPlayer => bool_decide (Some otherPlayer = Drawer l)) (Players l) with
  | Some playerIndex =>
    match Players l !! S playerIndex with
    | Some next => Done (set_Drawer (Some next) l)
    | None => Panic
    end
  | None => Done (set_Drawer (scanConnected (mem l) (Players l) (Drawer l)) l)
  end.

Definition irrelevantChar (char : Z) : bool :=
  (char =? 32) || (char =? 95) || (char =? 45).

Definition createWordHintFor (word : string) (showAll : bool) : list WordHint :=
  map (fun char =>
         if showAll
         then {| Character := char; Underline := negb (irrelevantChar char) |}
         else {| Character := 0; Underline := negb (irrelevantChar char) |})
      (runes word).

(** Lines 474-521 of [advanceLobby]: the turn of the drawer just selected.
    [now] is [time.Now().UTC().UnixNano()]. *)
Definition startTurn (now : Z) (drawer : ptr) (l : Lobby) : Lobby :=
  let l := modify drawer (set_State Drawing) l in
  let l := set_WordChoice (GetRandomWords l) l in
  let l := emit (WriteAsJSON drawer "prompt-words" (DWords (WordChoice l))) l in
  let l := set_RoundEndTime (int64 (now ÷ 1000000 + int64 (DrawingTime l * 1000))) l in
  let l := set_timeLeftTicker
             (Some {| showNextHintInSeconds := DrawingTime l ÷ 3; hintsLeft := 2 |}) l in
  let l := recalculateRanks l in
  emit (TriggerComplexUpdateEvent "next-turn"
          (DNextTurn (Round l) (Players l) (RoundEndTime l))) l.

(** Modelled from the spec: [Lobby.ClearDrawing] is declared outside
    [lobby.go]; it clears the accumulated drawing instructions. *)
Definition ClearDrawing (l : Lobby) : Lobby := set_CurrentDrawing [] l.

(** Lines 436-447 of [advanceLobby]: the ticker is stopped and its goroutine
    told to return, every player guesses again with no ballots, the drawing
    is cleared. *)
Definition resetForTurn (l : Lobby) : Lobby :=
  let l := match timeLeftTicker l with
           | Some _ => set_timeLeftTicker None l
           | None => l
           end in
  let l := forPlayers (fun p => set_votedForKick ∅ (set_State Guessing p)) l in
  ClearDrawing l.

Definition advanceLobby (now : Z) (l : Lobby) : result Lobby :=
  let l := resetForTurn l in
  match Drawer l with
  | None =>
    match Players l !! O with
    | None => Panic
    | Some p0 => Done (startTurn now p0 (set_Round (int64 (Round l + 1)) (set_Drawer (Some p0) l)))
    end
  | Some drawer =>
    match last (Players l) with
    | None => Panic
    | Some lastPlayer =>
      if decide (drawer = lastPlayer) then
        if Round l =? MaxRounds l then
          let l := set_Round 0 (set_Drawer None l) in
          let l := triggerPlayersUpdate (recalculateRanks l) in
          Done (emit (WritePublicSystemMessage
                        (DString "Game over. Type !start again to start a new round.")) l)
        else
          match Players l !! O with
          | None => Panic
          | Some p0 =>
            Done (startTurn now p0 (set_Drawer (Some p0) (set_Round (int64 (Round l + 1)) l)))
          end
      else
        let* l := selectNextDrawer l in
        match Drawer l with
        | Some d => Done (startTurn now d l)
        | None => Panic
        end
    end
  end.

(** Lines 410-412, [int((pool / (players - 1)) * 1.1)] when the quotient is
    positive, in exact arithmetic; a lobby of one player divides by zero,
    which in [float64] is [+Inf]. For pools from [2^53] on, [float64] no
    longer holds the pool exactly and the code can give another value; no
    statement below names the value of the bonus. *)
Definition drawerBonus (pool players : Z) : option Z :=
  if players - 1 =? 0 then Some intOfInf
  else if 0 <? players - 1 then Some ((11 * pool) / (10 * (players - 1)))
  else None.

Definition creditDrawer (l : Lobby) : Lobby :=
  match Drawer l with
  | Some drawer =>
    if 0 <? scoreEarnedByGuessers l then
      match drawerBonus (scoreEarnedByGuessers l) (Z.of_nat (length (Players l))) with
      | Some bonus =>
        modify drawer (fun p => set_Score (int64 (Score p + bonus)) (set_LastScore bonus p)) l
      | None => l
      end
    else l
  | None => l
  end.

Definition roundOverMessage (l : Lobby) : Data :=
  if String.eqb (CurrentWord l) "" then DString "Round over. No word was chosen."
  else DSprintf "Round over. The word was '%s'" [AStr (CurrentWord l)].

(** Lines 400-430 of [endRound]: all of it but the final [advanceLobby]. *)
Definition closeRound (l : Lobby) : Lobby :=
  let message := roundOverMessage l in
  let l := creditDrawer l in
  let l := set_scoreEarnedByGuessers 0 l in
  let l := set_alreadyUsedWords (alreadyUsedWords l ++ [CurrentWord l]) l in
  let l := set_CurrentWord "" l in
  let l := set_WordHints None l in
  let l := forPlayers (fun p => if isGuessing p then set_LastScore 0 p else p) l in
  emit (WritePublicSystemMessage message) l.

Definition endRound (now : Z) (l : Lobby) : result Lobby :=
  advanceLobby now (closeRound l).

(** *** The ticker goroutine *)

(** The inner loop of lines 495-502. [rnd] holds the successive results of
    [rand.Int()] (non-negative); when they are used up without a hidden slot
    having been drawn, the loop is still running. *)
Fixpoint revealHint (rnd : list nat) (hints : list WordHint) (word : string)
  : result (list WordHint) :=
  match rnd with
  | [] => Spin
  | r :: rnd' =>
    if (length hints =? 0)%nat then Panic
    else
      let randomIndex := (r mod length hints)%nat in
      match hints !! randomIndex with
      | None => Panic
      | Some hint =>
        if Character hint =? 0 then
          match runes word !! randomIndex with
          | None => Panic
          | Some char =>
            Done (<[randomIndex := {| Character := char; Underline := Underline hint |}]> hints)
          end
        else revealHint rnd' hints word
      end
  end.

(** Lines 488-505: the hint countdown of one tick. *)
Definition hintCountdown (rnd : list nat) (t : Ticker) (l : Lobby) : result Lobby :=
  if 0 <? hintsLeft t then
    let s := int64 (showNextHintInSeconds t - 1) in
    if s =? 0 then
      let l := set_timeLeftTicker
                 (Some {| showNextHintInSeconds := DrawingTime l ÷ 3;
                          hintsLeft := int64 (hintsLeft t - 1) |}) l in
      match WordHints l with
      | None => Done l
      | Some hints =>
        let* hints' := revealHint rnd hints (CurrentWord l) in
        Done (triggerWordHintUpdate (set_WordHints (Some hints') l))
      end
    else Done (set_timeLeftTicker
                 (Some {| showNextHintInSeconds := s; hintsLeft := hintsLeft t |}) l)
  else Done l.

(** One delivery on [lobby.timeLeftTicker.C] (lines 487-508). The
    [go endRound(lobby)] of line 507 is run to completion within the tick. *)
Definition tick (now : Z) (rnd : list nat) (l : Lobby) : result Lobby :=
  match timeLeftTicker l with
  | None => Done l
  | Some t =>
    let* l := hintCountdown rnd t l in
    if RoundEndTime l =? 0 then endRound now l else Done l
  end.

(** Successive ticks, each with the random numbers it may draw. *)
Fixpoint ticks (now : Z) (rnds : list (list nat)) (l : Lobby) : result Lobby :=
  match rnds with
  | [] => Done l
  | rnd :: rnds' => let* l := tick now rnd l in ticks now rnds' l
  end.

(** *** Inbound events *)

(** [int(asFloat)]: truncation toward zero; a value below the range of
    [int] gives the least [int]. *)
Definition intOfFloat (f : Q) : Z :=
  let t := if Qle_bool 0 f then Qfloor f else Qceiling f in
  if t <? - 2 ^ 63 then - 2 ^ 63 else t.

(** Lines 115-124: the index carried by a choose-word event. *)
Definition chosenIndexOf (data : Value) : option Z :=
  match data with
  | VInt i => Some i
  | VFloat asFloat => if negb (Qle_bool 4 asFloat) then Some (intOfFloat asFloat) else None
  | _ => None
  end.

(** The [choose-word] arm of [HandleEvent] (lines 114-134). *)
Definition HandleEvent_chooseWord (data : Value) (l : Lobby) (player : ptr) : result Lobby :=
  match chosenIndexOf data with
  | None => Done l
  | Some chosenIndex =>
    if bool_decide (Some player = Drawer l) && (0 <? Z.of_nat (length (WordChoice l)))
       && (0 <=? chosenIndex) && (chosenIndex <=? 2)
    then
      match WordChoice l !! Z.to_nat chosenIndex with
      | None => Panic
      | Some word =>
        let l := set_CurrentWord word l in
        let l := set_WordChoice [] l in
        let l := set_WordHints (Some (createWordHintFor (CurrentWord l) false)) l in
        let l := set_WordHintsShown (Some (createWordHintFor (CurrentWord l) true)) l in
        let l := triggerWordHintUpdate l in
        Done (emit (WriteAsJSON player "your-turn" DNone) l)
      end
    else Done l
  end.

Definition hasVoted (p : Player) (toKickID : string) : bool :=
  default false (votedForKick p !! toKickID).

Definition votesNeededFor (players : nat) : Z :=
  if (players mod 2 =? 0)%nat then Z.of_nat (players / 2) else Z.of_nat (players / 2) + 1.

Definition redactLastScore (p : Player) : Player :=
  set_LastScore 0 (set_Score (int64 (Score p - LastScore p)) p).

(** Lines 298-308: a kicked owner is replaced by the first connected player. *)
Definition replaceOwner (playerToKick : ptr) (l : Lobby) : Lobby :=
  if bool_decide (Owner l = Some playerToKick) then
    match List.find (fun p => Connected (mem l p)) (Players l) with
    | Some potentialOwner =>
      emit (WritePublicSystemMessage
              (DSprintf "%s is the new lobby owner." [AStr (Name (mem l potentialOwner))]))
           (set_Owner (Some potentialOwner) l)
    | None => l
    end
  else l.

(** Line 249: [player.votedForKick[toKickID] = true]. *)
Definition castVote (player : ptr) (toKickID : string) (l : Lobby) : Lobby :=
  modify player (fun p => set_votedForKick (<[toKickID := true]> (votedForKick p)) p) l.

(** Lines 252-257: the players holding a ballot against [toKickID]. *)
Definition voteKickCount (toKickID : string) (l : Lobby) : Z :=
  Z.of_nat (length (List.filter (fun p => hasVoted (mem l p) toKickID) (Players l))).

(** Lines 269-310: the removal of the player, once the votes suffice. *)
Definition removeKicked (player : ptr) (toKickID : string)
           (toKick : nat) (playerToKick : ptr) (l : Lobby) : Lobby :=
  let l := if existsb (fun p => hasVoted (mem l p) toKickID) (Players l)
           then modify player (fun p => set_votedForKick (delete toKickID (votedForKick p)) p) l
           else l in
  let l := emit (WritePublicSystemMessage
                   (DSprintf "%s has been kicked from the lobby"
                             [AStr (Name (mem l playerToKick))])) l in
  let l := if bool_decide (Drawer l = Some playerToKick) then
             let l := emit (WritePublicSystemMessage
                              (DString "Since the kicked player has been drawing, none of you will get any points this round.")) l in
             set_scoreEarnedByGuessers 0 (forPlayers redactLastScore l)
           else l in
  let l := if ws (mem l playerToKick) then emit (Close playerToKick) l else l in
  let l := set_Players (take toKick (Players l) ++ drop (S toKick) (Players l)) l in
  let l := recalculateRanks l in
  let l := replaceOwner playerToKick l in
  triggerPlayersUpdate l.

(** Lines 268-315. *)
Definition executeKick (now : Z) (player : ptr) (toKickID : string)
           (toKick : nat) (playerToKick : ptr) (l : Lobby) : result Lobby :=
  let l := removeKicked player toKickID toKick playerToKick l in
  if bool_decide (Drawer l = Some playerToKick) || negb (isAnyoneStillGuessing l)
  then endRound now l
  else Done l.

(** Line 266: the public tally. *)
Definition announceVotes (voteKickCount votesNeeded : Z) (playerToKick : ptr) (l : Lobby)
  : Lobby :=
  emit (WritePublicSystemMessage
          (DSprintf "(%d/%d) players voted to kick %s"
                    [AInt voteKickCount; AInt votesNeeded; AStr (Name (mem l playerToKick))])) l.

Definition handleKickEvent (now : Z) (l : Lobby) (player : ptr) (toKickID : string)
  : result Lobby :=
  if String.eqb toKickID (ID (mem l player)) then Done l
  else if hasVoted (mem l player) toKickID then Done l
  else
    match indexWhere (fun p => String.eqb (ID (mem l p)) toKickID) (Players l) with
    | None => Done l
    | Some toKick =>
      let l := castVote player toKickID l in
      match Players l !! toKick with
      | None => Panic
      | Some playerToKick =>
        let voteKickCount := voteKickCount toKickID l in
        let votesNeeded := votesNeededFor (length (Players l)) in
        let l := announceVotes voteKickCount votesNeeded playerToKick l in
        if votesNeeded <=? voteKickCount
        then executeKick now player toKickID toKick playerToKick l
        else Done l
      end
    end.

(** The [kick-vote] arm of [HandleEvent] (lines 135-148). *)
Definition HandleEvent_kickVote (now : Z) (data : Value) (l : Lobby) (player : ptr)
  : result Lobby :=
  match data with
  | VString toKickID =>
    if negb (EnableVotekick l)
    then Done (emit (WriteAsJSON player "system-message"
                       (DString "Votekick is disabled in this lobby!")) l)
    else handleKickEvent now l player toKickID
  | _ => Done l
  end.

(** Lines 170-174: the score of a correct guess. *)
Definition awardGuess (now : Z) (sender : ptr) (l : Lobby) : Lobby :=
  let secondsLeft := int64 (RoundEndTime l ÷ 1000 - now ÷ 1000000000) in
  let l := modify sender (set_LastScore (guessPoints secondsLeft)) l in
  let l := modify sender (fun p => set_Score (int64 (Score p + LastScore p)) p) l in
  let l := set_scoreEarnedByGuessers
             (int64 (scoreEarnedByGuessers l + LastScore (mem l sender))) l in
  modify sender (set_State Standby) l.

(** Lines 175-187: what follows the scoring of a correct guess. *)
Definition afterCorrectGuess (now : Z) (sender : ptr) (l : Lobby) : result Lobby :=
  let l := emit (WriteAsJSON sender "system-message"
                   (DString "You have correctly guessed the word.")) l in
  if negb (isAnyoneStillGuessing l) then endRound now l
  else
    let l := emit (WriteAsJSON sender "update-wordhint" (DHints (WordHintsShown l))) l in
    Done (triggerPlayersUpdate (triggerCorrectGuessEvent (recalculateRanks l))).

Definition handleMessage (now : Z) (input : string) (sender : ptr) (l : Lobby)
  : result Lobby :=
  let trimmed := TrimSpace input in
  if String.eqb trimmed "" then Done l
  else if String.eqb (CurrentWord l) "" then Done (sendMessageToAll trimmed sender l)
  else
    match State (mem l sender) with
    | Drawing | Standby => Done (sendMessageToAllNonGuessing trimmed sender l)
    | Guessing =>
      let lowerCasedInput := ToLower trimmed in
      let lowerCasedSearched := ToLower (CurrentWord l) in
      if String.eqb lowerCasedSearched lowerCasedInput then
        afterCorrectGuess now sender (awardGuess now sender l)
      else
        let l := if ComputeDistance lowerCasedInput lowerCasedSearched =? 1
                 then emit (WriteAsJSON sender "system-message"
                              (DSprintf "'%s' is very close." [AStr trimmed])) l
                 else l in
        Done (sendMessageToAll trimmed sender l)
    end.

(** *** Commands *)

Definition commandStart (now : Z) (caller : ptr) (l : Lobby) : result Lobby :=
  if (Round l =? 0) && bool_decide (Some caller = Owner l)
  then advanceLobby now (forPlayers (fun p => set_LastScore 0 (set_Score 0 p)) l)
  else Done l.

(** [commandNick]; [generated] is what [GeneratePlayerName()] returns when
    it is called. *)
Definition commandNick (generated : string) (caller : ptr) (l : Lobby) (args : list string)
  : result Lobby :=
  match args with
  | [] => Panic
  | [_] =>
    let l := modify caller (set_Name generated) l in
    Done (triggerPlayersUpdate (emit (WriteAsJSON caller "reset-username" DNone) l))
  | _ :: rest =>
    let newName := EscapeString (TrimSpace (Join rest " ")) in
    if len newName =? 0 then
      let l := modify caller (set_Name generated) l in
      Done (triggerPlayersUpdate (emit (WriteAsJSON caller "reset-username" DNone) l))
    else
      let* newName := (if 30 <? len newName then slicePrefix 31 newName else Done newName) in
      let l := modify caller (set_Name newName) l in
      Done (triggerPlayersUpdate
              (emit (WriteAsJSON caller "persist-username" (DString newName)) l))
  end.

End Engine.

(** ** Frame of a change of turn *)

(** A normal chat line: what [sendMessageToAll] writes. *)
Definition isChat (e : Event) : bool :=
  match e with
  | WriteAsJSON _ type _ => String.eqb type "message"
  | _ => false
  end.

(** [keeps l l']: from [l] to [l'] the player list, the configuration, the
    word, the hints, the score pool and every score are unchanged, no
    ballot was added to an empty ballot set, and the events sent in between
    contain no chat line. *)
Record keeps (l l' : Lobby) : Prop := {
  keeps_Players : Players l' = Players l;
  keeps_MaxRounds : MaxRounds l' = MaxRounds l;
  keeps_DrawingTime : DrawingTime l' = DrawingTime l;
  keeps_CurrentWord : CurrentWord l' = CurrentWord l;
  keeps_WordHints : WordHints l' = WordHints l;
  keeps_WordHintsShown : WordHintsShown l' = WordHintsShown l;
  keeps_pool : scoreEarnedByGuessers l' = scoreEarnedByGuessers l;
  keeps_Score : forall q, Score (mem l' q) = Score (mem l q);
  keeps_LastScore : forall q, LastScore (mem l' q) = LastScore (mem l q);
  keeps_ballots : forall q, votedForKick (mem l q) = ∅ -> votedForKick (mem l' q) = ∅;
  keeps_sent : exists evs, sent l' = (sent l ++ evs)%list /\ existsb isChat evs = false
}.

(** What [sendMessageToAll] writes: one chat line for each player of the
    lobby. *)
Definition chatLines (Replace : string -> string) (message : string) (sender : ptr)
           (l : Lobby) : list Event :=
  map (fun target =>
         WriteAsJSON target "message"
           (DMessage (EscapeString (Name (mem l sender))) (EscapeString (Replace message))))
      (Players l).

(** The player-facing hint array, when present, has one slot for each
    character of the current word. *)
Definition hintsFit (l : Lobby) : Prop :=
  forall hints, WordHints l = Some hints -> length hints = length (runes (CurrentWord l)).

Definition staysEmpty (f : Player -> Player) : Prop :=
  forall x, votedForKick x = ∅ -> votedForKick (f x) = ∅.


(** ** Stand-ins for the text collaborators, and sample lobbies

    The ASCII part of [strings.ToLower] and [strings.TrimSpace]; on ASCII
    input they agree with the Go functions. They serve to run the engine on
    examples. *)

Definition lowerChar (c : ascii) : ascii :=
  let n := nat_of_ascii c in
  if ((65 <=? n) && (n <=? 90))%nat then ascii_of_nat (n + 32) else c.

Fixpoint lowerASCII (s : string) : string :=
  match s with
  | EmptyString => EmptyString
  | String c s' => String (lowerChar c) (lowerASCII s')
  end.

Definition isSpaceChar (c : ascii) : bool :=
  let n := nat_of_ascii c in
  ((9 <=? n) && (n <=? 13) || (n =? 32))%nat.

Fixpoint trimLeft (s : string) : string :=
  match s with
  | EmptyString => EmptyString
  | String c s' => if isSpaceChar c then trimLeft s' else s
  end.

Fixpoint trimRight (s : string) : string :=
  match s with
  | EmptyString => EmptyString
  | String c s' =>
    let r := trimRight s' in
    if isSpaceChar c && String.eqb r "" then EmptyString else String c r
  end.

Definition trimASCII (s : string) : string := trimRight (trimLeft s).

Definition noEmoji (s : string) : string := s.

Definition threeWords (l : Lobby) : list string := ["apple"; "boat"; "cloud"].

Definition newPlayer (id : string) (state : PlayerState) (score lastScore : Z) : Player :=
  {| ID := id; Name := id; Connected := true; ws := true; Score := score;
     LastScore := lastScore; Rank := 1; State := state; votedForKick := ∅ |}.

(** A lobby in its first round after [seconds] of configuration, with the
    given players, drawer and word. *)
Definition sampleLobby (players : list ptr) (drawer : option ptr) (word : string)
           (m : ptr -> Player) : Lobby :=
  {| Players := players; Drawer := drawer; Owner := Some 0%nat; Round := 1; MaxRounds := 3;
     DrawingTime := 60; EnableVotekick := true; CurrentWord := word; WordChoice := [];
     WordHints := if String.eqb word "" then None else Some (createWordHintFor word false);
     WordHintsShown := if String.eqb word "" then None else Some (createWordHintFor word true);
     scoreEarnedByGuessers := 0; alreadyUsedWords := []; RoundEndTime := 1030000;
     timeLeftTicker := Some {| showNextHintInSeconds := 20; hintsLeft := 2 |};
     CurrentDrawing := []; mem := m; sent := [] |}.

(** Four players: 0 draws, the others guess. *)
Definition fourPlayers : ptr -> Player :=
  fun p =>
    match p with
    | 0%nat => newPlayer "ann" Drawing 0 0
    | 1%nat => newPlayer "bob" Guessing 0 0
    | 2%nat => newPlayer "cat" Guessing 0 0
    | _ => newPlayer "dan" Guessing 0 0
    end.

(** The same four players once bob (1) has voted to kick [target]. *)
Definition bobVoted (target : string) : ptr -> Player :=
  fun p =>
    match p with
    | 1%nat => set_votedForKick (<[target := true]> ∅) (fourPlayers 1%nat)
    | _ => fourPlayers p
    end.

(** ** Further code of [lobby.go]: joining, disconnecting, commands *)

Definition set_Connected (v : bool) (x : Player) : Player :=
  {| ID := ID x; Name := Name x; Connected := v; ws := ws x; Score := Score x;
     LastScore := LastScore x; Rank := Rank x; State := State x;
     votedForKick := votedForKick x |}.

Definition set_ws (v : bool) (x : Player) : Player :=
  {| ID := ID x; Name := Name x; Connected := Connected x; ws := v; Score := Score x;
     LastScore := LastScore x; Rank := Rank x; State := State x;
     votedForKick := votedForKick x |}.

(** [Lobby.JoinPlayer] (lines 716-725). [player] is the record that
    [createPlayer], declared outside [lobby.go], has allocated; the session
    token the method returns is a field of that record. *)
Definition JoinPlayer (player : ptr) (l : Lobby) : Lobby :=
  let l := set_Players (Players l ++ [player]) l in
  triggerPlayersUpdate (recalculateRanks l).

(** [LobbySettingBounds] (lines 26-36). *)
Module Settings.

Record SettingBounds : Type := {
  MinDrawingTime : Z;
  MaxDrawingTime : Z;
  MinRounds : Z;
  MaxRounds : Z;
  MinMaxPlayers : Z;
  MaxMaxPlayers : Z;
  MinClientsPerIPLimit : Z;
  MaxClientsPerIPLimit : Z
}.

Definition LobbySettingBounds : SettingBounds :=
  {| MinDrawingTime := 60; MaxDrawingTime := 300; MinRounds := 1; MaxRounds := 20;
     MinMaxPlayers := 2; MaxMaxPlayers := 24;
     MinClientsPerIPLimit := 1; MaxClientsPerIPLimit := 24 |}.

End Settings.

(** The lobby together with its field [MaxPlayers], which of the code
    modelled here only [commandSetMP] touches. *)
Record Room : Type := {
  lobby : Lobby;
  MaxPlayers : Z
}.

Definition mapResult {A B : Type} (f : A -> B) (r : result A) : result B :=
  match r with
  | Done a => Done (f a)
  | Panic => Panic
  | Spin => Spin
  end.

(** [s[1:]] of a non-empty string. *)
Definition dropFirstByte (s : string) : string :=
  match s with
  | EmptyString => EmptyString
  | String _ s' => s'
  end.

Section Commands.

Variable GetRandomWords : Lobby -> list string.
Variable TrimSpace ToLower Replace : string -> string.
Variable intOfInf : Z.
Variable HasConnectedPlayers : Lobby -> bool.       (* declared outside lobby.go *)
Variable ParseCommand : string -> list string.      (* commands.ParseCommand *)
Variable ParseInt : string -> option Z.             (* strconv.ParseInt(s, 10, 64), [None] on error *)

(** [OnDisconnected] (lines 688-703); the boolean tells whether
    [RemoveLobby(lobby.ID)] was called. *)
Definition OnDisconnected (l : Lobby) (player : ptr) : Lobby * bool :=
  if negb (ws (mem l player)) then (l, false)
  else
    let l := modify player (fun p => set_ws false (set_Connected false p)) l in
    if negb (HasConnectedPlayers l) then (l, true)
    else (triggerPlayersUpdate l, false).

Definition tell (caller : ptr) (text : Data) (r : Room) : Room :=
  {| lobby := emit (WriteAsJSON caller "system-message" text) (lobby r);
     MaxPlayers := MaxPlayers r |}.

(** [commandSetMP] (lines 371-397). *)
Definition commandSetMP (caller : ptr) (r : Room) (args : list string) : Room :=
  let bounds := Settings.LobbySettingBounds in
  let players := Z.of_nat (length (Players (lobby r))) in
  if bool_decide (Some caller = Owner (lobby r)) then
    match args !! 1%nat with
    | None => r
    | Some arg =>
      let newMaxPlayersValue := TrimSpace arg in
      match ParseInt newMaxPlayersValue with
      | Some newMaxPlayersValueInt =>
        if (players <=? newMaxPlayersValueInt)
           && (newMaxPlayersValueInt <=? Settings.MaxMaxPlayers bounds)
           && (Settings.MinMaxPlayers bounds <=? newMaxPlayersValueInt)
        then
          {| lobby := emit (WritePublicSystemMessage
                              (DSprintf "MaxPlayers value has been changed to %d"
                                        [AInt newMaxPlayersValueInt])) (lobby r);
             MaxPlayers := newMaxPlayersValueInt |}
        else if Settings.MinMaxPlayers bounds <? players then
          tell caller (DSprintf "MaxPlayers value should be between %d and %d."
                                [AInt players; AInt (Settings.MaxMaxPlayers bounds)]) r
        else
          tell caller (DSprintf "MaxPlayers value should be between %d and %d."
                                [AInt (Settings.MinMaxPlayers bounds);
                                 AInt (Settings.MaxMaxPlayers bounds)]) r
      | None => tell caller (DSprintf "MaxPlayers value must be numeric." []) r
      end
    end
  else tell caller (DSprintf "Only the lobby owner can change MaxPlayers setting." []) r.

Definition withLobby (r : Room) (l : Lobby) : Room :=
  {| lobby := l; MaxPlayers := MaxPlayers r |}.

Definition isNickCommand (name : string) : bool :=
  existsb (String.eqb name) ["nick"; "name"; "username"; "nickname"; "playername"; "alias"].

(** [handleCommand] (lines 319-333); [generated] is what
    [GeneratePlayerName()] returns if it is called. *)
Definition handleCommand (generated : string) (now : Z) (commandString : string)
           (caller : ptr) (r : Room) : result Room :=
  let command := ParseCommand commandString in
  match command with
  | [] => Done r
  | name :: _ =>
    let name := ToLower name in
    if String.eqb name "start"
    then mapResult (withLobby r) (commandStart GetRandomWords now caller (lobby r))
    else if String.eqb name "setmp" then Done (commandSetMP caller r command)
    else if String.eqb name "help" then Done r
    else if isNickCommand name
    then mapResult (withLobby r) (commandNick TrimSpace generated caller (lobby r) command)
    else Done r
  end.

(** The [message] arm of [HandleEvent] (lines 74-84); [None] is the error
    it returns for a payload that is not a string. *)
Definition HandleEvent_message (generated : string) (now : Z) (data : Value)
           (r : Room) (player : ptr) : result (option Room) :=
  match data with
  | VString dataAsString =>
    if String.prefix "!" dataAsString
    then mapResult Some (handleCommand generated now (dropFirstByte dataAsString) player r)
    else mapResult (fun l => Some (withLobby r l))
           (handleMessage GetRandomWords TrimSpace ToLower Replace intOfInf
                          now dataAsString player (lobby r))
  | _ => Done None
  end.

End Commands.

(** Successive calls of [advanceLobby], one for each time in [nows]. *)
Fixpoint advances (GetRandomWords : Lobby -> list string) (nows : list Z) (l : Lobby)
  : result Lobby :=
  match nows with
  | [] => Done l
  | now :: nows' =>
    bind (advanceLobby GetRandomWords now l) (advances GetRandomWords nows')
  end.

(** The round counter is within its bounds, and it is 0 exactly while
    there is no drawer. *)
Definition roundInv (l : Lobby) : Prop :=
  1 <= MaxRounds l < 2 ^ 63 /\
  match Drawer l with
  | None => Round l = 0
  | Some _ => 1 <= Round l <= MaxRounds l
  end.

(** The number of slots of a hint array whose character is hidden. *)
Definition hiddenSlots (hints : option (list WordHint)) : nat :=
  match hints with
  | Some hs => length (List.filter (fun hint => Character hint =? 0) hs)
  | None => O
  end.

(** While the player-facing array is there, the fully revealed array is
    the one built for the current word, and every slot of the
    player-facing array is hidden or shows the character of that slot,
    with the same underlining. *)
Definition hintsAgree (l : Lobby) : Prop :=
  forall hints, WordHints l = Some hints ->
    WordHintsShown l = Some (createWordHintFor (CurrentWord l) true) /\
    Forall2 (fun hint full =>
               (Character hint = 0 \/ Character hint = Character full) /\
               Underline hint = Underline full)
            hints (createWordHintFor (CurrentWord l) true).

(** The characters that open markup or close an attribute value: the
    double quote, the apostrophe, [<] and [>]. *)
Definition rawMarkup (c : ascii) : bool :=
  match nat_of_ascii c with
  | 34%nat | 39%nat | 60%nat | 62%nat => true
  | _ => false
  end.

(** A string without any of them. *)
Definition plain (s : string) : bool :=
  forallb (fun c => negb (rawMarkup c)) (list_ascii_of_string s).

(** An outbound event whose chat payload, if it has one, is [plain] in both
    fields. *)
Definition plainEvent (e : Event) : bool :=
  match e with
  | WriteAsJSON _ _ (DMessage author content) => plain author && plain content
  | _ => true
  end.

(** What a command leaves alone: the word, the hints, the score pool and
    the player list; and among the events sent there is no chat line. *)
Record quiet (l l' : Lobby) : Prop := {
  quiet_CurrentWord : CurrentWord l' = CurrentWord l;
  quiet_WordHints : WordHints l' = WordHints l;
  quiet_pool : scoreEarnedByGuessers l' = scoreEarnedByGuessers l;
  quiet_Players : Players l' = Players l;
  quiet_sent : exists evs, sent l' = (sent l ++ evs)%list /\ existsb isChat evs = false
}.

(** A stand-in for [commands.ParseCommand] on a command without
    arguments. *)
Definition oneWord (s : string) : list string := [s].

(** * Properties *)

(** ** Arithmetic of the score *)

Lemma int64_small z : inInt64 z -> int64 z = z.
Proof.
  unfold inInt64, int64. intros H.
  rewrite Z.mod_small by lia. lia.
Qed.

Lemma bisect_spec ok : forall fuel lo hi,
  lo < hi -> hi - lo <= 2 ^ Z.of_nat fuel -> ok lo = false -> ok hi = true ->
  lo < bisect fuel lo hi ok <= hi /\
  ok (bisect fuel lo hi ok) = true /\
  ok (bisect fuel lo hi ok - 1) = false.
Proof.
  induction fuel as [|fuel IH]; intros lo hi Hlt Hw Hlo Hhi.
  - simpl in *. assert (hi - 1 = lo) as -> by lia. repeat split; try assumption; lia.
  - simpl bisect. destruct (hi - lo <=? 1) eqn:E.
    + apply Z.leb_le in E. assert (hi - 1 = lo) as -> by lia.
      repeat split; try assumption; lia.
    + apply Z.leb_gt in E.
      assert (Hp : 2 ^ Z.of_nat (S fuel) = 2 * 2 ^ Z.of_nat fuel).
      { rewrite Nat2Z.inj_succ, Z.pow_succ_r by lia. reflexivity. }
      rewrite Hp in Hw.
      assert (Hmid : lo < lo + (hi - lo) / 2 < hi /\
                     (hi - lo) / 2 <= 2 ^ Z.of_nat fuel /\
                     hi - (lo + (hi - lo) / 2) <= 2 ^ Z.of_nat fuel).
      { Z.div_mod_to_equations. lia. }
      destruct Hmid as ((H1 & H2) & H3 & H4).
      destruct (ok (lo + (hi - lo) / 2)) eqn:Em.
      * destruct (IH lo (lo + (hi - lo) / 2)) as (Ha & Hb & Hc); try assumption; try lia.
        repeat split; try assumption; lia.
      * destruct (IH (lo + (hi - lo) / 2) hi) as (Ha & Hb & Hc); try assumption; try lia.
        repeat split; try assumption; lia.
Qed.

(** [ceilTwicePow m] is the integer ceiling of the tenth root of
    [2^10 * m^13]. *)
Lemma ceilTwicePow_spec m :
  1 <= m ->
  0 < ceilTwicePow m /\
  (ceilTwicePow m - 1) ^ 10 < 1024 * m ^ 13 <= ceilTwicePow m ^ 10.
Proof.
  intros Hm. unfold ceilTwicePow. cbv zeta.
  set (ok := fun n => 1024 * m ^ 13 <=? n ^ 10).
  assert (Hpos : 0 < 1024 * m ^ 13)
    by (apply Z.mul_pos_pos; [lia | apply Z.pow_pos_nonneg; lia]).
  destruct (bisect_spec ok (S (Z.to_nat (Z.log2_up (2 * m * m)))) 0 (2 * m * m))
    as ((H1 & _) & H2 & H3).
  - nia.
  - rewrite Nat2Z.inj_succ, Z.pow_succ_r by lia.
    rewrite Z2Nat.id by apply Z.log2_up_nonneg.
    pose proof (Z.log2_up_spec (2 * m * m)) as Hs.
    assert (1 < 2 * m * m) by nia. specialize (Hs H). lia.
  - unfold ok. apply Z.leb_gt. simpl. lia.
  - unfold ok. apply Z.leb_le.
    replace ((2 * m * m) ^ 10) with (1024 * m ^ 20) by ring.
    apply Z.mul_le_mono_nonneg_l; [lia|].
    apply Z.pow_le_mono_r; lia.
  - unfold ok in H2, H3. apply Z.leb_le in H2. apply Z.leb_gt in H3.
    repeat split; assumption.
Qed.

Lemma Rpow_lt_mono (a b : R) (k : nat) :
  (0 <= a < b)%R -> (0 < k)%nat -> (a ^ k < b ^ k)%R.
Proof.
  intros [Ha Hab] Hk. induction k as [|k IH]; [lia|].
  destruct k as [|k].
  - simpl. lra.
  - assert (IH' : (a ^ S k < b ^ S k)%R) by (apply IH; lia).
    change (a * a ^ S k < b * b ^ S k)%R.
    assert (0 <= a ^ S k)%R by (apply pow_le; assumption).
    apply Rmult_le_0_lt_compat; assumption.
Qed.

Lemma twicePow_tenth (m : Z) :
  1 <= m -> ((2 * Rpower (IZR m) (13 / 10)) ^ 10 = IZR (1024 * m ^ 13))%R.
Proof.
  intros Hm.
  assert (Hm0 : (0 < IZR m)%R) by (apply IZR_lt; lia).
  rewrite Rpow_mult_distr.
  rewrite <- (Rpower_pow 10 (Rpower (IZR m) (13 / 10))) by apply exp_pos.
  rewrite Rpower_mult.
  replace (13 / 10 * INR 10)%R with (INR 13) by (simpl; lra).
  rewrite Rpower_pow by assumption.
  rewrite mult_IZR, (pow_IZR m 13). simpl Z.of_nat.
  replace (2 ^ 10)%R with 1024%R by (simpl; lra).
  reflexivity.
Qed.

(** Over the reals: [ceilTwicePow m] is the ceiling of [2 * m^1.3]. *)
Lemma ceilTwicePow_real (m : Z) :
  1 <= m ->
  (IZR (ceilTwicePow m - 1) < 2 * Rpower (IZR m) (13 / 10) <= IZR (ceilTwicePow m))%R.
Proof.
  intros Hm.
  destruct (ceilTwicePow_spec m Hm) as (Hn & Hlo & Hhi).
  pose proof (twicePow_tenth m Hm) as Hx.
  set (x := (2 * Rpower (IZR m) (13 / 10))%R) in *.
  set (n := ceilTwicePow m) in *.
  assert (Hx0 : (0 < x)%R).
  { unfold x. apply Rmult_lt_0_compat; [lra | apply exp_pos]. }
  split.
  - destruct (Rlt_le_dec (IZR (n - 1)) x) as [|Hle]; [assumption|exfalso].
    assert (x ^ 10 <= IZR (n - 1) ^ 10)%R by (apply pow_incr; lra).
    rewrite Hx, pow_IZR in H. apply le_IZR in H. simpl Z.of_nat in H. lia.
  - destruct (Rle_lt_dec x (IZR n)) as [|Hlt]; [assumption|exfalso].
    assert (IZR n ^ 10 < x ^ 10)%R.
    { apply Rpow_lt_mono; [|lia]. split; [apply IZR_le; lia | assumption]. }
    rewrite Hx, pow_IZR in H. apply lt_IZR in H. simpl Z.of_nat in H. lia.
Qed.

Example guessPoints_30 : guessPoints 30 = 167.
Proof. vm_compute. reflexivity. Qed.

Example guessPoints_late : guessPoints (-5) = 2.
Proof. vm_compute. reflexivity. Qed.

(** Between 2 and 300 seconds, the longest round the settings allow,
    [2 * m^1.3] is never within a thousandth of an integer: the rounding of
    [math.Pow] in [float64] cannot move the ceiling computed here. At one
    second [math.Pow(1, 1.3)] is exactly 1. *)
Lemma guessPoints_margin : forallb farFromInteger (map Z.of_nat (seq 2 299)) = true.
Proof. vm_compute. reflexivity. Qed.

Example runes_ascii : runes "boat" = [98; 111; 97; 116].
Proof. reflexivity. Qed.

Example runes_invalid_byte :
  runes (String (ascii_of_nat 255) "a") = [RuneError; 97].
Proof. reflexivity. Qed.

Example ComputeDistance_kitten : ComputeDistance "kitten" "sitting" = 3.
Proof. reflexivity. Qed.

Example EscapeString_tag : EscapeString "<b>Tom & Jerry</b>" = "&lt;b&gt;Tom &amp; Jerry&lt;/b&gt;".
Proof. reflexivity. Qed.

Example votesNeededFor_four_five : votesNeededFor 4 = 2 /\ votesNeededFor 5 = 3.
Proof. split; reflexivity. Qed.

(** ** Memory and loops over the players *)

Lemma update_same m p f : update m p f p = f (m p).
Proof. unfold update. destruct (decide (p = p)); congruence. Qed.

Lemma update_other m p q f : q <> p -> update m p f q = m q.
Proof. unfold update. intros H. destruct (decide (q = p)); congruence. Qed.

(** A loop whose body keeps a field of every record keeps it everywhere. *)
Lemma fold_update_keeps {A : Type} (field : Player -> A)
      (body : (ptr -> Player) -> ptr -> Player -> Player) :
  (forall m a x, field (body m a x) = field x) ->
  forall ps m q,
    field (foldl (fun m a => update m a (body m a)) m ps q) = field (m q).
Proof.
  intros Hbody ps. induction ps as [|a ps IH]; intros m q; simpl; [reflexivity|].
  rewrite IH. unfold update. destruct (decide (q = a)); [apply Hbody | reflexivity].
Qed.

Lemma fold_update_inv (P : Player -> Prop)
      (body : (ptr -> Player) -> ptr -> Player -> Player) :
  (forall m a x, P x -> P (body m a x)) ->
  forall ps m q, P (m q) -> P (foldl (fun m a => update m a (body m a)) m ps q).
Proof.
  intros Hbody ps. induction ps as [|a ps IH]; intros m q Hq; simpl; [assumption|].
  apply IH. unfold update. destruct (decide (q = a)); [now apply Hbody | assumption].
Qed.

(** A loop with an idempotent body has applied it to exactly the listed
    players. *)
Lemma fold_update_idem (f : Player -> Player) :
  (forall x, f (f x) = f x) ->
  forall ps m q,
    foldl (fun m a => update m a f) m ps q = if decide (q ∈ ps) then f (m q) else m q.
Proof.
  intros Hf ps. induction ps as [|a ps IH]; intros m q; simpl.
  - destruct (decide (q ∈ [])) as [H|H]; [inversion H | reflexivity].
  - rewrite IH. unfold update.
    destruct (decide (q ∈ ps)) as [Hin|Hin];
      destruct (decide (q = a)) as [->|Hne];
      destruct (decide (_ ∈ a :: ps)) as [Hin'|Hin']; try reflexivity.
    + apply Hf.
    + exfalso. apply Hin'. now right.
    + exfalso. apply Hin'. now right.
    + exfalso. apply Hin'. left.
    + inversion Hin'; subst; contradiction.
Qed.

Lemma forPlayers_in f l q :
  (forall x, f (f x) = f x) -> q ∈ Players l -> mem (forPlayers f l) q = f (mem l q).
Proof.
  intros Hf Hq. unfold forPlayers; simpl.
  rewrite (fold_update_idem f Hf). destruct (decide (q ∈ Players l)); [reflexivity|contradiction].
Qed.

Lemma forPlayers_keeps {A : Type} (field : Player -> A) f l q :
  (forall x, field (f x) = field x) -> field (mem (forPlayers f l) q) = field (mem l q).
Proof.
  intros Hf. unfold forPlayers; simpl.
  apply (fold_update_keeps field (fun _ _ => f)). intros _ _ x. apply Hf.
Qed.

Lemma recalculateRanks_keeps {A : Type} (field : Player -> A) l q :
  (forall r x, field (set_Rank r x) = field x) ->
  field (mem (recalculateRanks l) q) = field (mem l q).
Proof.
  intros Hf. unfold recalculateRanks; simpl.
  apply (fold_update_keeps field
           (fun m a => set_Rank (int64 (playersThatAreHigher m (Players l) a + 1)))).
  intros m a x. apply Hf.
Qed.

Lemma int64_idem z : int64 (int64 z) = int64 z.
Proof.
  unfold int64.
  replace ((z + 2 ^ 63) mod 2 ^ 64 - 2 ^ 63 + 2 ^ 63) with ((z + 2 ^ 63) mod 2 ^ 64) by lia.
  rewrite Z.mod_mod by lia. reflexivity.
Qed.

Lemma redactLastScore_idem p : redactLastScore (redactLastScore p) = redactLastScore p.
Proof.
  unfold redactLastScore; simpl. rewrite Z.sub_0_r, int64_idem. reflexivity.
Qed.

(** ** What a change of turn leaves alone *)

Lemma keeps_refl l : keeps l l.
Proof.
  constructor; try reflexivity; [auto|].
  exists []. split; [symmetry; apply app_nil_r | reflexivity].
Qed.

Lemma keeps_trans l1 l2 l3 : keeps l1 l2 -> keeps l2 l3 -> keeps l1 l3.
Proof.
  intros [] []. constructor; try congruence; try (intros q; congruence); [auto|].
  destruct keeps_sent0 as (e1 & H1 & C1), keeps_sent1 as (e2 & H2 & C2).
  exists (e1 ++ e2)%list. split.
  - rewrite H2, H1, app_assoc. reflexivity.
  - rewrite existsb_app, C1, C2. reflexivity.
Qed.

Lemma keeps_emit l m e : isChat e = false -> keeps l m -> keeps l (emit e m).
Proof.
  intros He H. apply (keeps_trans _ _ _ H).
  constructor; try reflexivity; [auto|]. exists [e]. split; [reflexivity|]. simpl. now rewrite He.
Qed.

Lemma keeps_modify l m p f :
  (forall x, Score (f x) = Score x) -> (forall x, LastScore (f x) = LastScore x) ->
  staysEmpty f ->
  keeps l m -> keeps l (modify p f m).
Proof.
  intros H1 H2 H3 H. apply (keeps_trans _ _ _ H).
  constructor; try reflexivity; try (exists []; split; [symmetry; apply app_nil_r | reflexivity]);
    intros q; simpl; unfold update; destruct (decide (q = p)); auto.
Qed.

Lemma keeps_forPlayers l m f :
  (forall x, Score (f x) = Score x) -> (forall x, LastScore (f x) = LastScore x) ->
  staysEmpty f ->
  keeps l m -> keeps l (forPlayers f m).
Proof.
  intros H1 H2 H3 H. apply (keeps_trans _ _ _ H).
  constructor; try reflexivity; try (exists []; split; [symmetry; apply app_nil_r | reflexivity]);
    intros q.
  - apply (forPlayers_keeps Score); assumption.
  - apply (forPlayers_keeps LastScore); assumption.
  - unfold forPlayers; simpl.
    apply (fold_update_inv (fun x => votedForKick x = ∅) (fun _ _ => f)). intros _ _ x. apply H3.
Qed.

Lemma keeps_recalculateRanks l m : keeps l m -> keeps l (recalculateRanks m).
Proof.
  intros H. apply (keeps_trans _ _ _ H).
  constructor; try reflexivity; try (exists []; split; [symmetry; apply app_nil_r | reflexivity]);
    intros q.
  - apply (recalculateRanks_keeps Score). reflexivity.
  - apply (recalculateRanks_keeps LastScore). reflexivity.
  - rewrite (recalculateRanks_keeps votedForKick); [auto | reflexivity].
Qed.

Ltac keeps_field :=
  let H := fresh in
  intros H; apply (keeps_trans _ _ _ H);
  constructor; try reflexivity; [auto|];
  exists []; split; [symmetry; apply app_nil_r | reflexivity].

Lemma keeps_set_Drawer l m v : keeps l m -> keeps l (set_Drawer v m).
Proof. keeps_field. Qed.

Lemma keeps_set_Owner l m v : keeps l m -> keeps l (set_Owner v m).
Proof. keeps_field. Qed.

Lemma keeps_set_Round l m v : keeps l m -> keeps l (set_Round v m).
Proof. keeps_field. Qed.

Lemma keeps_set_WordChoice l m v : keeps l m -> keeps l (set_WordChoice v m).
Proof. keeps_field. Qed.

Lemma keeps_set_RoundEndTime l m v : keeps l m -> keeps l (set_RoundEndTime v m).
Proof. keeps_field. Qed.

Lemma keeps_set_timeLeftTicker l m v : keeps l m -> keeps l (set_timeLeftTicker v m).
Proof. keeps_field. Qed.

Lemma keeps_set_CurrentDrawing l m v : keeps l m -> keeps l (set_CurrentDrawing v m).
Proof. keeps_field. Qed.

Ltac stays_empty :=
  let x := fresh in let H := fresh in
  intros x H; first [exact H | reflexivity].

(** Peels the operations of a composed update off, outermost first. *)
Ltac keeps_steps :=
  repeat first
    [ apply keeps_emit; [reflexivity|]
    | apply keeps_recalculateRanks
    | apply keeps_modify; [reflexivity | reflexivity | stays_empty |]
    | apply keeps_forPlayers; [reflexivity | reflexivity | stays_empty |]
    | apply keeps_set_Drawer | apply keeps_set_Owner | apply keeps_set_Round
    | apply keeps_set_WordChoice | apply keeps_set_RoundEndTime
    | apply keeps_set_timeLeftTicker | apply keeps_set_CurrentDrawing ];
  try apply keeps_refl.

Section Turn.

Variable GetRandomWords : Lobby -> list string.

Lemma keeps_resetForTurn l m : keeps l m -> keeps l (resetForTurn m).
Proof.
  intros H. unfold resetForTurn, ClearDrawing. destruct (timeLeftTicker m); keeps_steps; assumption.
Qed.

Lemma keeps_startTurn now d l m : keeps l m -> keeps l (startTurn GetRandomWords now d m).
Proof.
  intros H. unfold startTurn, triggerPlayersUpdate. keeps_steps. assumption.
Qed.

Lemma indexWhere_Some test ps i :
  indexWhere test ps = Some i -> exists p, ps !! i = Some p /\ test p = true.
Proof.
  revert i. induction ps as [|p ps IH]; intros i; simpl; [discriminate|].
  destruct (test p) eqn:E.
  - intros [= <-]. exists p. split; [reflexivity | assumption].
  - destruct (indexWhere test ps) as [j|]; simpl; [|discriminate].
    intros [= <-]. destruct (IH j eq_refl) as (q & Hq & Ht). exists q. split; assumption.
Qed.

Lemma indexWhere_None test ps p : indexWhere test ps = None -> p ∈ ps -> test p = false.
Proof.
  induction ps as [|a ps IH]; simpl; intros Hn Hin; [inversion Hin|].
  destruct (test a) eqn:E; [discriminate|].
  destruct (indexWhere test ps); [discriminate|].
  inversion Hin; subst; [assumption | now apply IH].
Qed.

(** The successor lookup of [selectNextDrawer] cannot leave the list once
    [advanceLobby] has seen that the drawer is not the last player. *)
Lemma selectNextDrawer_done l d lastPlayer :
  Drawer l = Some d -> last (Players l) = Some lastPlayer -> d <> lastPlayer ->
  exists l' d', selectNextDrawer l = Done l' /\ Drawer l' = Some d' /\ keeps l l'.
Proof.
  intros Hd Hlast Hne. unfold selectNextDrawer.
  destruct (indexWhere _ (Players l)) as [i|] eqn:Hi.
  - destruct (indexWhere_Some _ _ _ Hi) as (p & Hp & Ht).
    apply bool_decide_eq_true in Ht. rewrite Hd in Ht. injection Ht as ->.
    destruct (Players l !! S i) as [next|] eqn:Hnext.
    + exists (set_Drawer (Some next) l), next.
      split; [reflexivity | split; [reflexivity|]].
      apply keeps_set_Drawer, keeps_refl.
    + exfalso. apply lookup_ge_None in Hnext.
      pose proof (lookup_lt_Some _ _ _ Hp) as Hlt.
      rewrite last_lookup in Hlast.
      replace (pred (length (Players l))) with i in Hlast by lia.
      congruence.
  - assert (Hs : exists d', scanConnected (mem l) (Players l) (Drawer l) = Some d').
    { rewrite Hd. clear. generalize d. induction (Players l) as [|a ps IH]; intros d0; simpl.
      - eauto.
      - destruct (decide (Some a = Some d0)); [eauto|].
        destruct (negb (Connected (mem l a))); apply IH. }
    destruct Hs as (d' & Hs). rewrite Hs.
    exists (set_Drawer (Some d') l), d'.
    split; [reflexivity | split; [reflexivity|]].
    apply keeps_set_Drawer, keeps_refl.
Qed.

Lemma resetForTurn_ballots l q :
  q ∈ Players l -> votedForKick (mem (resetForTurn l) q) = ∅.
Proof.
  intros Hq. unfold resetForTurn. simpl.
  assert (E : forall m, Players m = Players l ->
                   votedForKick (mem (forPlayers (fun p => set_votedForKick ∅ (set_State Guessing p)) m) q) = ∅).
  { intros m Hm. rewrite forPlayers_in; [reflexivity | reflexivity | now rewrite Hm]. }
  destruct (timeLeftTicker l); apply E; reflexivity.
Qed.

(** [advanceLobby] returns whenever the lobby has a player; after its reset
    of the players it changes neither the player list, the word, the hints,
    the pool, a score nor a ballot set. *)
Lemma advanceLobby_after_reset now l :
  Players l <> [] ->
  exists l', advanceLobby GetRandomWords now l = Done l' /\ keeps (resetForTurn l) l'.
Proof.
  intros Hne. unfold advanceLobby.
  pose proof (keeps_resetForTurn l l (keeps_refl l)) as K.
  remember (resetForTurn l) as r eqn:Er. clear Er.
  assert (HP : Players r = Players l) by apply K.
  destruct (Players l) as [|p0 ps] eqn:EP; [congruence|].
  destruct (Drawer r) as [d|] eqn:Hd.
  - destruct (last (Players r)) as [lp|] eqn:Hl.
    2:{ rewrite HP in Hl. apply last_None in Hl. discriminate. }
    destruct (decide (d = lp)) as [->|Hne'].
    + destruct (Round r =? MaxRounds r).
      * eexists. split; [reflexivity|]. unfold triggerPlayersUpdate. keeps_steps.
      * rewrite HP. simpl. eexists. split; [reflexivity|].
        apply keeps_startTurn. keeps_steps.
    + destruct (selectNextDrawer_done r d lp Hd Hl Hne') as (l' & d' & -> & Hd' & K').
      simpl. rewrite Hd'. eexists. split; [reflexivity|].
      apply keeps_startTurn. exact K'.
  - rewrite HP. simpl. eexists. split; [reflexivity|].
    apply keeps_startTurn. keeps_steps.
Qed.

Lemma advanceLobby_done now l :
  Players l <> [] -> exists l', advanceLobby GetRandomWords now l = Done l' /\ keeps l l'.
Proof.
  intros Hne. destruct (advanceLobby_after_reset now l Hne) as (l' & E & K).
  exists l'. split; [assumption|].
  exact (keeps_trans _ _ _ (keeps_resetForTurn l l (keeps_refl l)) K).
Qed.

(** After [advanceLobby] no player of the lobby holds a ballot. *)
Lemma advanceLobby_ballots now l l' :
  advanceLobby GetRandomWords now l = Done l' ->
  forall q, q ∈ Players l' -> votedForKick (mem l' q) = ∅.
Proof.
  intros E q Hq.
  destruct (Players l) as [|p0 ps] eqn:EP.
  - exfalso. unfold advanceLobby in E.
    assert (HP : Players (resetForTurn l) = []).
    { rewrite <- EP. apply (keeps_resetForTurn l l (keeps_refl l)). }
    destruct (Drawer (resetForTurn l)); rewrite HP in E; simpl in E; discriminate.
  - destruct (advanceLobby_after_reset now l) as (l2 & E2 & K); [congruence|].
    rewrite E in E2. injection E2 as <-.
    apply (keeps_ballots _ _ K). apply resetForTurn_ballots.
    rewrite <- (keeps_Players _ _ (keeps_resetForTurn l l (keeps_refl l))).
    rewrite <- (keeps_Players _ _ K). exact Hq.
Qed.

End Turn.

(** ** Scoring of a correct guess *)

Section Guess.

Variable GetRandomWords : Lobby -> list string.
Variable TrimSpace ToLower Replace : string -> string.
Variable intOfInf : Z.

Lemma eqb_neq_false (a b : string) : a <> b -> String.eqb a b = false.
Proof. intros H. apply String.eqb_neq. exact H. Qed.

(** A correct guess of a guessing player runs the scoring of lines 170-174
    and then the follow-up of lines 175-187. *)
Lemma handleMessage_correct now input sender l :
  TrimSpace input <> "" -> CurrentWord l <> "" -> State (mem l sender) = Guessing ->
  ToLower (CurrentWord l) = ToLower (TrimSpace input) ->
  handleMessage GetRandomWords TrimSpace ToLower Replace intOfInf now input sender l =
  afterCorrectGuess GetRandomWords intOfInf now sender (awardGuess now sender l).
Proof.
  intros Ht Hw Hs He. unfold handleMessage.
  rewrite (eqb_neq_false _ _ Ht), (eqb_neq_false _ _ Hw), Hs, He, String.eqb_refl.
  reflexivity.
Qed.

(** C1 (amended). A correct guess by a player in state Guessing with at
    most 300 seconds left, the range in which [guessPoints] is the value
    that line 171 computes, is worth
    [points = ceil(max(secondsLeft, 1)^1.3 * 2)], where [secondsLeft] is
    [roundEndTime / 1000] minus the current time in seconds; [points]
    becomes the guesser's [LastScore] and is added to the [Score] and to the
    pool of the round. With 30 seconds left this is 167 points. *)
Theorem C1_correct_guess_points now input sender l :
  TrimSpace input <> "" -> CurrentWord l <> "" -> State (mem l sender) = Guessing ->
  ToLower (CurrentWord l) = ToLower (TrimSpace input) ->
  int64 (RoundEndTime l ÷ 1000 - now ÷ 1000000000) <= 300 ->
  let secondsLeft := int64 (RoundEndTime l ÷ 1000 - now ÷ 1000000000) in
  let points := guessPoints secondsLeft in
  let l1 := awardGuess now sender l in
  handleMessage GetRandomWords TrimSpace ToLower Replace intOfInf now input sender l =
    afterCorrectGuess GetRandomWords intOfInf now sender l1 /\
  (IZR (points - 1) < 2 * Rpower (IZR (Z.max secondsLeft 1)) (13 / 10) <= IZR points)%R /\
  LastScore (mem l1 sender) = points /\
  Score (mem l1 sender) = int64 (Score (mem l sender) + points) /\
  scoreEarnedByGuessers l1 = int64 (scoreEarnedByGuessers l + points) /\
  State (mem l1 sender) = Standby /\
  (forall n, RoundEndTime l = n * 1000 + 30000 -> now ÷ 1000000000 = n -> points = 167).
Proof.
  intros Ht Hw Hs He _ secondsLeft points l1.
  split; [now apply handleMessage_correct|].
  split; [apply ceilTwicePow_real; lia|].
  unfold l1, awardGuess. cbn. rewrite !update_same. cbn.
  repeat split.
  intros n Hn Hnow. unfold points, secondsLeft.
  rewrite Hn, Hnow.
  replace (n * 1000 + 30000) with ((n + 30) * 1000) by ring.
  rewrite Z.quot_mul by lia.
  replace (n + 30 - n) with 30 by ring.
  vm_compute. reflexivity.
Qed.

End Guess.

(** C1, witness: "Apple" guessed for the word "apple" with 30 seconds left. *)
Lemma C1_correct_guess_points_witness :
  let l := sampleLobby [0; 1; 2; 3]%nat (Some 0%nat) "apple" fourPlayers in
  LastScore (mem (awardGuess 1000000000000 1%nat l) 1%nat) = guessPoints 30 /\
  guessPoints 30 = 167.
Proof.
  intros l.
  pose proof (C1_correct_guess_points threeWords trimASCII lowerASCII noEmoji 0
                1000000000000 " Apple" 1%nat l) as H.
  destruct H as (_ & _ & H3 & _ & _ & _ & H7).
  - vm_compute. discriminate.
  - vm_compute. discriminate.
  - reflexivity.
  - reflexivity.
  - vm_compute. discriminate.
  - split.
    + exact H3.
    + apply (H7 1000); reflexivity.
Defined.

(** C1, counterexample: with [roundEndTime = now*1000 + 30000] the guess is
    worth 167 points, not 150. *)
Lemma C1_thirty_seconds_not_150 :
  let l := sampleLobby [0; 1; 2; 3]%nat (Some 0%nat) "apple" fourPlayers in
  let now := 1000000000000 in
  RoundEndTime l = (now ÷ 1000000000) * 1000 + 30000 /\
  State (mem l 1%nat) = Guessing /\
  obtains (handleMessage threeWords trimASCII lowerASCII noEmoji 0 now "Apple" 1%nat l)
          (fun l' => LastScore (mem l' 1%nat) = 167 /\ LastScore (mem l' 1%nat) <> 150).
Proof.
  split; [reflexivity|]. split; [reflexivity|].
  vm_compute. split; [reflexivity | discriminate].
Qed.

(** ** Drawer rotation *)

Section Rotation.

Variable GetRandomWords : Lobby -> list string.

Lemma resetForTurn_fields l :
  Drawer (resetForTurn l) = Drawer l /\ Round (resetForTurn l) = Round l /\
  timeLeftTicker (resetForTurn l) = None /\ sent (resetForTurn l) = sent l.
Proof. unfold resetForTurn. destruct (timeLeftTicker l) eqn:E; simpl; auto. Qed.

Lemma startTurn_Drawer now d l : Drawer (startTurn GetRandomWords now d l) = Drawer l.
Proof. reflexivity. Qed.

Lemma startTurn_Round now d l : Round (startTurn GetRandomWords now d l) = Round l.
Proof. reflexivity. Qed.

Lemma startTurn_ticker now d l :
  timeLeftTicker (startTurn GetRandomWords now d l) =
  Some {| showNextHintInSeconds := DrawingTime l ÷ 3; hintsLeft := 2 |}.
Proof. reflexivity. Qed.

(** With no drawer, the first player draws and the round number goes up. *)
Lemma advanceLobby_start now l p0 ps :
  Drawer l = None -> Players l = p0 :: ps ->
  exists l', advanceLobby GetRandomWords now l = Done l' /\ keeps l l' /\
             Drawer l' = Some p0 /\ Round l' = int64 (Round l + 1).
Proof.
  intros Hd HP.
  destruct (advanceLobby_done GetRandomWords now l) as (l' & E & K); [congruence|].
  exists l'. split; [assumption|]. split; [assumption|].
  unfold advanceLobby in E.
  destruct (resetForTurn_fields l) as (RD & RR & _).
  assert (RP : Players (resetForTurn l) = p0 :: ps).
  { rewrite <- HP. apply (keeps_resetForTurn l l (keeps_refl l)). }
  remember (resetForTurn l) as r eqn:Er. clear Er.
  rewrite RD, Hd, RP in E. simpl in E. injection E as <-.
  rewrite startTurn_Drawer, startTurn_Round. simpl. rewrite RR. auto.
Qed.

Lemma indexWhere_app_hit test pre d post :
  (forall p, p ∈ pre -> test p = false) -> test d = true ->
  indexWhere test (pre ++ d :: post) = Some (length pre).
Proof.
  intros Hpre Hd. induction pre as [|a pre IH]; simpl.
  - now rewrite Hd.
  - rewrite (Hpre a) by now left. rewrite IH; [reflexivity|].
    intros p Hp. apply Hpre. now right.
Qed.

(** A drawer who is not the last player is followed by the next player of
    the list; the round number stays. *)
Lemma advanceLobby_successor now l pre d next post :
  Drawer l = Some d -> Players l = (pre ++ d :: next :: post)%list -> d ∉ pre ->
  last (next :: post) <> Some d ->
  exists l', advanceLobby GetRandomWords now l = Done l' /\ keeps l l' /\
             Drawer l' = Some next /\ Round l' = Round l.
Proof.
  intros Hd HP Hpre Hlast.
  destruct (advanceLobby_done GetRandomWords now l) as (l' & E & K).
  { rewrite HP. destruct pre; discriminate. }
  exists l'. split; [assumption|]. split; [assumption|].
  unfold advanceLobby in E.
  destruct (resetForTurn_fields l) as (RD & RR & _).
  assert (RP : Players (resetForTurn l) = (pre ++ d :: next :: post)%list).
  { rewrite <- HP. apply (keeps_resetForTurn l l (keeps_refl l)). }
  remember (resetForTurn l) as r eqn:Er. clear Er.
  rewrite RD, Hd, RP in E.
  assert (HL : last (pre ++ d :: next :: post) = last (next :: post)).
  { rewrite last_app, last_cons_cons.
    destruct (last (next :: post)) eqn:El; [reflexivity|].
    apply last_None in El. discriminate. }
  rewrite HL in E.
  destruct (last (next :: post)) as [lp|] eqn:El;
    [|apply last_None in El; discriminate El].
  destruct (decide (d = lp)) as [->|Hne]; [congruence|].
  unfold selectNextDrawer in E. rewrite RD, Hd, RP in E.
  rewrite (indexWhere_app_hit _ pre d (next :: post)) in E.
  - replace ((pre ++ d :: next :: post)%list !! S (length pre)) with (Some next) in E.
    + simpl in E. injection E as <-.
      rewrite startTurn_Drawer, startTurn_Round. simpl. auto.
    + symmetry. rewrite lookup_app_r by lia.
      replace (S (length pre) - length pre)%nat with 1%nat by lia. reflexivity.
  - intros p Hp. apply bool_decide_eq_false. intros [= ->]. contradiction.
  - apply bool_decide_eq_true. reflexivity.
Qed.

(** After the last player's turn in the last round the game is over: there
    is no drawer, the round number is 0, no ticker runs and only the player
    update and the game-over notice are sent. *)
Lemma advanceLobby_game_over now l d :
  Drawer l = Some d -> last (Players l) = Some d -> Round l = MaxRounds l ->
  exists l', advanceLobby GetRandomWords now l = Done l' /\ keeps l l' /\
             Drawer l' = None /\ Round l' = 0 /\ timeLeftTicker l' = None /\
             WordChoice l' = WordChoice l /\ RoundEndTime l' = RoundEndTime l /\
             sent l' = (sent l ++
                        [TriggerComplexUpdateEvent "update-players" (DPlayers (Players l));
                         WritePublicSystemMessage
                           (DString "Game over. Type !start again to start a new round.")])%list.
Proof.
  intros Hd Hlast Hr.
  destruct (advanceLobby_done GetRandomWords now l) as (l' & E & K).
  { intros HP. rewrite HP in Hlast. discriminate. }
  exists l'. split; [assumption|]. split; [assumption|].
  unfold advanceLobby in E.
  destruct (resetForTurn_fields l) as (RD & RR & RT & RS).
  pose proof (keeps_resetForTurn l l (keeps_refl l)) as KR.
  assert (RW : WordChoice (resetForTurn l) = WordChoice l /\
               RoundEndTime (resetForTurn l) = RoundEndTime l).
  { unfold resetForTurn. destruct (timeLeftTicker l); simpl; auto. }
  destruct RW as (RW & RE).
  remember (resetForTurn l) as r eqn:Er. clear Er.
  rewrite RD, Hd, (keeps_Players _ _ KR), Hlast in E.
  destruct (decide (d = d)); [|congruence].
  rewrite RR, (keeps_MaxRounds _ _ KR), Hr, Z.eqb_refl in E.
  injection E as <-. simpl.
  rewrite RT, RW, RE, RS, (keeps_Players _ _ KR), <- app_assoc. simpl. auto 10.
Qed.

(** After the last player's turn in an earlier round the first player draws
    in the next round. *)
Lemma advanceLobby_next_round now l d p0 ps :
  Drawer l = Some d -> Players l = p0 :: ps -> last (Players l) = Some d ->
  Round l <> MaxRounds l ->
  exists l', advanceLobby GetRandomWords now l = Done l' /\ keeps l l' /\
             Drawer l' = Some p0 /\ Round l' = int64 (Round l + 1).
Proof.
  intros Hd HP Hlast Hr.
  destruct (advanceLobby_done GetRandomWords now l) as (l' & E & K); [congruence|].
  exists l'. split; [assumption|]. split; [assumption|].
  unfold advanceLobby in E.
  destruct (resetForTurn_fields l) as (RD & RR & _).
  pose proof (keeps_resetForTurn l l (keeps_refl l)) as KR.
  remember (resetForTurn l) as r eqn:Er. clear Er.
  rewrite RD, Hd, (keeps_Players _ _ KR), Hlast in E.
  destruct (decide (d = d)); [|congruence].
  rewrite RR, (keeps_MaxRounds _ _ KR) in E.
  apply Z.eqb_neq in Hr. rewrite Hr, HP in E. simpl in E. injection E as <-.
  rewrite startTurn_Drawer, startTurn_Round. simpl. auto.
Qed.

(** C3. From NoGame with the players [A, B, C] and [MaxRounds = 1], four
    calls of [advanceLobby] make A, then B, then C the drawer, and the
    fourth ends the game: no drawer, round 0, no ticker, no new turn. *)
Theorem C3_rotation_of_three (A B C : ptr) l n1 n2 n3 n4 :
  Players l = [A; B; C] -> NoDup [A; B; C] ->
  Drawer l = None -> Round l = 0 -> MaxRounds l = 1 ->
  exists l1 l2 l3 l4,
    advanceLobby GetRandomWords n1 l = Done l1 /\
    advanceLobby GetRandomWords n2 l1 = Done l2 /\
    advanceLobby GetRandomWords n3 l2 = Done l3 /\
    advanceLobby GetRandomWords n4 l3 = Done l4 /\
    (Drawer l1 = Some A /\ Round l1 = 1) /\
    (Drawer l2 = Some B /\ Round l2 = 1) /\
    (Drawer l3 = Some C /\ Round l3 = 1) /\
    Drawer l4 = None /\ Round l4 = 0 /\ timeLeftTicker l4 = None /\
    WordChoice l4 = WordChoice l3 /\ RoundEndTime l4 = RoundEndTime l3 /\
    sent l4 = (sent l3 ++
               [TriggerComplexUpdateEvent "update-players" (DPlayers [A; B; C]);
                WritePublicSystemMessage
                  (DString "Game over. Type !start again to start a new round.")])%list.
Proof.
  intros HP Hnd Hd Hr Hm.
  assert (HAB : A <> B /\ A <> C /\ B <> C).
  { inversion Hnd as [|? ? HA Hnd']; subst. inversion Hnd' as [|? ? HB _]; subst.
    repeat split; intros ->.
    - apply HA. left.
    - apply HA. right. left.
    - apply HB. left. }
  destruct HAB as (HAB & HAC & HBC).
  destruct (advanceLobby_start n1 l A [B; C] Hd HP) as (l1 & E1 & K1 & D1 & R1).
  assert (P1 : Players l1 = [A; B; C]) by (rewrite (keeps_Players _ _ K1); exact HP).
  assert (M1 : MaxRounds l1 = 1) by (rewrite (keeps_MaxRounds _ _ K1); exact Hm).
  rewrite Hr in R1. change (int64 (0 + 1)) with 1 in R1.
  destruct (advanceLobby_successor n2 l1 [] A B [C] D1 P1) as (l2 & E2 & K2 & D2 & R2).
  { intros H; inversion H. }
  { simpl. congruence. }
  assert (P2 : Players l2 = [A; B; C]) by (rewrite (keeps_Players _ _ K2); exact P1).
  assert (M2 : MaxRounds l2 = 1) by (rewrite (keeps_MaxRounds _ _ K2); exact M1).
  destruct (advanceLobby_successor n3 l2 [A] B C [] D2 P2) as (l3 & E3 & K3 & D3 & R3).
  { intros H. inversion H; subst; [congruence|]. inversion H2. }
  { simpl. congruence. }
  assert (P3 : Players l3 = [A; B; C]) by (rewrite (keeps_Players _ _ K3); exact P2).
  assert (M3 : MaxRounds l3 = 1) by (rewrite (keeps_MaxRounds _ _ K3); exact M2).
  destruct (advanceLobby_game_over n4 l3 C D3) as (l4 & E4 & K4 & D4 & R4 & T4 & W4 & Q4 & S4).
  { rewrite P3. reflexivity. }
  { congruence. }
  exists l1, l2, l3, l4. rewrite P3 in S4.
  repeat split; try assumption; congruence.
Qed.

End Rotation.

(** C3, witness: players 1, 2 and 3 of the sample memory. *)
Lemma C3_rotation_of_three_witness :
  let l := {| Players := [1; 2; 3]%nat; Drawer := None; Owner := Some 1%nat; Round := 0;
              MaxRounds := 1; DrawingTime := 60; EnableVotekick := true; CurrentWord := "";
              WordChoice := []; WordHints := None; WordHintsShown := None;
              scoreEarnedByGuessers := 0; alreadyUsedWords := []; RoundEndTime := 0;
              timeLeftTicker := None; CurrentDrawing := []; mem := fourPlayers; sent := [] |} in
  exists l1 l2 l3 l4,
    advanceLobby threeWords 1000 l = Done l1 /\
    advanceLobby threeWords 2000 l1 = Done l2 /\
    advanceLobby threeWords 3000 l2 = Done l3 /\
    advanceLobby threeWords 4000 l3 = Done l4 /\
    Drawer l1 = Some 1%nat /\ Drawer l2 = Some 2%nat /\ Drawer l3 = Some 3%nat /\
    Drawer l4 = None /\ Round l4 = 0.
Proof.
  intros l.
  destruct (C3_rotation_of_three threeWords 1%nat 2%nat 3%nat l 1000 2000 3000 4000)
    as (l1 & l2 & l3 & l4 & E1 & E2 & E3 & E4 & (D1 & _) & (D2 & _) & (D3 & _) & D4 & R4 & _).
  - reflexivity.
  - repeat constructor; intros H; inversion H; subst;
      try discriminate; try match goal with X : _ ∈ _ |- _ => inversion X; subst; try discriminate end;
      try match goal with X : _ ∈ [] |- _ => inversion X end.
  - reflexivity.
  - reflexivity.
  - reflexivity.
  - exists l1, l2, l3, l4. auto 10.
Defined.

(** ** The fallback of [selectNextDrawer] *)

(** The second loop has no [break] after its assignment: every connected
    player replaces the one chosen before, and the last one stays. *)
Lemma scanConnected_last m ps : forall d,
  NoDup ps -> d ∉ ps ->
  scanConnected m ps (Some d) =
  match last (List.filter (fun p => Connected (m p)) ps) with
  | Some p => Some p
  | None => Some d
  end.
Proof.
  induction ps as [|a ps IH]; intros d Hnd Hd; simpl; [reflexivity|].
  inversion Hnd as [|? ? Ha Hnd']; subst.
  destruct (decide (Some a = Some d)) as [[= ->]|_].
  { exfalso. apply Hd. left. }
  destruct (Connected (m a)); simpl.
  - rewrite (IH a Hnd' Ha), last_cons.
    destruct (last (List.filter _ ps)); reflexivity.
  - apply IH; [assumption|]. intros H. apply Hd. now right.
Qed.

(** C2, on the code: with the players 1, 2, 3 all connected and a drawer
    (0) who is no longer in the list, the fallback makes 3 the drawer, the
    last connected player, where the first connected player is 1. *)
Theorem C2_fallback_takes_last_connected :
  let l := sampleLobby [1; 2; 3]%nat (Some 0%nat) "" fourPlayers in
  (0%nat ∉ Players l) /\
  List.find (fun p => Connected (mem l p)) (Players l) = Some 1%nat /\
  obtains (selectNextDrawer l) (fun l' => Drawer l' = Some 3%nat) /\
  obtains (advanceLobby threeWords 1000 l)
          (fun l' => Drawer l' = Some 3%nat /\ Drawer l' <> Some 1%nat).
Proof.
  intros l. split; [|split; [|split]].
  - intros H. apply list_elem_of_In in H. simpl in H. intuition discriminate.
  - reflexivity.
  - vm_compute. reflexivity.
  - vm_compute. split; [reflexivity | discriminate].
Qed.

(** ** Round-over handling and vote kicks *)

Section Kick.

Variable GetRandomWords : Lobby -> list string.
Variable intOfInf : Z.

Lemma creditDrawer_no_pool l : scoreEarnedByGuessers l <= 0 -> creditDrawer intOfInf l = l.
Proof.
  intros H. unfold creditDrawer. destruct (Drawer l); [|reflexivity].
  destruct (0 <? scoreEarnedByGuessers l) eqn:E; [|reflexivity].
  apply Z.ltb_lt in E. lia.
Qed.

Lemma creditDrawer_fields l :
  Players (creditDrawer intOfInf l) = Players l /\
  CurrentWord (creditDrawer intOfInf l) = CurrentWord l /\
  WordHintsShown (creditDrawer intOfInf l) = WordHintsShown l /\
  Drawer (creditDrawer intOfInf l) = Drawer l /\
  sent (creditDrawer intOfInf l) = sent l /\
  forall q, votedForKick (mem (creditDrawer intOfInf l) q) = votedForKick (mem l q).
Proof.
  unfold creditDrawer. destruct (Drawer l) as [d|] eqn:Hd; [|auto 10].
  destruct (0 <? scoreEarnedByGuessers l); [|auto 10].
  destruct (drawerBonus _ _ _); [|auto 10].
  simpl. repeat split; try assumption.
  intros q. unfold update. destruct (decide (q = d)); reflexivity.
Qed.

(** What the part of [endRound] before [advanceLobby] does to the lobby. *)
Lemma closeRound_fields l :
  Players (closeRound intOfInf l) = Players l /\
  Drawer (closeRound intOfInf l) = Drawer l /\
  scoreEarnedByGuessers (closeRound intOfInf l) = 0 /\
  CurrentWord (closeRound intOfInf l) = "" /\
  WordHints (closeRound intOfInf l) = None /\
  WordHintsShown (closeRound intOfInf l) = WordHintsShown l /\
  sent (closeRound intOfInf l) =
    (sent l ++ [WritePublicSystemMessage (roundOverMessage l)])%list.
Proof.
  destruct (creditDrawer_fields l) as (HP & HW & HS & HD & HE & _).
  unfold closeRound. simpl. rewrite HP, HS, HD, HE. auto 10.
Qed.

Lemma closeRound_mem_no_pool l q :
  scoreEarnedByGuessers l <= 0 ->
  Score (mem (closeRound intOfInf l) q) = Score (mem l q) /\
  (LastScore (mem l q) = 0 -> LastScore (mem (closeRound intOfInf l) q) = 0).
Proof.
  intros H. unfold closeRound. rewrite (creditDrawer_no_pool l H). simpl. split.
  - apply (fold_update_keeps Score (fun _ _ p => if isGuessing p then set_LastScore 0 p else p)).
    intros _ _ x. destruct (isGuessing x); reflexivity.
  - apply (fold_update_inv (fun x => LastScore x = 0)
                           (fun _ _ p => if isGuessing p then set_LastScore 0 p else p)).
    intros _ _ x Hx. destruct (isGuessing x); [reflexivity | assumption].
Qed.

(** [endRound] returns whenever the lobby has a player; what it changes
    after [closeRound] is what [advanceLobby] changes. *)
Lemma endRound_done now l :
  Players l <> [] ->
  exists l', endRound GetRandomWords intOfInf now l = Done l' /\
             keeps (closeRound intOfInf l) l' /\
             forall q, q ∈ Players l' -> votedForKick (mem l' q) = ∅.
Proof.
  intros Hne. unfold endRound.
  destruct (closeRound_fields l) as (HP & _).
  destruct (advanceLobby_done GetRandomWords now (closeRound intOfInf l)) as (l' & E & K).
  { rewrite HP. assumption. }
  exists l'. split; [assumption|]. split; [assumption|].
  apply (advanceLobby_ballots GetRandomWords now _ _ E).
Qed.

Lemma replaceOwner_fields t l :
  Players (replaceOwner t l) = Players l /\ Drawer (replaceOwner t l) = Drawer l /\
  scoreEarnedByGuessers (replaceOwner t l) = scoreEarnedByGuessers l /\
  CurrentWord (replaceOwner t l) = CurrentWord l /\ mem (replaceOwner t l) = mem l.
Proof.
  unfold replaceOwner. destruct (bool_decide _); [|auto].
  destruct (List.find _ _); simpl; auto.
Qed.

(** The removal of a kicked drawer: the player leaves the list, every
    player of the lobby is taken their last score, the pool is emptied. *)
Lemma removeKicked_drawer player toKickID toKick playerToKick l :
  Drawer l = Some playerToKick ->
  let k := removeKicked player toKickID toKick playerToKick l in
  Players k = (take toKick (Players l) ++ drop (S toKick) (Players l))%list /\
  Drawer k = Some playerToKick /\
  scoreEarnedByGuessers k = 0 /\
  CurrentWord k = CurrentWord l /\
  forall q, q ∈ Players l ->
    Score (mem k q) = int64 (Score (mem l q) - LastScore (mem l q)) /\
    LastScore (mem k q) = 0.
Proof.
  intros Hd k. unfold k, removeKicked.
  set (l1 := if existsb _ (Players l) then modify player _ l else l).
  assert (H1 : Players l1 = Players l /\ Drawer l1 = Drawer l /\
               CurrentWord l1 = CurrentWord l /\
               forall q, Score (mem l1 q) = Score (mem l q) /\
                         LastScore (mem l1 q) = LastScore (mem l q)).
  { unfold l1. destruct (existsb _ _); simpl; [|auto].
    repeat split; unfold update; destruct (decide (q = player)); reflexivity. }
  destruct H1 as (P1 & D1 & W1 & M1). clearbody l1.
  cbv zeta.
  set (l2 := emit _ l1).
  assert (Hb : bool_decide (Drawer l2 = Some playerToKick) = true).
  { apply bool_decide_eq_true. unfold l2. simpl. congruence. }
  rewrite Hb.
  set (l3 := set_scoreEarnedByGuessers 0 (forPlayers redactLastScore (emit _ l2))).
  assert (H3 : Players l3 = Players l /\ Drawer l3 = Some playerToKick /\
               scoreEarnedByGuessers l3 = 0 /\ CurrentWord l3 = CurrentWord l /\
               forall q, q ∈ Players l ->
                 Score (mem l3 q) = int64 (Score (mem l q) - LastScore (mem l q)) /\
                 LastScore (mem l3 q) = 0).
  { unfold l3, l2. simpl. repeat split; try congruence.
    - rewrite (fold_update_idem redactLastScore redactLastScore_idem).
      destruct (decide (q ∈ Players l1)) as [_|Hn]; [|rewrite P1 in Hn; contradiction].
      unfold redactLastScore. simpl. destruct (M1 q) as (-> & ->). reflexivity.
    - rewrite (fold_update_idem redactLastScore redactLastScore_idem).
      destruct (decide (q ∈ Players l1)) as [_|Hn]; [|rewrite P1 in Hn; contradiction].
      reflexivity. }
  destruct H3 as (P3 & D3 & S3 & W3 & M3). clearbody l3. clear l2 Hb.
  set (l4 := if ws (mem l3 playerToKick) then emit (Close playerToKick) l3 else l3).
  assert (H4 : Players l4 = Players l /\ Drawer l4 = Some playerToKick /\
               scoreEarnedByGuessers l4 = 0 /\ CurrentWord l4 = CurrentWord l /\
               mem l4 = mem l3).
  { unfold l4. destruct (ws _); simpl; auto. }
  destruct H4 as (P4 & D4 & S4 & W4 & M4). clearbody l4.
  unfold triggerPlayersUpdate.
  destruct (replaceOwner_fields playerToKick
              (recalculateRanks
                 (set_Players (take toKick (Players l4) ++ drop (S toKick) (Players l4)) l4)))
    as (PR & DR & SR & WR & MR).
  simpl. rewrite PR, DR, SR, WR, MR. simpl. rewrite P4.
  repeat split; try assumption.
  - rewrite (fold_update_keeps Score
               (fun m a => set_Rank (int64 (playersThatAreHigher m _ a + 1))))
      by reflexivity.
    rewrite M4. now apply M3.
  - rewrite (fold_update_keeps LastScore
               (fun m a => set_Rank (int64 (playersThatAreHigher m _ a + 1))))
      by reflexivity.
    rewrite M4. now apply M3.
Qed.

Lemma removeKicked_Players player toKickID toKick playerToKick l :
  Players (removeKicked player toKickID toKick playerToKick l) =
  (take toKick (Players l) ++ drop (S toKick) (Players l))%list.
Proof.
  unfold removeKicked, triggerPlayersUpdate. simpl.
  rewrite (proj1 (replaceOwner_fields _ _)). simpl.
  repeat match goal with
         | |- context [if ?b then _ else _] => destruct b; simpl
         end; reflexivity.
Qed.

Lemma indexWhere_elsewhere test ps : forall i p,
  indexWhere test ps = Some i -> test p = false -> p ∈ ps ->
  p ∈ (take i ps ++ drop (S i) ps)%list.
Proof.
  induction ps as [|a ps IH]; intros i p Hi Hp Hin; simpl in Hi; [discriminate|].
  destruct (test a) eqn:Ea.
  - injection Hi as <-. simpl. rewrite drop_0.
    inversion Hin; subst; [congruence | assumption].
  - destruct (indexWhere test ps) as [j|] eqn:Ej; [|discriminate].
    simpl in Hi. injection Hi as <-. simpl.
    inversion Hin; subst; [left | right; now apply IH].
Qed.

Lemma elem_of_take_drop (ps : list ptr) i p :
  p ∈ (take i ps ++ drop (S i) ps)%list -> p ∈ ps.
Proof.
  intros H. apply elem_of_app in H as [H|H].
  - exact (subseteq_take i ps p H).
  - exact (subseteq_drop (S i) ps p H).
Qed.

Lemma castVote_fields player toKickID l :
  Players (castVote player toKickID l) = Players l /\
  Drawer (castVote player toKickID l) = Drawer l /\
  CurrentWord (castVote player toKickID l) = CurrentWord l /\
  sent (castVote player toKickID l) = sent l /\
  forall q, Score (mem (castVote player toKickID l) q) = Score (mem l q) /\
            LastScore (mem (castVote player toKickID l) q) = LastScore (mem l q).
Proof.
  unfold castVote. simpl. repeat split; unfold update; destruct (decide (q = player)); reflexivity.
Qed.

(** A vote that reaches the threshold runs the kick. *)
Lemma handleKickEvent_success now l player toKickID toKick playerToKick :
  toKickID <> ID (mem l player) ->
  hasVoted (mem l player) toKickID = false ->
  indexWhere (fun p => String.eqb (ID (mem l p)) toKickID) (Players l) = Some toKick ->
  Players l !! toKick = Some playerToKick ->
  votesNeededFor (length (Players l)) <= voteKickCount toKickID (castVote player toKickID l) ->
  handleKickEvent GetRandomWords intOfInf now l player toKickID =
  executeKick GetRandomWords intOfInf now player toKickID toKick playerToKick
    (announceVotes (voteKickCount toKickID (castVote player toKickID l))
                   (votesNeededFor (length (Players l))) playerToKick
                   (castVote player toKickID l)).
Proof.
  intros Hself Hvoted Hidx Hlook Hcount. unfold handleKickEvent.
  rewrite (proj2 (String.eqb_neq _ _) Hself), Hvoted, Hidx.
  destruct (castVote_fields player toKickID l) as (-> & _).
  rewrite Hlook. apply Z.leb_le in Hcount. rewrite Hcount. reflexivity.
Qed.

End Kick.

Section KickClaims.

Variable GetRandomWords : Lobby -> list string.
Variable intOfInf : Z.

(** C4. A vote kick that succeeds against the current drawer: the handler
    returns; every remaining player's [Score] went down by their
    [LastScore], which is now 0; the pool is 0; round-over handling has run
    (the round-over notice is out, the word and its hints are cleared); the
    kicked drawer was credited no bonus. *)
Theorem C4_kicked_drawer_voids_round now l player toKickID toKick playerToKick :
  player ∈ Players l ->
  toKickID <> ID (mem l player) ->
  hasVoted (mem l player) toKickID = false ->
  indexWhere (fun p => String.eqb (ID (mem l p)) toKickID) (Players l) = Some toKick ->
  Players l !! toKick = Some playerToKick ->
  votesNeededFor (length (Players l)) <= voteKickCount toKickID (castVote player toKickID l) ->
  Drawer l = Some playerToKick ->
  exists l',
    handleKickEvent GetRandomWords intOfInf now l player toKickID = Done l' /\
    Players l' = (take toKick (Players l) ++ drop (S toKick) (Players l))%list /\
    (forall q, q ∈ Players l' ->
       Score (mem l' q) = int64 (Score (mem l q) - LastScore (mem l q)) /\
       LastScore (mem l' q) = 0) /\
    scoreEarnedByGuessers l' = 0 /\
    (WritePublicSystemMessage (roundOverMessage l) ∈ sent l' /\
     CurrentWord l' = "" /\ WordHints l' = None) /\
    (Score (mem l' playerToKick) =
       int64 (Score (mem l playerToKick) - LastScore (mem l playerToKick)) /\
     LastScore (mem l' playerToKick) = 0).
Proof.
  intros Hin Hself Hvoted Hidx Hlook Hcount Hd.
  rewrite (handleKickEvent_success GetRandomWords intOfInf now l player toKickID toKick
             playerToKick Hself Hvoted Hidx Hlook Hcount).
  destruct (castVote_fields player toKickID l) as (CP & CD & CW & _ & CM).
  set (l0 := announceVotes _ _ playerToKick (castVote player toKickID l)).
  assert (D0 : Drawer l0 = Some playerToKick) by (unfold l0; simpl; congruence).
  assert (P0 : Players l0 = Players l) by (unfold l0; simpl; congruence).
  assert (W0 : CurrentWord l0 = CurrentWord l) by (unfold l0; simpl; congruence).
  assert (M0 : forall q, Score (mem l0 q) = Score (mem l q) /\
                         LastScore (mem l0 q) = LastScore (mem l q)).
  { intros q. unfold l0. simpl. apply CM. }
  clearbody l0.
  destruct (removeKicked_drawer player toKickID toKick playerToKick l0 D0)
    as (PK & DK & SK & WK & MK).
  unfold executeKick.
  set (k := removeKicked player toKickID toKick playerToKick l0) in *. clearbody k.
  assert (Hb : bool_decide (Drawer k = Some playerToKick) = true)
    by (apply bool_decide_eq_true; assumption).
  rewrite Hb. simpl.
  assert (Hstay : player ∈ Players k).
  { rewrite PK, P0. apply (indexWhere_elsewhere _ _ _ _ Hidx); [|assumption].
    apply String.eqb_neq. congruence. }
  destruct (endRound_done GetRandomWords intOfInf now k) as (l' & E & K & _).
  { intros Hnil. rewrite Hnil in Hstay. inversion Hstay. }
  destruct (closeRound_fields intOfInf k) as (PC & _ & SC & WC & HC & _ & EC).
  exists l'. split; [assumption|].
  assert (Hscore : forall q, q ∈ Players l ->
            Score (mem l' q) = int64 (Score (mem l q) - LastScore (mem l q)) /\
            LastScore (mem l' q) = 0).
  { intros q Hq. rewrite (keeps_Score _ _ K), (keeps_LastScore _ _ K).
    destruct (closeRound_mem_no_pool intOfInf k q) as (-> & HL); [lia|].
    rewrite <- P0 in Hq. destruct (MK q Hq) as (HS & HZ).
    destruct (M0 q) as (<- & <-). split; [assumption | now apply HL]. }
  split; [rewrite (keeps_Players _ _ K), PC, PK, P0; reflexivity|].
  split.
  { intros q Hq. apply Hscore.
    rewrite (keeps_Players _ _ K), PC, PK, P0 in Hq.
    exact (elem_of_take_drop _ _ _ Hq). }
  split; [rewrite (keeps_pool _ _ K); assumption|].
  split.
  { split; [|split].
    - destruct (keeps_sent _ _ K) as (evs & -> & _). rewrite EC.
      unfold roundOverMessage. rewrite WK, W0.
      apply elem_of_app. left. apply elem_of_app. right. left.
    - rewrite (keeps_CurrentWord _ _ K). assumption.
    - rewrite (keeps_WordHints _ _ K). assumption. }
  apply Hscore. eapply list_elem_of_lookup_2. eassumption.
Qed.

(** C5 (amended). Every call of [advanceLobby] on a lobby with a player
    returns and leaves every player an empty ballot set; so does a
    successful kick that runs round-over handling (the kicked player was
    the drawer, or nobody is left guessing), for every remaining player. *)
Theorem C5_ballots_cleared now l :
  Players l <> [] ->
  (exists l', advanceLobby GetRandomWords now l = Done l' /\
              forall q, q ∈ Players l' -> votedForKick (mem l' q) = ∅) /\
  (forall player toKickID toKick playerToKick,
      player ∈ Players l ->
      toKickID <> ID (mem l player) ->
      hasVoted (mem l player) toKickID = false ->
      indexWhere (fun p => String.eqb (ID (mem l p)) toKickID) (Players l) = Some toKick ->
      Players l !! toKick = Some playerToKick ->
      votesNeededFor (length (Players l)) <= voteKickCount toKickID (castVote player toKickID l) ->
      let k := removeKicked player toKickID toKick playerToKick
                 (announceVotes (voteKickCount toKickID (castVote player toKickID l))
                                (votesNeededFor (length (Players l))) playerToKick
                                (castVote player toKickID l)) in
      bool_decide (Drawer k = Some playerToKick) || negb (isAnyoneStillGuessing k) = true ->
      exists l',
        handleKickEvent GetRandomWords intOfInf now l player toKickID = Done l' /\
        Players l' = (take toKick (Players l) ++ drop (S toKick) (Players l))%list /\
        forall q, q ∈ Players l' -> votedForKick (mem l' q) = ∅).
Proof.
  intros Hne. split.
  - destruct (advanceLobby_done GetRandomWords now l Hne) as (l' & E & _).
    exists l'. split; [assumption|].
    exact (advanceLobby_ballots GetRandomWords now l l' E).
  - intros player toKickID toKick playerToKick Hin Hself Hvoted Hidx Hlook Hcount k Hover.
    rewrite (handleKickEvent_success GetRandomWords intOfInf now l player toKickID toKick
               playerToKick Hself Hvoted Hidx Hlook Hcount).
    unfold executeKick. fold k. rewrite Hover.
    assert (PK : Players k = (take toKick (Players l) ++ drop (S toKick) (Players l))%list).
    { unfold k. rewrite removeKicked_Players. simpl. reflexivity. }
    assert (Hstay : player ∈ Players k).
    { rewrite PK. apply (indexWhere_elsewhere _ _ _ _ Hidx); [|assumption].
      apply String.eqb_neq. congruence. }
    destruct (endRound_done GetRandomWords intOfInf now k) as (l' & E & K & B).
    { intros Hnil. rewrite Hnil in Hstay. inversion Hstay. }
    exists l'. split; [assumption|]. split; [|assumption].
    rewrite (keeps_Players _ _ K), (proj1 (closeRound_fields intOfInf k)). exact PK.
Qed.

End KickClaims.

(** C4, witness: cat (2) casts the second of the two votes needed to kick
    the drawer ann (0). *)
Lemma C4_kicked_drawer_voids_round_witness :
  let l := sampleLobby [0; 1; 2; 3]%nat (Some 0%nat) "apple" (bobVoted "ann") in
  exists l',
    handleKickEvent threeWords 0 5000 l 2%nat "ann" = Done l' /\
    Players l' = [1; 2; 3]%nat /\
    scoreEarnedByGuessers l' = 0 /\
    LastScore (mem l' 0%nat) = 0.
Proof.
  intros l.
  destruct (C4_kicked_drawer_voids_round threeWords 0 5000 l 2%nat "ann" 0%nat 0%nat)
    as (l' & E & P & _ & S & _ & _ & L).
  - apply list_elem_of_In. simpl. auto.
  - vm_compute. discriminate.
  - reflexivity.
  - reflexivity.
  - reflexivity.
  - vm_compute. discriminate.
  - reflexivity.
  - exists l'. auto.
Defined.

(** C5, witness: the same kick clears the ballot bob (1) had cast. *)
Lemma C5_ballots_cleared_witness :
  let l := sampleLobby [0; 1; 2; 3]%nat (Some 0%nat) "apple" (bobVoted "ann") in
  hasVoted (mem l 1%nat) "ann" = true /\
  exists l',
    handleKickEvent threeWords 0 5000 l 2%nat "ann" = Done l' /\
    Players l' = [1; 2; 3]%nat /\
    forall q, q ∈ Players l' -> votedForKick (mem l' q) = ∅.
Proof.
  intros l. split; [reflexivity|].
  assert (Hne : Players l <> []) by discriminate.
  destruct (C5_ballots_cleared threeWords 0 5000 l Hne) as (_ & H).
  apply (H 2%nat "ann" 0%nat 0%nat).
  - apply list_elem_of_In. simpl. auto.
  - vm_compute. discriminate.
  - reflexivity.
  - reflexivity.
  - reflexivity.
  - vm_compute. discriminate.
  - vm_compute. reflexivity.
Defined.

(** C5, counterexample: while ann (0) draws and the others guess, bob (1)
    votes against cat (2); then bob and cat vote dan (3) out. The kick
    succeeds, no round-over handling follows, and bob, who is still in the
    lobby, still holds his ballot against cat, who is still in the lobby. The
    ballot is not one against the kicked player, which lines 269-275 mean
    to clean up. *)
Lemma C5_ballot_against_another_survives_kick :
  let l := sampleLobby [0; 1; 2; 3]%nat (Some 0%nat) "apple" fourPlayers in
  obtains (handleKickEvent threeWords 0 4000 l 1%nat "cat")
    (fun l0 =>
       Players l0 = [0; 1; 2; 3]%nat /\
       obtains (handleKickEvent threeWords 0 5000 l0 1%nat "dan")
         (fun l1 =>
            Players l1 = [0; 1; 2; 3]%nat /\
            obtains (handleKickEvent threeWords 0 6000 l1 2%nat "dan")
              (fun l2 =>
                 Players l2 = [0; 1; 2]%nat /\
                 CurrentWord l2 = "apple" /\
                 votedForKick (mem l2 1%nat) !! "cat" = Some true /\
                 votedForKick (mem l2 1%nat) <> ∅))).
Proof.
  vm_compute. split; [reflexivity|]. split; [reflexivity|]. split; [reflexivity|].
  split; [reflexivity|]. split; [reflexivity|]. discriminate.
Qed.

(** ** Hints *)

Lemma createWordHintFor_length word showAll :
  length (createWordHintFor word showAll) = length (runes word).
Proof. unfold createWordHintFor. apply length_map. Qed.

(** C6, on the code: ann (0) is offered three words and chooses "boat";
    both hint arrays get four slots. When the round is over the word and
    the player-facing array are cleared, but the fully revealed array is
    still there with its four slots, for a word of no characters. *)
Theorem C6_shown_hints_outlive_the_word :
  let l := set_WordChoice ["apple"; "boat"; "cloud"]
             (sampleLobby [0; 1; 2; 3]%nat (Some 0%nat) "" fourPlayers) in
  obtains (HandleEvent_chooseWord (VFloat 1) l 0%nat)
    (fun l1 =>
       CurrentWord l1 = "boat" /\
       length <$> WordHints l1 = Some 4%nat /\
       length <$> WordHintsShown l1 = Some 4%nat /\
       obtains (endRound threeWords 0 9000 l1)
         (fun l2 =>
            CurrentWord l2 = "" /\
            length (runes (CurrentWord l2)) = 0%nat /\
            WordHints l2 = None /\
            length <$> WordHintsShown l2 = Some 4%nat)).
Proof. vm_compute. repeat split. Qed.

(** A reveal that returns has filled exactly one slot, one that was hidden,
    with the character of the word at that place. *)
Lemma revealHint_reveals word hints : forall rnd hints',
  revealHint rnd hints word = Done hints' ->
  exists i hint char,
    hints !! i = Some hint /\ Character hint = 0 /\ runes word !! i = Some char /\
    hints' = <[i := {| Character := char; Underline := Underline hint |}]> hints.
Proof.
  induction rnd as [|r rnd IH]; intros hints' H; simpl in H; [discriminate|].
  destruct (length hints =? 0)%nat; [discriminate|].
  destruct (hints !! (r mod length hints)%nat) as [hint|] eqn:Eh; [|discriminate].
  destruct (Character hint =? 0) eqn:Ec.
  - destruct (runes word !! (r mod length hints)%nat) as [char|] eqn:Er; [|discriminate].
    injection H as <-. apply Z.eqb_eq in Ec.
    exists (r mod length hints)%nat, hint, char. auto.
  - now apply IH.
Qed.

(** With no hidden slot left the loop of lines 495-502 cannot be left,
    whatever numbers are drawn. *)
Lemma revealHint_spins word hints :
  hints <> [] -> Forall (fun hint => Character hint <> 0) hints ->
  forall rnd, revealHint rnd hints word = Spin.
Proof.
  intros Hne Hall rnd. induction rnd as [|r rnd IH]; simpl; [reflexivity|].
  destruct (length hints =? 0)%nat eqn:El.
  { apply Nat.eqb_eq in El. destruct hints; [congruence | discriminate]. }
  apply Nat.eqb_neq in El.
  destruct (hints !! (r mod length hints)%nat) as [hint|] eqn:Eh.
  - assert (Hc : Character hint <> 0).
    { rewrite Forall_forall in Hall. apply Hall. eapply list_elem_of_lookup_2. eassumption. }
    apply Z.eqb_neq in Hc. rewrite Hc. exact IH.
  - exfalso. apply lookup_ge_None in Eh.
    pose proof (Nat.mod_upper_bound r (length hints) El). lia.
Qed.

Section Reveal.

Variable GetRandomWords : Lobby -> list string.
Variable intOfInf : Z.

Lemma tick_spins now rnd l t hints :
  timeLeftTicker l = Some t -> 0 < hintsLeft t -> int64 (showNextHintInSeconds t - 1) = 0 ->
  WordHints l = Some hints -> hints <> [] ->
  Forall (fun hint => Character hint <> 0) hints ->
  tick GetRandomWords intOfInf now rnd l = Spin.
Proof.
  intros Ht Hl Hs Hh Hne Hall. unfold tick, hintCountdown. rewrite Ht.
  apply Z.ltb_lt in Hl. rewrite Hl, Hs. simpl. rewrite Hh.
  rewrite (revealHint_spins _ hints Hne Hall). reflexivity.
Qed.

Lemma ticks_app now a b l :
  ticks GetRandomWords intOfInf now (a ++ b) l =
  bind (ticks GetRandomWords intOfInf now a l) (ticks GetRandomWords intOfInf now b).
Proof.
  revert l. induction a as [|rnd a IH]; intros l; simpl; [reflexivity|].
  destruct (tick GetRandomWords intOfInf now rnd l); simpl; auto.
Qed.

End Reveal.

Lemma obtains_impl {A : Type} (r : result A) (P Q : A -> Prop) :
  obtains r P -> (forall a, P a -> Q a) -> obtains r Q.
Proof. destruct r; simpl; auto. Qed.

(** C7, on the code: a word of one character, a drawing time of 60
    seconds. The tick of second 20 reveals the only slot. At the tick of
    second 40 the second reveal is due, no slot is hidden, and the loop
    that draws random indices until it meets a hidden slot is never left. *)
Theorem C7_second_reveal_of_a_short_word_never_returns :
  let l := sampleLobby [0; 1; 2; 3]%nat (Some 0%nat) "a" fourPlayers in
  length (runes (CurrentWord l)) = 1%nat /\
  DrawingTime l = 60 /\
  obtains (ticks threeWords 0 5000 (replicate 19 [] ++ [[0%nat]]) l)
    (fun l20 =>
       map Character <$> WordHints l20 = Some [97] /\
       timeLeftTicker l20 = Some {| showNextHintInSeconds := 20; hintsLeft := 1 |}) /\
  forall rnd,
    ticks threeWords 0 5000 (replicate 19 [] ++ [[0%nat]] ++ replicate 19 [] ++ [rnd]) l = Spin.
Proof.
  intros l. split; [reflexivity|]. split; [reflexivity|]. split.
  - vm_compute. split; reflexivity.
  - intros rnd.
    replace (replicate 19 [] ++ [[0%nat]] ++ replicate 19 [] ++ [rnd])%list
      with ((replicate 19 [] ++ [[0%nat]] ++ replicate 19 []) ++ [rnd])%list
      by (rewrite <- !app_assoc; reflexivity).
    rewrite ticks_app.
    assert (H : obtains (ticks threeWords 0 5000
                           (replicate 19 [] ++ [[0%nat]] ++ replicate 19 []) l)
                  (fun l39 =>
                     timeLeftTicker l39 = Some {| showNextHintInSeconds := 1; hintsLeft := 1 |} /\
                     WordHints l39 = Some [{| Character := 97; Underline := true |}])).
    { vm_compute. split; reflexivity. }
    destruct (ticks threeWords 0 5000 _ l) as [l39| |]; simpl in H; try contradiction.
    destruct H as (Ht & Hh). simpl.
    rewrite (tick_spins threeWords 0 5000 rnd l39 _ _ Ht eq_refl eq_refl Hh); [reflexivity | |].
    + discriminate.
    + repeat constructor. discriminate.
Qed.

(** *** The player-facing array keeps its length *)

Section HintLength.

Variable GetRandomWords : Lobby -> list string.
Variable intOfInf : Z.

Lemma chooseWord_hintsFit data l player l' :
  hintsFit l -> HandleEvent_chooseWord data l player = Done l' -> hintsFit l'.
Proof.
  intros Hfit. unfold HandleEvent_chooseWord.
  destruct (chosenIndexOf data) as [i|]; [|intros [= <-]; assumption].
  destruct (_ && _); [|intros [= <-]; assumption].
  destruct (WordChoice l !! Z.to_nat i) as [word|]; [|discriminate].
  intros [= <-]. unfold hintsFit, triggerWordHintUpdate.
  destruct (String.eqb _ _); simpl; intros hints [= <-];
    apply createWordHintFor_length.
Qed.

Lemma advanceLobby_hintsFit now l l' :
  hintsFit l -> advanceLobby GetRandomWords now l = Done l' -> hintsFit l'.
Proof.
  intros Hfit E. destruct (Players l) as [|p0 ps] eqn:EP.
  - exfalso. unfold advanceLobby in E.
    assert (HP : Players (resetForTurn l) = []).
    { rewrite <- EP. apply (keeps_resetForTurn l l (keeps_refl l)). }
    destruct (Drawer (resetForTurn l)); rewrite HP in E; simpl in E; discriminate.
  - destruct (advanceLobby_done GetRandomWords now l) as (l2 & E2 & K); [congruence|].
    rewrite E in E2. injection E2 as <-.
    unfold hintsFit. rewrite (keeps_WordHints _ _ K), (keeps_CurrentWord _ _ K). exact Hfit.
Qed.

Lemma endRound_hintsFit now l l' :
  endRound GetRandomWords intOfInf now l = Done l' -> hintsFit l'.
Proof.
  unfold endRound. apply advanceLobby_hintsFit.
  intros hints. destruct (closeRound_fields intOfInf l) as (_ & _ & _ & _ & -> & _).
  discriminate.
Qed.

Lemma tick_hintsFit now rnd l l' :
  hintsFit l -> tick GetRandomWords intOfInf now rnd l = Done l' -> hintsFit l'.
Proof.
  intros Hfit. unfold tick. destruct (timeLeftTicker l) as [t|]; [|intros [= <-]; assumption].
  destruct (hintCountdown rnd t l) as [l1| |] eqn:Ec; simpl; try discriminate.
  assert (Hfit1 : hintsFit l1).
  { unfold hintCountdown in Ec. destruct (0 <? hintsLeft t); [|injection Ec as <-; assumption].
    destruct (_ =? 0); [|injection Ec as <-; exact Hfit].
    simpl in Ec. destruct (WordHints l) as [hints|] eqn:Eh.
    - destruct (revealHint rnd hints (CurrentWord l)) as [hints'| |] eqn:Er; try discriminate.
      simpl in Ec. injection Ec as <-.
      destruct (revealHint_reveals _ _ _ _ Er) as (i & hint & char & _ & _ & _ & ->).
      unfold hintsFit, triggerWordHintUpdate. simpl.
      destruct (String.eqb _ _); simpl; intros ? [= <-];
        rewrite length_insert; apply Hfit; assumption.
    - injection Ec as <-. unfold hintsFit. simpl. rewrite Eh. discriminate. }
  destruct (RoundEndTime l1 =? 0); [apply endRound_hintsFit | intros [= <-]; assumption].
Qed.

End HintLength.

(** ** Guesses in the chat *)

Lemma lev_same s : lev s s = 0%nat.
Proof.
  induction s as [|a s IH]; [reflexivity|].
  simpl. rewrite Z.eqb_refl. exact IH.
Qed.

Lemma ComputeDistance_same a : ComputeDistance a a = 0.
Proof. unfold ComputeDistance. rewrite lev_same. reflexivity. Qed.

Section Chat.

Variable GetRandomWords : Lobby -> list string.
Variable TrimSpace ToLower Replace : string -> string.
Variable intOfInf : Z.

(** C8 (amended). A player in state Guessing sends a chat message that is
    not blank, while a word is set; the message is compared after trimming
    and lower-casing. If it equals the word, the guess is scored, the
    guesser is set to Standby and told so, and nothing that is sent is a
    normal chat line. If its edit distance to the word is 1, the guesser is
    sent the "very close" notice and then every player is sent the message
    as a normal chat line; nothing else changes. *)
Theorem C8_guess_feedback now input sender l :
  State (mem l sender) = Guessing -> CurrentWord l <> "" -> sender ∈ Players l ->
  TrimSpace input <> "" ->
  let trimmed := TrimSpace input in
  let run := handleMessage GetRandomWords TrimSpace ToLower Replace intOfInf now input sender l in
  (ToLower (CurrentWord l) = ToLower trimmed ->
   run = afterCorrectGuess GetRandomWords intOfInf now sender (awardGuess now sender l) /\
   State (mem (awardGuess now sender l) sender) = Standby /\
   exists l' evs,
     run = Done l' /\ sent l' = (sent l ++ evs)%list /\ existsb isChat evs = false /\
     WriteAsJSON sender "system-message" (DString "You have correctly guessed the word.") ∈ evs)
  /\
  (ComputeDistance (ToLower trimmed) (ToLower (CurrentWord l)) = 1 ->
   exists l',
     run = Done l' /\
     sent l' = (sent l ++
                WriteAsJSON sender "system-message"
                  (DSprintf "'%s' is very close." [AStr trimmed])
                :: chatLines Replace trimmed sender l)%list /\
     mem l' = mem l /\ scoreEarnedByGuessers l' = scoreEarnedByGuessers l /\
     CurrentWord l' = CurrentWord l).
Proof.
  intros Hs Hw Hin Ht trimmed run. split.
  - intros He.
    assert (Hrun : run = afterCorrectGuess GetRandomWords intOfInf now sender
                           (awardGuess now sender l)).
    { apply handleMessage_correct; assumption. }
    split; [exact Hrun|].
    split; [unfold awardGuess; simpl; now rewrite update_same|].
    rewrite Hrun. unfold afterCorrectGuess.
    set (g := awardGuess now sender l).
    assert (Pg : Players g = Players l) by reflexivity.
    assert (Sg : sent g = sent l) by reflexivity.
    clearbody g.
    set (told := WriteAsJSON sender "system-message"
                   (DString "You have correctly guessed the word.")).
    destruct (negb (isAnyoneStillGuessing (emit told g))).
    + destruct (endRound_done GetRandomWords intOfInf now (emit told g)) as (l' & E & K & _).
      { simpl. rewrite Pg. intros Hnil. rewrite Hnil in Hin. inversion Hin. }
      destruct (keeps_sent _ _ K) as (evs & Hsent & Hq).
      destruct (closeRound_fields intOfInf (emit told g)) as (_ & _ & _ & _ & _ & _ & EC).
      exists l', (told :: WritePublicSystemMessage (roundOverMessage (emit told g)) :: evs).
      split; [assumption|]. split; [|split].
      * rewrite Hsent, EC. simpl. rewrite Sg, <- !app_assoc. reflexivity.
      * simpl. exact Hq.
      * left.
    + eexists. exists [told; WriteAsJSON sender "update-wordhint" (DHints (WordHintsShown g));
                       TriggerSimpleUpdateEvent "correct-guess";
                       TriggerComplexUpdateEvent "update-players" (DPlayers (Players g))].
      split; [reflexivity|]. split; [|split].
      * simpl. rewrite Sg, <- !app_assoc. reflexivity.
      * reflexivity.
      * left.
  - intros Hdist.
    assert (Hne : ToLower (CurrentWord l) <> ToLower trimmed).
    { intros Heq. rewrite Heq, ComputeDistance_same in Hdist. discriminate. }
    unfold run, handleMessage. unfold trimmed in *.
    rewrite (eqb_neq_false _ _ Ht), (eqb_neq_false _ _ Hw), Hs, (eqb_neq_false _ _ Hne), Hdist.
    simpl. eexists. split; [reflexivity|]. simpl.
    rewrite <- app_assoc. auto.
Qed.

End Chat.

(** C8, witness: "Apple" and "aple" sent by bob for the word "apple". *)
Lemma C8_guess_feedback_witness :
  let l := sampleLobby [0; 1; 2; 3]%nat (Some 0%nat) "apple" fourPlayers in
  (exists l' evs,
     handleMessage threeWords trimASCII lowerASCII noEmoji 0 1000000000000 "Apple " 1%nat l
       = Done l' /\
     sent l' = (sent l ++ evs)%list /\ existsb isChat evs = false) /\
  (exists l',
     handleMessage threeWords trimASCII lowerASCII noEmoji 0 1000000000000 "aple" 1%nat l
       = Done l' /\
     sent l' = (sent l ++
                WriteAsJSON 1%nat "system-message" (DSprintf "'%s' is very close." [AStr "aple"])
                :: chatLines noEmoji "aple" 1%nat l)%list).
Proof.
  intros l. split.
  - destruct (C8_guess_feedback threeWords trimASCII lowerASCII noEmoji 0 1000000000000
                "Apple " 1%nat l) as (H & _).
    + reflexivity.
    + vm_compute. discriminate.
    + apply list_elem_of_In. simpl. auto.
    + vm_compute. discriminate.
    + destruct H as (_ & _ & l' & evs & E & S & Q & _); [reflexivity|].
      exists l', evs. auto.
  - destruct (C8_guess_feedback threeWords trimASCII lowerASCII noEmoji 0 1000000000000
                "aple" 1%nat l) as (_ & H).
    + reflexivity.
    + vm_compute. discriminate.
    + apply list_elem_of_In. simpl. auto.
    + vm_compute. discriminate.
    + destruct H as (l' & E & S & _); [reflexivity|].
      exists l'. auto.
Defined.

(** C8, counterexample: the word is "a" and bob sends a blank message. Its
    edit distance to the word is 1, trimmed or not, yet bob gets no notice
    and nobody gets a chat line. *)
Lemma C8_blank_message_is_dropped :
  let l := sampleLobby [0; 1; 2; 3]%nat (Some 0%nat) "a" fourPlayers in
  State (mem l 1%nat) = Guessing /\
  ComputeDistance (lowerASCII " ") (lowerASCII (CurrentWord l)) = 1 /\
  ComputeDistance (lowerASCII (trimASCII " ")) (lowerASCII (CurrentWord l)) = 1 /\
  obtains (handleMessage threeWords trimASCII lowerASCII noEmoji 0 1000000000000 " " 1%nat l)
          (fun l' => sent l' = sent l /\ sent l' = []).
Proof. vm_compute. repeat split. Qed.

(** ** Choosing a word *)

Lemma createWordHintFor_fields word :
  map Character (createWordHintFor word false) = map (fun _ => 0) (runes word) /\
  map Character (createWordHintFor word true) = runes word /\
  forall showAll,
    map Underline (createWordHintFor word showAll)
    = map (fun c => negb (irrelevantChar c)) (runes word).
Proof.
  unfold createWordHintFor. induction (runes word) as [|c cs (IH1 & IH2 & IH3)]; simpl.
  - auto.
  - rewrite IH1, IH2. split; [reflexivity|]. split; [reflexivity|].
    intros showAll. rewrite IH3. destruct showAll; reflexivity.
Qed.

Lemma Qfloor_bounds (f : Q) :
  (inject_Z (Qfloor f) <= f)%Q /\ (f < inject_Z (Qfloor f) + 1)%Q.
Proof.
  split; [apply Qfloor_le|].
  pose proof (Qlt_floor f) as H. rewrite inject_Z_plus in H. exact H.
Qed.

Lemma Qceiling_bounds (f : Q) :
  (f <= inject_Z (Qceiling f))%Q /\ (inject_Z (Qceiling f) - 1 < f)%Q.
Proof.
  split; [apply Qle_ceiling|].
  pose proof (Qceiling_lt f) as H. unfold Z.sub in H. rewrite inject_Z_plus in H. exact H.
Qed.

Lemma Z_of_Q_lt a b : (inject_Z a < inject_Z b)%Q -> a < b.
Proof. rewrite <- Zlt_Qlt. auto. Qed.

(** [int(asFloat)] is 0, 1 or 2 exactly for the floats strictly between -1
    and 3. *)
Lemma intOfFloat_index (f : Q) :
  (Qle_bool 4 f = false /\ 0 <= intOfFloat f <= 2) <-> (-1 < f /\ f < 3)%Q.
Proof.
  unfold intOfFloat.
  destruct (Qfloor_bounds f) as (F1 & F2). destruct (Qceiling_bounds f) as (C1 & C2).
  destruct (Qle_bool 0 f) eqn:E0.
  - apply Qle_bool_iff in E0.
    assert (H0 : 0 <= Qfloor f).
    { apply Z.lt_pred_le. apply Z_of_Q_lt. change (inject_Z (Z.pred 0)) with (-1)%Q. Lqa.lra. }
    assert (Hb : (Qfloor f <? - 2 ^ 63) = false) by (apply Z.ltb_ge; lia).
    rewrite Hb. split.
    + intros (_ & _ & H2). split; [Lqa.lra|].
      assert (H : (inject_Z (Qfloor f) <= inject_Z 2)%Q) by (rewrite <- Zle_Qle; exact H2).
      change (inject_Z 2) with 2%Q in H. Lqa.lra.
    + intros (_ & H3). split.
      * destruct (Qle_bool 4 f) eqn:E4; [|reflexivity].
        apply Qle_bool_iff in E4. Lqa.lra.
      * split; [exact H0|]. apply Z.lt_succ_r. apply Z_of_Q_lt.
        change (inject_Z (Z.succ 2)) with 3%Q. Lqa.lra.
  - assert (Hneg : (f < 0)%Q).
    { apply Qnot_le_lt. intros H. apply Qle_bool_iff in H. congruence. }
    split.
    + intros (_ & H0 & _). split; [|Lqa.lra].
      destruct (Qceiling f <? - 2 ^ 63) eqn:Eb; [lia|].
      assert (H : (inject_Z 0 <= inject_Z (Qceiling f))%Q) by (rewrite <- Zle_Qle; exact H0).
      change (inject_Z 0) with 0%Q in H. Lqa.lra.
    + intros (H1 & _).
      assert (Hc : Qceiling f = 0).
      { assert (Qceiling f < 1).
        { apply Z_of_Q_lt. change (inject_Z 1) with 1%Q. Lqa.lra. }
        assert (-1 < Qceiling f).
        { apply Z_of_Q_lt. change (inject_Z (-1)) with (-1)%Q. Lqa.lra. }
        lia. }
      rewrite Hc. simpl. split; [|lia].
      destruct (Qle_bool 4 f) eqn:E4; [|reflexivity].
      apply Qle_bool_iff in E4. Lqa.lra.
Qed.

(** [int(asFloat)] truncates toward zero: between -1 and 0 it gives 0, from
    0 on the integer part. *)
Lemma intOfFloat_truncates (f : Q) (i : Z) :
  (-1 < f /\ f < 3)%Q ->
  intOfFloat f = i <->
  ((f < 0)%Q /\ i = 0) \/ (0 <= f /\ inject_Z i <= f /\ f < inject_Z i + 1)%Q.
Proof.
  intros (H1 & H3). unfold intOfFloat.
  destruct (Qfloor_bounds f) as (F1 & F2). destruct (Qceiling_bounds f) as (C1 & C2).
  destruct (Qle_bool 0 f) eqn:E0.
  - apply Qle_bool_iff in E0.
    assert (H0 : 0 <= Qfloor f).
    { apply Z.lt_pred_le. apply Z_of_Q_lt. change (inject_Z (Z.pred 0)) with (-1)%Q. Lqa.lra. }
    assert (Hb : (Qfloor f <? - 2 ^ 63) = false) by (apply Z.ltb_ge; lia).
    rewrite Hb. split.
    + intros <-. right. auto.
    + intros [(Hn & _)|(_ & I1 & I2)]; [Lqa.lra|].
      assert (Qfloor f < i + 1).
      { apply Z_of_Q_lt. rewrite inject_Z_plus. change (inject_Z 1) with 1%Q. Lqa.lra. }
      assert (i < Qfloor f + 1).
      { apply Z_of_Q_lt. rewrite inject_Z_plus. change (inject_Z 1) with 1%Q. Lqa.lra. }
      lia.
  - assert (Hneg : (f < 0)%Q).
    { apply Qnot_le_lt. intros H. apply Qle_bool_iff in H. congruence. }
    assert (Hc : Qceiling f = 0).
    { assert (Qceiling f < 1).
      { apply Z_of_Q_lt. change (inject_Z 1) with 1%Q. Lqa.lra. }
      assert (-1 < Qceiling f).
      { apply Z_of_Q_lt. change (inject_Z (-1)) with (-1)%Q. Lqa.lra. }
      lia. }
    rewrite Hc. simpl. split.
    + intros <-. left. auto.
    + intros [(_ & ->)|(Hp & _)]; [reflexivity | Lqa.lra].
Qed.

(** The payloads that carry an index from 0 to 2: the integers 0, 1, 2 and
    the floats strictly between -1 and 3, truncated toward zero. *)
Lemma chosenIndexOf_index (data : Value) (i : Z) :
  (chosenIndexOf data = Some i /\ 0 <= i <= 2) <->
  ((data = VInt i /\ 0 <= i <= 2) \/
   (exists f, data = VFloat f /\ (-1 < f /\ f < 3)%Q /\
              (((f < 0)%Q /\ i = 0) \/ (0 <= f /\ inject_Z i <= f /\ f < inject_Z i + 1)%Q))).
Proof.
  destruct data as [j|f|s|]; simpl.
  - split.
    + intros ([= ->] & H). left. auto.
    + intros [([= ->] & H)|(f & Hf & _)]; [auto | discriminate].
  - split.
    + intros (E & H). right. exists f. split; [reflexivity|].
      destruct (Qle_bool 4 f) eqn:E4; simpl in E; [discriminate|].
      injection E as E.
      assert (Hr : (-1 < f /\ f < 3)%Q).
      { apply intOfFloat_index. rewrite E. auto. }
      split; [exact Hr|]. apply (intOfFloat_truncates f i Hr). exact E.
    + intros [(Hd & _)|(f' & [= <-] & Hr & Ht)]; [discriminate|].
      apply (intOfFloat_truncates f i Hr) in Ht.
      destruct (proj2 (intOfFloat_index f) Hr) as (E4 & Hi).
      rewrite E4. simpl. rewrite Ht in *. auto.
  - split; [intros (E & _); discriminate|].
    intros [(Hd & _)|(f & Hf & _)]; discriminate.
  - split; [intros (E & _); discriminate|].
    intros [(Hd & _)|(f & Hf & _)]; discriminate.
Qed.

(** C9 (amended). A choose-word event changes the lobby exactly when its
    sender is the drawer, word choices are pending and its payload is an
    integer from 0 to 2 or a float strictly between -1 and 3; the index is
    the integer, or the float truncated toward zero. The candidate at that
    index is then the current word, no choice is pending any more, and both
    hint arrays hold one slot for each character of the word: the character
    hidden in the player-facing array and shown in the other, the slot
    underlined unless the character is a space, an underscore or a hyphen.
    In every other case the lobby is left as it was and nothing is sent.
    The pending choices are the three words of [GetRandomWords], or none. *)
Theorem C9_choose_word data l player :
  WordChoice l = [] \/ length (WordChoice l) = 3%nat ->
  let index (i : Z) :=
    (data = VInt i /\ 0 <= i <= 2) \/
    (exists f, data = VFloat f /\ (-1 < f /\ f < 3)%Q /\
               (((f < 0)%Q /\ i = 0) \/
                (0 <= f /\ inject_Z i <= f /\ f < inject_Z i + 1)%Q)) in
  let honored := Some player = Drawer l /\ WordChoice l <> [] /\ exists i, index i in
  exists l',
    HandleEvent_chooseWord data l player = Done l' /\
    (l' <> l <-> honored) /\
    (forall i, Some player = Drawer l -> WordChoice l <> [] -> index i ->
       exists word hints shown,
         WordChoice l !! Z.to_nat i = Some word /\
         CurrentWord l' = word /\ WordChoice l' = [] /\
         WordHints l' = Some hints /\ WordHintsShown l' = Some shown /\
         map Character hints = map (fun _ => 0) (runes word) /\
         map Character shown = runes word /\
         map Underline hints = map (fun c => negb (irrelevantChar c)) (runes word) /\
         map Underline shown = map (fun c => negb (irrelevantChar c)) (runes word)) /\
    (~ honored -> l' = l /\ sent l' = sent l).
Proof.
  intros Hthree index honored.
  assert (Hix : forall i, index i <-> chosenIndexOf data = Some i /\ 0 <= i <= 2).
  { intros i. symmetry. apply chosenIndexOf_index. }
  unfold HandleEvent_chooseWord.
  destruct (chosenIndexOf data) as [i|] eqn:Ei.
  2:{ exists l. split; [reflexivity|].
      assert (Hn : ~ honored).
      { intros (_ & _ & i & Hi). apply Hix in Hi. destruct Hi as (Hi & _). discriminate. }
      split; [split; [congruence | contradiction]|].
      split; [|auto].
      intros i _ _ Hi. apply Hix in Hi. destruct Hi as (Hi & _). discriminate. }
  destruct (bool_decide (Some player = Drawer l) && (0 <? Z.of_nat (length (WordChoice l)))
            && (0 <=? i) && (i <=? 2)) eqn:Ec.
  - apply andb_prop in Ec as (Ec & H2). apply andb_prop in Ec as (Ec & H0).
    apply andb_prop in Ec as (Hd & Hlen).
    apply bool_decide_eq_true in Hd. apply Z.ltb_lt in Hlen.
    apply Z.leb_le in H0. apply Z.leb_le in H2.
    assert (Hne : WordChoice l <> []).
    { intros E. rewrite E in Hlen. simpl in Hlen. lia. }
    destruct Hthree as [E|Hthree]; [contradiction|].
    assert (Hlook : is_Some (WordChoice l !! Z.to_nat i)).
    { apply lookup_lt_is_Some. rewrite Hthree. lia. }
    destruct Hlook as (word & Hword). rewrite Hword.
    eexists. split; [reflexivity|].
    assert (Hh : honored).
    { split; [assumption|]. split; [assumption|]. exists i. apply Hix. auto. }
    assert (Hfields : forall m, WordChoice (emit (WriteAsJSON player "your-turn" DNone)
                                              (triggerWordHintUpdate m)) = WordChoice m).
    { intros m. unfold triggerWordHintUpdate. destruct (String.eqb _ _); reflexivity. }
    split; [split; [auto|]|].
    { intros _ Heq. apply (f_equal WordChoice) in Heq. rewrite Hfields in Heq.
      simpl in Heq. congruence. }
    split; [|contradiction].
    intros i' _ _ Hi'. apply Hix in Hi'. destruct Hi' as ([= <-] & _).
    destruct (createWordHintFor_fields word) as (F1 & F2 & F3).
    exists word, (createWordHintFor word false), (createWordHintFor word true).
    split; [assumption|].
    unfold triggerWordHintUpdate. destruct (String.eqb _ _); simpl; auto 10.
  - exists l. split; [reflexivity|].
    assert (Hn : ~ honored).
    { intros (Hd & Hne & i' & Hi'). apply Hix in Hi'. destruct Hi' as ([= <-] & H0 & H2).
      apply Z.leb_le in H0. apply Z.leb_le in H2.
      assert (Hlen : (0 <? Z.of_nat (length (WordChoice l))) = true).
      { apply Z.ltb_lt. destruct (WordChoice l); [congruence | simpl; lia]. }
      rewrite (bool_decide_eq_true_2 _ Hd), Hlen, H0, H2 in Ec. discriminate. }
    split; [split; [congruence | contradiction]|].
    split; [|auto].
    intros i' Hd Hne Hi'. exfalso. apply Hn. split; [assumption|]. split; [assumption|].
    exists i'. exact Hi'.
Qed.

(** C9, witness: ann (0), the drawer, chooses the second of three words with
    the payload 1.0; bob (1) tries the same. *)
Lemma C9_choose_word_witness :
  let l := set_WordChoice ["apple"; "boat"; "cloud"]
             (sampleLobby [0; 1; 2; 3]%nat (Some 0%nat) "" fourPlayers) in
  (exists l' hints shown,
     HandleEvent_chooseWord (VFloat 1) l 0%nat = Done l' /\
     CurrentWord l' = "boat" /\ WordChoice l' = [] /\
     WordHints l' = Some hints /\ WordHintsShown l' = Some shown /\
     map Character hints = [0; 0; 0; 0] /\ map Character shown = [98; 111; 97; 116]) /\
  HandleEvent_chooseWord (VFloat 1) l 1%nat = Done l.
Proof.
  intros l. split.
  - destruct (C9_choose_word (VFloat 1) l 0%nat) as (l' & E & _ & H & _).
    + right. reflexivity.
    + destruct (H 1) as (word & hints & shown & Hw & Hc & Hn & Hh & Hs & C1 & C2 & _).
      * reflexivity.
      * discriminate.
      * right. exists 1%Q. split; [reflexivity|]. split; [split; reflexivity|].
        right. split; [discriminate|]. split; [discriminate | reflexivity].
      * assert (word = "boat") as -> by (simpl in Hw; congruence).
        exists l', hints, shown. split; [assumption|]. split; [assumption|].
        split; [assumption|]. split; [assumption|]. split; [assumption|].
        split; [exact C1 | exact C2].
  - destruct (C9_choose_word (VFloat 1) l 1%nat) as (l' & E & _ & _ & H).
    + right. reflexivity.
    + destruct H as (-> & _); [|assumption].
      intros (Hd & _). discriminate.
Defined.

(** C9, counterexample: the drawer sends the payloads [-0.5] and [2.99],
    neither of them an index from 0 to 2. Both events are honored: the
    first makes the first candidate the word, the second the third. *)
Lemma C9_fraction_is_honored :
  let l := set_WordChoice ["apple"; "boat"; "cloud"]
             (sampleLobby [0; 1; 2; 3]%nat (Some 0%nat) "" fourPlayers) in
  ~ (0 <= -1 # 2)%Q /\ ~ (299 # 100 <= 2)%Q /\
  (forall i : Z, (-1 # 2 == inject_Z i)%Q -> False) /\
  CurrentWord l = "" /\
  obtains (HandleEvent_chooseWord (VFloat (-1 # 2)) l 0%nat)
          (fun l' => CurrentWord l' = "apple" /\ WordChoice l' = []) /\
  obtains (HandleEvent_chooseWord (VFloat (299 # 100)) l 0%nat)
          (fun l' => CurrentWord l' = "cloud" /\ WordChoice l' = []).
Proof.
  intros l. split; [intros H; now apply H|]. split; [intros H; now apply H|].
  split.
  { intros i H. unfold Qeq in H. simpl in H. lia. }
  split; [reflexivity|].
  split; vm_compute; split; reflexivity.
Qed.

(** ** Renaming *)

Lemma length_append (a b : string) :
  String.length (a +:+ b) = (String.length a + String.length b)%nat.
Proof. induction a as [|c a IH]; simpl; [reflexivity | now rewrite IH]. Qed.

Lemma escapeChar_length c : (1 <= String.length (escapeChar c))%nat.
Proof. destruct c as [[] [] [] [] [] [] [] []]; vm_compute; lia. Qed.

(** Escaping keeps a string non-empty, and empty. *)
Lemma EscapeString_empty s : len (EscapeString s) = 0 <-> s = "".
Proof.
  unfold len. destruct s as [|c s]; simpl; [tauto|].
  rewrite length_append. pose proof (escapeChar_length c).
  split; [lia | discriminate].
Qed.

Lemma substring_prefix_length s : forall n,
  (n <= String.length s)%nat -> String.length (substring 0 n s) = n.
Proof.
  induction s as [|c s IH]; intros [|n] H; simpl in *; try reflexivity; try lia.
  rewrite IH by lia. reflexivity.
Qed.

Section Rename.

Variable TrimSpace : string -> string.

(** C10. A rename with no argument, or with arguments that are blank once
    joined and trimmed, gives the caller the generated name. Otherwise the
    joined arguments are trimmed and HTML-escaped; an escaped name of more
    than 30 bytes is cut to its first 31 bytes. *)
Theorem C10_rename generated caller l command rest :
  let joined := TrimSpace (Join rest " ") in
  let escaped := EscapeString joined in
  exists l',
    commandNick TrimSpace generated caller l (command :: rest) = Done l' /\
    (rest = [] \/ joined = "" -> Name (mem l' caller) = generated) /\
    (rest <> [] -> joined <> "" ->
     Name (mem l' caller) = (if 30 <? len escaped then substring 0 31 escaped else escaped) /\
     (len escaped <= 30 -> Name (mem l' caller) = escaped) /\
     (30 < len escaped -> len (Name (mem l' caller)) = 31)).
Proof.
  intros joined escaped. unfold commandNick.
  destruct rest as [|a rest].
  - eexists. split; [reflexivity|]. simpl. rewrite update_same. simpl.
    split; [reflexivity | congruence].
  - fold joined. fold escaped.
    destruct (len escaped =? 0) eqn:E0.
    + apply Z.eqb_eq, EscapeString_empty in E0.
      eexists. split; [reflexivity|]. simpl. rewrite update_same. simpl.
      split; [reflexivity | intros _ H; contradiction].
    + apply Z.eqb_neq in E0.
      assert (Hj : joined <> "") by (intros H; apply E0, EscapeString_empty; exact H).
      destruct (30 <? len escaped) eqn:E30.
      * apply Z.ltb_lt in E30. unfold slicePrefix.
        assert (H31 : (31 <=? String.length escaped)%nat = true).
        { apply Nat.leb_le. unfold len in E30. lia. }
        rewrite H31. simpl. eexists. split; [reflexivity|]. simpl. rewrite update_same. simpl.
        split; [intros [H|H]; [discriminate | contradiction]|].
        intros _ _. split; [reflexivity|]. split; [lia|].
        intros _. unfold len. rewrite substring_prefix_length; [reflexivity|].
        unfold len in E30. lia.
      * apply Z.ltb_ge in E30. simpl. eexists. split; [reflexivity|]. simpl.
        rewrite update_same. simpl.
        split; [intros [H|H]; [discriminate | contradiction]|].
        intros _ _. split; [reflexivity|]. split; [reflexivity | lia].
Qed.

End Rename.

(** C10, witness: a plain name, a blank one, and one that escaping makes
    32 bytes long, of which the last is cut. *)
Lemma C10_rename_witness :
  let l := sampleLobby [0; 1; 2; 3]%nat (Some 0%nat) "apple" fourPlayers in
  (exists l', commandNick trimASCII "QuietlyBraveOtter" 1%nat l ["nick"; "Bob"; "B"] = Done l' /\
              Name (mem l' 1%nat) = "Bob B") /\
  (exists l', commandNick trimASCII "QuietlyBraveOtter" 1%nat l ["nick"; " "] = Done l' /\
              Name (mem l' 1%nat) = "QuietlyBraveOtter") /\
  (exists l', commandNick trimASCII "QuietlyBraveOtter" 1%nat l ["nick"; "<<<<<<<<"] = Done l' /\
              Name (mem l' 1%nat) = "&lt;&lt;&lt;&lt;&lt;&lt;&lt;&lt" /\
              len (Name (mem l' 1%nat)) = 31).
Proof.
  intros l. repeat split.
  - destruct (C10_rename trimASCII "QuietlyBraveOtter" 1%nat l "nick" ["Bob"; "B"])
      as (l' & E & _ & H).
    destruct H as (H & _); [discriminate | vm_compute; discriminate |].
    exists l'. split; [exact E | exact H].
  - destruct (C10_rename trimASCII "QuietlyBraveOtter" 1%nat l "nick" [" "])
      as (l' & E & H & _).
    exists l'. split; [exact E | apply H; right; reflexivity].
  - destruct (C10_rename trimASCII "QuietlyBraveOtter" 1%nat l "nick" ["<<<<<<<<"])
      as (l' & E & _ & H).
    destruct H as (H & _ & H31); [discriminate | vm_compute; discriminate |].
    exists l'. split; [exact E|]. split; [exact H|].
    apply H31. vm_compute. reflexivity.
Defined.

(** * Further properties *)

(** ** Ranks *)

Lemma playersThatAreHigher_ext m m' ps a :
  (forall q, Score (m q) = Score (m' q)) ->
  playersThatAreHigher m ps a = playersThatAreHigher m' ps a.
Proof.
  intros H. unfold playersThatAreHigher. f_equal. f_equal.
  induction ps as [|b ps IH]; simpl; [reflexivity|].
  assert (E : (Score (m a) <? Score (m b)) = (Score (m' a) <? Score (m' b)))
    by (rewrite !H; reflexivity).
  rewrite E, IH. reflexivity.
Qed.

Lemma fold_update_notin (body : (ptr -> Player) -> ptr -> Player -> Player) ps : forall m q,
  q ∉ ps -> foldl (fun m a => update m a (body m a)) m ps q = m q.
Proof.
  induction ps as [|a ps IH]; intros m q Hq; simpl; [reflexivity|].
  rewrite IH by (intros H; apply Hq; now right).
  apply update_other. intros ->. apply Hq. left.
Qed.

Lemma rank_fold m0 all ps : forall m q,
  (forall x, Score (m x) = Score (m0 x)) -> q ∈ ps ->
  Rank (foldl (fun m a => update m a (set_Rank (int64 (playersThatAreHigher m all a + 1))))
              m ps q)
  = int64 (playersThatAreHigher m0 all q + 1).
Proof.
  induction ps as [|a ps IH]; intros m q Hm Hq; simpl; [inversion Hq|].
  set (m1 := update m a (set_Rank (int64 (playersThatAreHigher m all a + 1)))).
  assert (Hm1 : forall x, Score (m1 x) = Score (m0 x)).
  { intros x. unfold m1, update. destruct (decide (x = a)); simpl; apply Hm. }
  destruct (decide (q ∈ ps)) as [Hin|Hout].
  - now apply IH.
  - assert (q = a) as -> by (inversion Hq; subst; [reflexivity | contradiction]).
    rewrite (fold_update_notin
               (fun m a => set_Rank (int64 (playersThatAreHigher m all a + 1)))) by assumption.
    unfold m1. rewrite update_same. simpl.
    rewrite (playersThatAreHigher_ext m m0 all a Hm). reflexivity.
Qed.

Lemma recalculateRanks_rank l a :
  a ∈ Players l ->
  Rank (mem (recalculateRanks l) a) =
    int64 (Z.of_nat (length (List.filter (fun b => Score (mem l a) <? Score (mem l b))
                                         (Players l))) + 1).
Proof.
  intros Ha. unfold recalculateRanks. simpl.
  rewrite (rank_fold (mem l) (Players l) (Players l) (mem l) a); auto.
Qed.

(** X1. After [recalculateRanks] the rank of every player of the lobby is
    one more than the number of entries of the player list with a strictly
    greater score; no score is changed. *)
Theorem X1_rank_counts_higher_scores l a :
  a ∈ Players l ->
  Rank (mem (recalculateRanks l) a) =
    int64 (Z.of_nat (length (List.filter (fun b => Score (mem l a) <? Score (mem l b))
                                         (Players l))) + 1) /\
  (forall q, Score (mem (recalculateRanks l) q) = Score (mem l q)) /\
  Players (recalculateRanks l) = Players l.
Proof.
  intros Ha. split; [|split].
  - now apply recalculateRanks_rank.
  - intros q. apply (recalculateRanks_keeps Score). reflexivity.
  - reflexivity.
Qed.

Lemma X1_rank_counts_higher_scores_witness :
  let m := fun p => match p with
                    | 0%nat => newPlayer "ann" Drawing 40 0
                    | 1%nat => newPlayer "bob" Guessing 70 0
                    | _ => newPlayer "cat" Guessing 40 0
                    end in
  let l := sampleLobby [0; 1; 2]%nat (Some 0%nat) "" m in
  Rank (mem (recalculateRanks l) 0%nat) = 2 /\ Rank (mem (recalculateRanks l) 1%nat) = 1.
Proof.
  intros m l. split.
  - destruct (X1_rank_counts_higher_scores l 0%nat) as (H & _).
    + apply list_elem_of_In. simpl. auto.
    + rewrite H. reflexivity.
  - destruct (X1_rank_counts_higher_scores l 1%nat) as (H & _).
    + apply list_elem_of_In. simpl. auto.
    + rewrite H. reflexivity.
Defined.

Lemma filter_length_le {A : Type} (f g : A -> bool) (xs : list A) :
  (forall x, f x = true -> g x = true) ->
  (length (List.filter f xs) <= length (List.filter g xs))%nat.
Proof.
  intros H. induction xs as [|x xs IH]; simpl; [lia|].
  destruct (f x) eqn:Ef.
  - rewrite (H x Ef). simpl. lia.
  - destruct (g x); simpl; lia.
Qed.

Lemma filter_length_bound {A : Type} (f : A -> bool) (xs : list A) :
  (length (List.filter f xs) <= length xs)%nat.
Proof. induction xs as [|x xs IH]; simpl; [lia|]. destruct (f x); simpl; lia. Qed.

(** X2. Ranks follow the scores: of two players of the lobby the one with
    the greater or equal score has the smaller or equal rank, so equal
    scores share a rank; a player whom nobody outscores has rank 1; every
    rank lies between 1 and the number of players. *)
Theorem X2_ranks_are_ordered_by_score l a b :
  Z.of_nat (length (Players l)) < 2 ^ 63 - 1 ->
  a ∈ Players l -> b ∈ Players l ->
  let l' := recalculateRanks l in
  (Score (mem l b) <= Score (mem l a) -> Rank (mem l' a) <= Rank (mem l' b)) /\
  (Score (mem l a) = Score (mem l b) -> Rank (mem l' a) = Rank (mem l' b)) /\
  ((forall q, q ∈ Players l -> Score (mem l q) <= Score (mem l a)) -> Rank (mem l' a) = 1) /\
  1 <= Rank (mem l' a) <= Z.of_nat (length (Players l)).
Proof.
  intros Hlen Ha Hb l'.
  pose proof (recalculateRanks_rank l a Ha) as Ra.
  pose proof (recalculateRanks_rank l b Hb) as Rb.
  fold l' in Ra, Rb. rewrite Ra, Rb.
  set (higher := fun x => List.filter (fun y => Score (mem l x) <? Score (mem l y)) (Players l)).
  fold (higher a). fold (higher b).
  assert (Hbound : forall x, (length (higher x) <= length (Players l))%nat)
    by (intros x; apply filter_length_bound).
  assert (Hsmall : forall x, int64 (Z.of_nat (length (higher x)) + 1) =
                             Z.of_nat (length (higher x)) + 1).
  { intros x. apply int64_small. unfold inInt64. specialize (Hbound x). lia. }
  rewrite !Hsmall.
  assert (Hmono : forall x y, Score (mem l y) <= Score (mem l x) ->
                              (length (higher x) <= length (higher y))%nat).
  { intros x y Hxy. apply filter_length_le. intros z Hz.
    apply Z.ltb_lt in Hz. apply Z.ltb_lt. lia. }
  split; [|split; [|split]].
  - intros H. specialize (Hmono a b H). lia.
  - intros H. pose proof (Hmono a b). pose proof (Hmono b a). lia.
  - intros Htop. assert (Hnone : higher a = []).
    { unfold higher. clear -Htop. induction (Players l) as [|q ps IH]; [reflexivity|].
      simpl. destruct (Score (mem l a) <? Score (mem l q)) eqn:E.
      - apply Z.ltb_lt in E. specialize (Htop q). assert (q ∈ q :: ps) by left. intuition lia.
      - apply IH. intros x Hx. apply Htop. now right. }
    rewrite Hnone. reflexivity.
  - assert (Hself : (length (higher a) < length (Players l))%nat).
    { unfold higher. clear -Ha. induction (Players l) as [|q ps IH]; [inversion Ha|].
      simpl. inversion Ha; subst.
      - rewrite Z.ltb_irrefl. pose proof (filter_length_bound
          (fun y => Score (mem l q) <? Score (mem l y)) ps). lia.
      - specialize (IH H1). destruct (_ <? _); simpl; lia. }
    lia.
Qed.

Lemma X2_ranks_are_ordered_by_score_witness :
  let m := fun p => match p with
                    | 0%nat => newPlayer "ann" Drawing 40 0
                    | 1%nat => newPlayer "bob" Guessing 70 0
                    | _ => newPlayer "cat" Guessing 40 0
                    end in
  let l := recalculateRanks (sampleLobby [0; 1; 2]%nat (Some 0%nat) "" m) in
  Rank (mem l 1%nat) <= Rank (mem l 0%nat) /\ Rank (mem l 0%nat) = Rank (mem l 2%nat).
Proof.
  intros m l.
  assert (H0 : 0%nat ∈ [0; 1; 2]%nat) by (apply list_elem_of_In; simpl; auto).
  assert (H1 : 1%nat ∈ [0; 1; 2]%nat) by (apply list_elem_of_In; simpl; auto).
  assert (H2 : 2%nat ∈ [0; 1; 2]%nat) by (apply list_elem_of_In; simpl; auto).
  assert (Hlen : Z.of_nat (length [0; 1; 2]%nat) < 2 ^ 63 - 1) by (vm_compute; reflexivity).
  split.
  - destruct (X2_ranks_are_ordered_by_score
                (sampleLobby [0; 1; 2]%nat (Some 0%nat) "" m) 1%nat 0%nat Hlen H1 H0)
      as (H & _).
    apply H. vm_compute. discriminate.
  - destruct (X2_ranks_are_ordered_by_score
                (sampleLobby [0; 1; 2]%nat (Some 0%nat) "" m) 0%nat 2%nat Hlen H0 H2)
      as (_ & H & _).
    apply H. reflexivity.
Defined.

(** ** Turns *)

Section MoreTurns.

Variable GetRandomWords : Lobby -> list string.

Lemma resetForTurn_more l :
  Players (resetForTurn l) = Players l /\ MaxRounds (resetForTurn l) = MaxRounds l /\
  Owner (resetForTurn l) = Owner l /\
  (forall q, Connected (mem (resetForTurn l) q) = Connected (mem l q)) /\
  (forall q, q ∈ Players l -> State (mem (resetForTurn l) q) = Guessing).
Proof.
  unfold resetForTurn, ClearDrawing.
  assert (E : forall m, Players m = Players l ->
            (forall q, Connected (mem (forPlayers (fun p => set_votedForKick ∅ (set_State Guessing p)) m) q)
                       = Connected (mem m q)) /\
            (forall q, q ∈ Players l ->
                       State (mem (forPlayers (fun p => set_votedForKick ∅ (set_State Guessing p)) m) q)
                       = Guessing)).
  { intros m Hm. split; intros q.
    - apply (forPlayers_keeps Connected). reflexivity.
    - intros Hq. rewrite forPlayers_in; [reflexivity | reflexivity | now rewrite Hm]. }
  destruct (timeLeftTicker l); simpl;
    (split; [reflexivity|]; split; [reflexivity|]; split; [reflexivity|]; apply E; reflexivity).
Qed.

Lemma startTurn_State now d m q :
  State (mem (startTurn GetRandomWords now d m) q) =
  if decide (q = d) then Drawing else State (mem m q).
Proof.
  unfold startTurn. simpl.
  rewrite (fold_update_keeps State
             (fun m0 a => set_Rank (int64 (playersThatAreHigher m0 _ a + 1)))) by reflexivity.
  unfold update. destruct (decide (q = d)); reflexivity.
Qed.

Lemma scanConnected_cases m ps : forall d0 d,
  scanConnected m ps (Some d0) = Some d -> d = d0 \/ d ∈ ps.
Proof.
  induction ps as [|a ps IH]; intros d0 d H; simpl in H.
  - injection H as ->. now left.
  - destruct (decide (Some a = Some d0)) as [E|_].
    + injection H as <-. now left.
    + destruct (negb (Connected (m a))).
      * destruct (IH _ _ H) as [->|Hin]; [now left | right; now right].
      * destruct (IH _ _ H) as [->|Hin]; [right; left | right; now right].
Qed.

(** The outcomes of [advanceLobby]: the game is over, or a turn starts for
    a drawer found in one of four ways. *)
Lemma advanceLobby_cases now l l' :
  advanceLobby GetRandomWords now l = Done l' ->
  (Drawer l' = None /\ Round l' = 0 /\
   (exists d0, Drawer l = Some d0 /\ last (Players l) = Some d0) /\
   Round l = MaxRounds l /\
   forall q, State (mem l' q) = State (mem (resetForTurn l) q))
  \/
  (exists d,
     Drawer l' = Some d /\
     (forall q, State (mem l' q) =
                if decide (q = d) then Drawing else State (mem (resetForTurn l) q)) /\
     ((Drawer l = None /\ Players l !! 0%nat = Some d /\ Round l' = int64 (Round l + 1)) \/
      (exists d0, Drawer l = Some d0 /\ last (Players l) = Some d0 /\
                  Round l <> MaxRounds l /\ Players l !! 0%nat = Some d /\
                  Round l' = int64 (Round l + 1)) \/
      (exists d0, Drawer l = Some d0 /\ last (Players l) <> Some d0 /\
                  (d ∈ Players l \/ (d = d0 /\ d0 ∉ Players l)) /\
                  Round l' = Round l))).
Proof.
  intros E. unfold advanceLobby in E.
  destruct (resetForTurn_fields l) as (RD & RR & _).
  destruct (resetForTurn_more l) as (RP & RM & _ & _ & _).
  remember (resetForTurn l) as r eqn:Er. clear Er.
  rewrite RD, RP, RR, RM in E.
  destruct (Drawer l) as [d0|] eqn:Hd.
  - destruct (last (Players l)) as [lp|] eqn:Hl; [|discriminate].
    destruct (decide (d0 = lp)) as [<-|Hne].
    + destruct (Round l =? MaxRounds l) eqn:Hr.
      * injection E as <-. left. apply Z.eqb_eq in Hr.
        split; [reflexivity|]. split; [reflexivity|]. split; [eauto|]. split; [assumption|].
        intros q. simpl.
        apply (fold_update_keeps State
                 (fun m0 a => set_Rank (int64 (playersThatAreHigher m0 _ a + 1)))).
        reflexivity.
      * destruct (Players l !! 0%nat) as [p0|] eqn:H0; [|discriminate].
        injection E as <-. right. exists p0. apply Z.eqb_neq in Hr.
        split; [reflexivity|]. split; [intros q; rewrite startTurn_State; reflexivity|].
        right. left. exists d0. rewrite startTurn_Round. simpl. auto 10.
    + unfold selectNextDrawer in E. rewrite RD, RP in E.
      destruct (indexWhere _ (Players l)) as [i|] eqn:Hi.
      * destruct (Players l !! S i) as [next|] eqn:Hn; [|discriminate].
        simpl in E. injection E as <-. right. exists next.
        split; [reflexivity|]. split; [intros q; rewrite startTurn_State; reflexivity|].
        right. right. exists d0. rewrite startTurn_Round. simpl.
        split; [reflexivity|]. split; [congruence|].
        split; [left; eapply list_elem_of_lookup_2; eassumption | assumption].
      * destruct (scanConnected (mem r) (Players l) (Some d0)) as [d|] eqn:Hs.
        2:{ simpl in E. discriminate. }
        simpl in E. injection E as <-. right. exists d.
        split; [reflexivity|]. split; [intros q; rewrite startTurn_State; reflexivity|].
        right. right. exists d0. rewrite startTurn_Round. simpl.
        split; [reflexivity|]. split; [congruence|]. split; [|assumption].
        destruct (scanConnected_cases _ _ _ _ Hs) as [->|Hin]; [|now left].
        destruct (decide (d0 ∈ Players l)) as [Hin|Hout]; [now left | right; auto].
  - destruct (Players l !! 0%nat) as [p0|] eqn:H0; [|discriminate].
    injection E as <-. right. exists p0.
    split; [reflexivity|]. split; [intros q; rewrite startTurn_State; reflexivity|].
    left. rewrite startTurn_Round. simpl. auto.
Qed.

(** X3. When [advanceLobby] has returned, the drawer, if there is one, is
    in state Drawing and every other player of the lobby is in state
    Guessing; after the end of the game every player is Guessing. So at
    most one player of the lobby is Drawing, and it is the drawer. *)
Theorem X3_only_the_drawer_is_drawing now l l' :
  advanceLobby GetRandomWords now l = Done l' ->
  match Drawer l' with
  | Some d => State (mem l' d) = Drawing /\
              forall q, q ∈ Players l' -> q <> d -> State (mem l' q) = Guessing
  | None => forall q, q ∈ Players l' -> State (mem l' q) = Guessing
  end.
Proof.
  intros E.
  assert (HP : Players l' = Players l).
  { destruct (Players l) as [|p0 ps] eqn:EP.
    - exfalso. unfold advanceLobby in E.
      destruct (resetForTurn_more l) as (RP & _). rewrite EP in RP.
      destruct (Drawer (resetForTurn l)); rewrite RP in E; simpl in E; discriminate.
    - destruct (advanceLobby_done GetRandomWords now l) as (l2 & E2 & K); [congruence|].
      rewrite E in E2. injection E2 as <-. rewrite <- EP. apply K. }
  destruct (resetForTurn_more l) as (_ & _ & _ & _ & HG).
  destruct (advanceLobby_cases now l l' E) as [(Hd & _ & _ & _ & HS)|(d & Hd & HS & _)];
    rewrite Hd.
  - intros q Hq. rewrite HS. apply HG. now rewrite <- HP.
  - split.
    + rewrite HS. destruct (decide (d = d)); congruence.
    + intros q Hq Hne. rewrite HS. destruct (decide (q = d)); [contradiction|].
      apply HG. now rewrite <- HP.
Qed.

(** X4. [advanceLobby] keeps the round counter within [0, MaxRounds], at 0
    exactly while there is no drawer; it returns whenever the lobby has a
    player. *)
Theorem X4_round_stays_within_bounds now l :
  Players l <> [] -> roundInv l ->
  exists l', advanceLobby GetRandomWords now l = Done l' /\ roundInv l'.
Proof.
  intros Hne ((HM1 & HM2) & HR).
  destruct (advanceLobby_done GetRandomWords now l Hne) as (l' & E & K).
  exists l'. split; [assumption|].
  unfold roundInv. rewrite (keeps_MaxRounds _ _ K). split; [lia|].
  destruct (advanceLobby_cases now l l' E)
    as [(Hd & Hr & _)|(d & Hd & _ & [(Hn & _ & Hr)|[(d0 & H0 & _ & Hne' & _ & Hr)|(d0 & H0 & _ & _ & Hr)]])];
    rewrite Hd.
  - assumption.
  - rewrite Hn in HR. rewrite Hr, HR. rewrite int64_small by (unfold inInt64; lia). lia.
  - rewrite H0 in HR. rewrite Hr. rewrite int64_small by (unfold inInt64; lia). lia.
  - rewrite H0 in HR. rewrite Hr. assumption.
Qed.

(** X5. A drawer who is a player of the lobby is followed by a player of
    the lobby, or by nobody when the game ends: [advanceLobby] never leaves
    the drawer outside the player list unless it found it there. *)
Theorem X5_drawer_stays_in_the_lobby now l l' :
  (forall d0, Drawer l = Some d0 -> d0 ∈ Players l) ->
  advanceLobby GetRandomWords now l = Done l' ->
  forall d, Drawer l' = Some d -> d ∈ Players l'.
Proof.
  intros Hin E d Hd.
  assert (HP : Players l' = Players l).
  { destruct (Players l) as [|p0 ps] eqn:EP.
    - exfalso. unfold advanceLobby in E.
      destruct (resetForTurn_more l) as (RP & _). rewrite EP in RP.
      destruct (Drawer (resetForTurn l)); rewrite RP in E; simpl in E; discriminate.
    - destruct (advanceLobby_done GetRandomWords now l) as (l2 & E2 & K); [congruence|].
      rewrite E in E2. injection E2 as <-. rewrite <- EP. apply K. }
  rewrite HP.
  destruct (advanceLobby_cases now l l' E)
    as [(Hd' & _)|(d' & Hd' & _ & [(_ & H0 & _)|[(d0 & _ & _ & _ & H0 & _)|(d0 & H0 & _ & Hc & _)]])];
    rewrite Hd' in Hd; try discriminate; injection Hd as <-.
  - eapply list_elem_of_lookup_2; eassumption.
  - eapply list_elem_of_lookup_2; eassumption.
  - destruct Hc as [Hc|(-> & Hout)]; [assumption|]. exfalso. apply Hout. now apply Hin.
Qed.

End MoreTurns.

Lemma X3_only_the_drawer_is_drawing_witness :
  let l := sampleLobby [0; 1; 2; 3]%nat (Some 0%nat) "" fourPlayers in
  obtains (advanceLobby threeWords 1000 l)
          (fun l' => Drawer l' = Some 1%nat /\ State (mem l' 1%nat) = Drawing /\
                     State (mem l' 0%nat) = Guessing).
Proof.
  intros l.
  assert (O : obtains (advanceLobby threeWords 1000 l)
                (fun x => Drawer x = Some 1%nat /\ Players x = [0; 1; 2; 3]%nat))
    by (vm_compute; split; reflexivity).
  destruct (advanceLobby threeWords 1000 l) as [l'| |] eqn:E; simpl in O; try contradiction.
  destruct O as (Hd & HP).
  pose proof (X3_only_the_drawer_is_drawing threeWords 1000 l l' E) as H.
  rewrite Hd in H. destruct H as (H1 & H2). simpl.
  split; [assumption|]. split; [assumption|].
  apply H2; [rewrite HP; apply list_elem_of_In; simpl; auto | discriminate].
Defined.

Lemma X4_round_stays_within_bounds_witness :
  let l := sampleLobby [0; 1; 2; 3]%nat (Some 3%nat) "" fourPlayers in
  exists l', advanceLobby threeWords 1000 l = Done l' /\ roundInv l'.
Proof.
  intros l. apply (X4_round_stays_within_bounds threeWords 1000 l).
  - discriminate.
  - unfold roundInv. simpl. lia.
Defined.

Lemma X5_drawer_stays_in_the_lobby_witness :
  let l := sampleLobby [0; 1; 2; 3]%nat (Some 3%nat) "" fourPlayers in
  obtains (advanceLobby threeWords 1000 l)
          (fun l' => Drawer l' = Some 0%nat /\ 0%nat ∈ Players l').
Proof.
  intros l.
  assert (O : obtains (advanceLobby threeWords 1000 l) (fun x => Drawer x = Some 0%nat))
    by (vm_compute; reflexivity).
  destruct (advanceLobby threeWords 1000 l) as [l'| |] eqn:E; simpl in O; try contradiction.
  simpl. split; [exact O|].
  apply (X5_drawer_stays_in_the_lobby threeWords 1000 l l'); [|exact E|exact O].
  intros d0 [= <-]. apply list_elem_of_In. simpl. auto.
Defined.

(** ** The schedule of a whole game *)

Section Schedule.

Variable GetRandomWords : Lobby -> list string.

Lemma bind_Done {A : Type} (r : result A) : bind r Done = r.
Proof. destruct r; reflexivity. Qed.

Lemma advances_app nows1 nows2 l :
  advances GetRandomWords (nows1 ++ nows2) l =
  bind (advances GetRandomWords nows1 l) (advances GetRandomWords nows2).
Proof.
  revert l. induction nows1 as [|now nows1 IH]; intros l; simpl; [reflexivity|].
  destruct (advanceLobby GetRandomWords now l); simpl; auto.
Qed.

Lemma advances_snoc nows now l :
  advances GetRandomWords (nows ++ [now]) l =
  bind (advances GetRandomWords nows l) (advanceLobby GetRandomWords now).
Proof.
  rewrite advances_app. destruct (advances GetRandomWords nows l); simpl; auto.
  apply bind_Done.
Qed.

Lemma NoDup_at (ps : list ptr) i d :
  NoDup ps -> ps !! i = Some d -> (d ∉ take i ps) /\ (d ∉ drop (S i) ps).
Proof.
  intros Hnd Hi. rewrite <- (take_drop_middle ps i d Hi) in Hnd.
  apply NoDup_app in Hnd as (_ & Hsep & Hrest).
  apply NoDup_cons in Hrest as (Hout & _).
  split; [|assumption]. intros Hin. apply (Hsep d Hin). left.
Qed.

(** While the game runs, the [k]-th call of [advanceLobby] gives the turn
    to player [(k - 1) mod n] in round [(k - 1) / n + 1]. *)
Lemma schedule_running (rounds : nat) l :
  NoDup (Players l) -> Players l <> [] -> Drawer l = None -> Round l = 0 ->
  MaxRounds l = Z.of_nat rounds -> Z.of_nat rounds < 2 ^ 63 ->
  forall nows,
    (1 <= length nows <= length (Players l) * rounds)%nat ->
    exists l',
      advances GetRandomWords nows l = Done l' /\ keeps l l' /\
      Drawer l' = Players l !! ((length nows - 1) mod length (Players l))%nat /\
      Round l' = Z.of_nat ((length nows - 1) / length (Players l)) + 1.
Proof.
  intros Hnd Hne Hd Hr Hm Hsmall.
  set (ps := Players l) in *. set (n := length ps).
  assert (Hn : (0 < n)%nat) by (unfold n; destruct ps; [congruence | simpl; lia]).
  induction nows as [|now nows IH] using rev_ind; intros Hk; [simpl in Hk; lia|].
  rewrite length_app in Hk. simpl in Hk. rewrite advances_snoc, length_app. simpl.
  replace (length nows + 1 - 1)%nat with (length nows) by lia.
  destruct (length nows) as [|j] eqn:Ej.
  - apply length_zero_iff_nil in Ej. subst nows. simpl.
    destruct ps as [|p0 ps'] eqn:Eps; [congruence|].
    destruct (advanceLobby_start GetRandomWords now l p0 ps' Hd Eps) as (l' & E & K & D & R).
    exists l'. split; [assumption|]. split; [assumption|].
    rewrite Nat.Div0.mod_0_l, Nat.Div0.div_0_l. rewrite D, R, Hr. split; reflexivity.
  - destruct IH as (lk & Ek & Kk & Dk & Rk); [lia|].
    rewrite Ek. simpl. replace (S j - 1)%nat with j in Dk, Rk by lia.
    pose proof (Nat.div_mod_eq j n) as Hj.
    pose proof (Nat.mod_upper_bound j n ltac:(lia)) as Hi.
    set (i := (j mod n)%nat) in *. set (q := (j / n)%nat) in *.
    destruct (lookup_lt_is_Some_2 ps i Hi) as (d & Hdi).
    rewrite Hdi in Dk.
    assert (Pk : Players lk = ps) by apply Kk.
    assert (Mk : MaxRounds lk = Z.of_nat rounds) by (rewrite (keeps_MaxRounds _ _ Kk); exact Hm).
    destruct (NoDup_at ps i d Hnd Hdi) as (Hpre & Hpost).
    destruct (decide (S i < n)%nat) as [Hlt|Hge].
    + destruct (lookup_lt_is_Some_2 ps (S i) Hlt) as (next & Hnext).
      assert (Hsplit : ps = (take i ps ++ d :: next :: drop (S (S i)) ps)%list).
      { rewrite <- (drop_S ps next (S i) Hnext). symmetry. now apply take_drop_middle. }
      destruct (advanceLobby_successor GetRandomWords now lk (take i ps) d next
                  (drop (S (S i)) ps) Dk) as (l' & E & K & D & R).
      * rewrite Pk. exact Hsplit.
      * exact Hpre.
      * intros Hlast. apply last_Some_elem_of in Hlast.
        rewrite <- (drop_S ps next (S i) Hnext) in Hlast. contradiction.
      * exists l'. split; [assumption|]. split; [exact (keeps_trans _ _ _ Kk K)|].
        rewrite D, R, Rk.
        assert (Hmod : S i = (S j mod n)%nat) by (apply (Nat.mod_unique _ _ q); lia).
        assert (Hdiv : q = (S j / n)%nat) by (apply (Nat.div_unique _ _ _ (S i)); lia).
        rewrite <- Hmod, <- Hdiv. split; [symmetry; assumption | reflexivity].
    + assert (Hlast : last (Players lk) = Some d).
      { rewrite Pk, last_lookup. replace (pred (length ps)) with i by (fold n; lia). exact Hdi. }
      destruct ps as [|p0 ps'] eqn:Eps; [congruence|].
      destruct (advanceLobby_next_round GetRandomWords now lk d p0 ps' Dk Pk Hlast)
        as (l' & E & K & D & R).
      * rewrite Rk, Mk. fold n in Hk. nia.
      * exists l'. split; [assumption|]. split; [exact (keeps_trans _ _ _ Kk K)|].
        rewrite D, R, Rk.
        assert (Hmod : 0%nat = (S j mod n)%nat) by (apply (Nat.mod_unique _ _ (S q)); lia).
        assert (Hdiv : S q = (S j / n)%nat) by (apply (Nat.div_unique _ _ _ 0%nat); lia).
        rewrite <- Hmod, <- Hdiv. split; [reflexivity|].
        rewrite int64_small; [lia|]. unfold inInt64. fold n in Hk. nia.
Qed.

(** X6. A game of [rounds] rounds with [n] players, all different, started
    from NoGame: the [k]-th call of [advanceLobby], for [k] up to
    [n * rounds], gives the turn to the player at position [(k - 1) mod n]
    of the list, in round [(k - 1) / n + 1]; the call after that ends the
    game. Every call returns. *)
Theorem X6_game_schedule (rounds : nat) l nows :
  NoDup (Players l) -> Players l <> [] -> Drawer l = None -> Round l = 0 ->
  MaxRounds l = Z.of_nat rounds -> (1 <= rounds)%nat -> Z.of_nat rounds < 2 ^ 63 ->
  let n := length (Players l) in
  let k := length nows in
  ((1 <= k <= n * rounds)%nat ->
   exists l',
     advances GetRandomWords nows l = Done l' /\ keeps l l' /\
     Drawer l' = Players l !! ((k - 1) mod n)%nat /\
     Round l' = Z.of_nat ((k - 1) / n) + 1) /\
  (k = (n * rounds + 1)%nat ->
   exists l',
     advances GetRandomWords nows l = Done l' /\ keeps l l' /\
     Drawer l' = None /\ Round l' = 0 /\ timeLeftTicker l' = None).
Proof.
  intros Hnd Hne Hd Hr Hm Hrounds Hsmall n k. split.
  - apply (schedule_running rounds l Hnd Hne Hd Hr Hm Hsmall).
  - intros Hk. unfold k in Hk.
    assert (Hn : (0 < n)%nat) by (unfold n; destruct (Players l); [congruence | simpl; lia]).
    destruct nows as [|now nows _] using rev_ind; [simpl in Hk; lia|].
    rewrite length_app in Hk. simpl in Hk. rewrite advances_snoc.
    destruct (schedule_running rounds l Hnd Hne Hd Hr Hm Hsmall nows)
      as (lk & Ek & Kk & Dk & Rk); [fold n; nia|].
    rewrite Ek. simpl.
    assert (Hlen : length nows = (n * rounds)%nat) by lia.
    assert (Hmod : (n - 1)%nat = ((length nows - 1) mod n)%nat).
    { apply (Nat.mod_unique _ _ (rounds - 1)); [lia|]. rewrite Hlen. nia. }
    assert (Hdiv : (rounds - 1)%nat = ((length nows - 1) / n)%nat).
    { apply (Nat.div_unique _ _ _ (n - 1)%nat); [lia|]. rewrite Hlen. nia. }
    fold n in Dk, Rk. rewrite <- Hmod in Dk. rewrite <- Hdiv in Rk.
    destruct (lookup_lt_is_Some_2 (Players l) (n - 1)%nat ltac:(fold n; lia)) as (d & Hdl).
    rewrite Hdl in Dk.
    destruct (advanceLobby_game_over GetRandomWords now lk d Dk)
      as (l' & E & K & D & R & T & _).
    + rewrite (keeps_Players _ _ Kk), last_lookup.
      replace (pred (length (Players l))) with (n - 1)%nat by (fold n; lia). exact Hdl.
    + rewrite Rk, (keeps_MaxRounds _ _ Kk), Hm. lia.
    + exists l'. split; [assumption|]. split; [exact (keeps_trans _ _ _ Kk K)|]. auto.
Qed.

End Schedule.

Lemma X6_game_schedule_witness :
  let l := {| Players := [1; 2; 3]%nat; Drawer := None; Owner := Some 1%nat; Round := 0;
              MaxRounds := 2; DrawingTime := 60; EnableVotekick := true; CurrentWord := "";
              WordChoice := []; WordHints := None; WordHintsShown := None;
              scoreEarnedByGuessers := 0; alreadyUsedWords := []; RoundEndTime := 0;
              timeLeftTicker := None; CurrentDrawing := []; mem := fourPlayers; sent := [] |} in
  (exists l', advances threeWords [10; 20; 30; 40; 50] l = Done l' /\
              Drawer l' = Some 2%nat /\ Round l' = 2) /\
  (exists l', advances threeWords [10; 20; 30; 40; 50; 60; 70] l = Done l' /\
              Drawer l' = None /\ Round l' = 0).
Proof.
  intros l.
  assert (Hnd : NoDup (Players l)).
  { repeat constructor; intros H; apply list_elem_of_In in H; simpl in H; intuition discriminate. }
  split.
  - destruct (X6_game_schedule threeWords 2 l [10; 20; 30; 40; 50]) as (H & _);
      try reflexivity; try assumption; try discriminate; try lia.
    destruct H as (l' & E & _ & D & R); [simpl; lia|].
    exists l'. split; [exact E|]. split; [exact D | exact R].
  - destruct (X6_game_schedule threeWords 2 l [10; 20; 30; 40; 50; 60; 70]) as (_ & H);
      try reflexivity; try assumption; try discriminate; try lia.
    destruct H as (l' & E & _ & D & R & _); [reflexivity|].
    exists l'. split; [exact E|]. split; [exact D | exact R].
Defined.

(** ** Joining *)

Section Join.

Variable GetRandomWords : Lobby -> list string.

(** X7. [JoinPlayer] puts the newcomer at the end of the player list and
    leaves the order of the others alone. A player who joins during the
    turn of the last player is the next drawer, in the same round, even in
    the last round: the game does not end before the newcomer has drawn. *)
Theorem X7_newcomer_draws_last now l player pre d :
  Players l = (pre ++ [d])%list -> d ∉ pre -> Drawer l = Some d -> player <> d ->
  Players (JoinPlayer player l) = (Players l ++ [player])%list /\
  exists l',
    advanceLobby GetRandomWords now (JoinPlayer player l) = Done l' /\
    Drawer l' = Some player /\ Round l' = Round l /\
    Players l' = (Players l ++ [player])%list.
Proof.
  intros HP Hpre Hd Hne. split; [reflexivity|].
  destruct (advanceLobby_successor GetRandomWords now (JoinPlayer player l) pre d player [])
    as (l' & E & K & D & R).
  - exact Hd.
  - unfold JoinPlayer. simpl. rewrite HP, <- app_assoc. reflexivity.
  - exact Hpre.
  - simpl. congruence.
  - exists l'. split; [assumption|]. split; [assumption|]. split; [assumption|].
    rewrite (keeps_Players _ _ K). reflexivity.
Qed.

End Join.

Lemma X7_newcomer_draws_last_witness :
  let l := set_Round 3 (sampleLobby [0; 1; 2]%nat (Some 2%nat) "" fourPlayers) in
  Round l = MaxRounds l /\
  exists l', advanceLobby threeWords 1000 (JoinPlayer 3%nat l) = Done l' /\
             Drawer l' = Some 3%nat /\ Round l' = 3.
Proof.
  intros l. split; [reflexivity|].
  destruct (X7_newcomer_draws_last threeWords 1000 l 3%nat [0; 1]%nat 2%nat)
    as (_ & l' & E & D & R & _).
  - reflexivity.
  - intros H. apply list_elem_of_In in H. simpl in H. intuition discriminate.
  - reflexivity.
  - discriminate.
  - exists l'. auto.
Defined.

(** ** Vote kicks: the votes that do not kick *)

Section Votes.

Variable GetRandomWords : Lobby -> list string.
Variable intOfInf : Z.

Lemma indexWhere_none test ps :
  (forall q, q ∈ ps -> test q = false) -> indexWhere test ps = None.
Proof.
  induction ps as [|a ps IH]; intros H; simpl; [reflexivity|].
  rewrite (H a) by left. rewrite IH; [reflexivity|]. intros q Hq. apply H. now right.
Qed.

(** X8. A kick vote against oneself, a second vote of the same player
    against the same target, and a vote against an ID that no player of the
    lobby has leave the lobby as it was: no ballot, no event. *)
Theorem X8_vote_rejected now l player toKickID :
  toKickID = ID (mem l player) \/
  hasVoted (mem l player) toKickID = true \/
  (forall q, q ∈ Players l -> ID (mem l q) <> toKickID) ->
  handleKickEvent GetRandomWords intOfInf now l player toKickID = Done l.
Proof.
  intros H. unfold handleKickEvent.
  destruct (String.eqb toKickID (ID (mem l player))) eqn:Eself; [reflexivity|].
  destruct (hasVoted (mem l player) toKickID) eqn:Ev; [reflexivity|].
  destruct H as [H|[H|H]].
  - apply String.eqb_neq in Eself. contradiction.
  - discriminate.
  - rewrite indexWhere_none; [reflexivity|].
    intros q Hq. apply String.eqb_neq. now apply H.
Qed.

Lemma hasVoted_castVote player toKickID l :
  hasVoted (mem (castVote player toKickID l) player) toKickID = true.
Proof.
  unfold castVote, hasVoted. simpl. rewrite update_same. simpl.
  rewrite lookup_insert_eq. reflexivity.
Qed.

(** X9. A vote that does not reach the threshold records the ballot of the
    voter and announces the tally, and that is all: players, drawer, word
    and scores are untouched. The same vote cast again is ignored. *)
Theorem X9_vote_below_threshold now now' l player toKickID toKick playerToKick :
  toKickID <> ID (mem l player) ->
  hasVoted (mem l player) toKickID = false ->
  indexWhere (fun p => String.eqb (ID (mem l p)) toKickID) (Players l) = Some toKick ->
  Players l !! toKick = Some playerToKick ->
  voteKickCount toKickID (castVote player toKickID l) < votesNeededFor (length (Players l)) ->
  exists l',
    handleKickEvent GetRandomWords intOfInf now l player toKickID = Done l' /\
    hasVoted (mem l' player) toKickID = true /\
    sent l' = (sent l ++
               [WritePublicSystemMessage
                  (DSprintf "(%d/%d) players voted to kick %s"
                     [AInt (voteKickCount toKickID (castVote player toKickID l));
                      AInt (votesNeededFor (length (Players l)));
                      AStr (Name (mem l playerToKick))])])%list /\
    Players l' = Players l /\ Drawer l' = Drawer l /\ CurrentWord l' = CurrentWord l /\
    scoreEarnedByGuessers l' = scoreEarnedByGuessers l /\
    (forall q, Score (mem l' q) = Score (mem l q) /\
               LastScore (mem l' q) = LastScore (mem l q) /\
               State (mem l' q) = State (mem l q)) /\
    handleKickEvent GetRandomWords intOfInf now' l' player toKickID = Done l'.
Proof.
  intros Hself Hvoted Hidx Hlook Hcount.
  set (l' := announceVotes (voteKickCount toKickID (castVote player toKickID l))
               (votesNeededFor (length (Players l))) playerToKick
               (castVote player toKickID l)).
  exists l'. split.
  { unfold handleKickEvent.
    rewrite (proj2 (String.eqb_neq _ _) Hself), Hvoted, Hidx.
    destruct (castVote_fields player toKickID l) as (-> & _).
    rewrite Hlook. apply Z.leb_gt in Hcount. rewrite Hcount. reflexivity. }
  assert (Hv : hasVoted (mem l' player) toKickID = true) by apply hasVoted_castVote.
  split; [exact Hv|].
  split.
  { unfold l', announceVotes, castVote. simpl. do 4 f_equal.
    unfold update. destruct (decide (playerToKick = player)); reflexivity. }
  split; [reflexivity|]. split; [reflexivity|]. split; [reflexivity|]. split; [reflexivity|].
  split.
  { intros q. unfold l', announceVotes, castVote. simpl. unfold update.
    destruct (decide (q = player)); auto. }
  assert (Hid : ID (mem l' player) = ID (mem l player)).
  { unfold l', announceVotes, castVote. simpl. rewrite update_same. reflexivity. }
  clearbody l'. unfold handleKickEvent.
  rewrite Hid, (proj2 (String.eqb_neq _ _) Hself), Hv. reflexivity.
Qed.

End Votes.

Lemma X8_vote_rejected_witness :
  let l := sampleLobby [0; 1; 2; 3]%nat (Some 0%nat) "apple" (bobVoted "dan") in
  handleKickEvent threeWords 0 1000 l 1%nat "bob" = Done l /\
  handleKickEvent threeWords 0 1000 l 1%nat "dan" = Done l /\
  handleKickEvent threeWords 0 1000 l 1%nat "eve" = Done l.
Proof.
  intros l. split; [|split]; apply (X8_vote_rejected threeWords 0 1000 l 1%nat).
  - left. reflexivity.
  - right. left. reflexivity.
  - right. right. intros q Hq. apply list_elem_of_In in Hq. simpl in Hq.
    destruct Hq as [<-|[<-|[<-|[<-|[]]]]]; vm_compute; discriminate.
Defined.

Lemma X9_vote_below_threshold_witness :
  let l := sampleLobby [0; 1; 2; 3]%nat (Some 0%nat) "apple" fourPlayers in
  exists l',
    handleKickEvent threeWords 0 1000 l 1%nat "dan" = Done l' /\
    hasVoted (mem l' 1%nat) "dan" = true /\ Players l' = [0; 1; 2; 3]%nat /\
    handleKickEvent threeWords 0 2000 l' 1%nat "dan" = Done l'.
Proof.
  intros l.
  destruct (X9_vote_below_threshold threeWords 0 1000 2000 l 1%nat "dan" 3%nat 3%nat)
    as (l' & E & V & _ & P & _ & _ & _ & _ & R).
  - vm_compute. discriminate.
  - reflexivity.
  - reflexivity.
  - reflexivity.
  - vm_compute. reflexivity.
  - exists l'. auto.
Defined.

(** ** Vote kicks: a player who is not drawing, the owner *)

Section KickOthers.

Variable GetRandomWords : Lobby -> list string.
Variable intOfInf : Z.

(** The removal of a kicked player who is not the drawer touches no score,
    no state and nothing of the round. *)
Lemma removeKicked_other player toKickID toKick playerToKick l :
  Drawer l <> Some playerToKick ->
  let k := removeKicked player toKickID toKick playerToKick l in
  Drawer k = Drawer l /\
  scoreEarnedByGuessers k = scoreEarnedByGuessers l /\
  CurrentWord k = CurrentWord l /\ WordHints k = WordHints l /\
  timeLeftTicker k = timeLeftTicker l /\ Round k = Round l /\
  forall q, Score (mem k q) = Score (mem l q) /\
            LastScore (mem k q) = LastScore (mem l q) /\
            State (mem k q) = State (mem l q).
Proof.
  intros Hd k. unfold k, removeKicked.
  set (l1 := if existsb _ (Players l) then modify player _ l else l).
  assert (H1 : Drawer l1 = Drawer l /\ scoreEarnedByGuessers l1 = scoreEarnedByGuessers l /\
               CurrentWord l1 = CurrentWord l /\ WordHints l1 = WordHints l /\
               timeLeftTicker l1 = timeLeftTicker l /\ Round l1 = Round l /\
               forall q, Score (mem l1 q) = Score (mem l q) /\
                         LastScore (mem l1 q) = LastScore (mem l q) /\
                         State (mem l1 q) = State (mem l q)).
  { unfold l1. destruct (existsb _ _); simpl; [|auto 10].
    repeat split; unfold update; destruct (decide (q = player)); reflexivity. }
  destruct H1 as (D1 & S1 & W1 & H1 & T1 & R1 & M1). clearbody l1.
  cbv zeta.
  set (l2 := emit _ l1).
  assert (Hb : bool_decide (Drawer l2 = Some playerToKick) = false).
  { apply bool_decide_eq_false. unfold l2. simpl. congruence. }
  rewrite Hb.
  assert (H2 : Drawer l2 = Drawer l /\ scoreEarnedByGuessers l2 = scoreEarnedByGuessers l /\
               CurrentWord l2 = CurrentWord l /\ WordHints l2 = WordHints l /\
               timeLeftTicker l2 = timeLeftTicker l /\ Round l2 = Round l /\ mem l2 = mem l1)
    by (unfold l2; simpl; auto 10).
  destruct H2 as (D2 & S2 & W2 & H2 & T2 & R2 & M2). clearbody l2. clear Hb.
  set (l4 := if ws (mem l2 playerToKick) then emit (Close playerToKick) l2 else l2).
  assert (H4 : Drawer l4 = Drawer l /\ scoreEarnedByGuessers l4 = scoreEarnedByGuessers l /\
               CurrentWord l4 = CurrentWord l /\ WordHints l4 = WordHints l /\
               timeLeftTicker l4 = timeLeftTicker l /\ Round l4 = Round l /\ mem l4 = mem l1).
  { unfold l4. destruct (ws _); simpl; auto 10. }
  destruct H4 as (D4 & S4 & W4 & H4 & T4 & R4 & M4). clearbody l4.
  unfold triggerPlayersUpdate, replaceOwner.
  destruct (bool_decide _); [destruct (List.find _ _)|]; simpl;
    (split; [assumption|]; split; [assumption|]; split; [assumption|]; split; [assumption|];
     split; [assumption|]; split; [assumption|]; intros q;
     rewrite (fold_update_keeps Score
                (fun m a => set_Rank (int64 (playersThatAreHigher m _ a + 1)))) by reflexivity;
     rewrite (fold_update_keeps LastScore
                (fun m a => set_Rank (int64 (playersThatAreHigher m _ a + 1)))) by reflexivity;
     rewrite (fold_update_keeps State
                (fun m a => set_Rank (int64 (playersThatAreHigher m _ a + 1)))) by reflexivity;
     rewrite M4; apply M1).
Qed.

Lemma existsb_guessing ps (m m' : ptr -> Player) g :
  g ∈ ps -> State (m' g) = Guessing -> (forall q, State (m q) = State (m' q)) ->
  existsb (fun p => isGuessing (m p)) ps = true.
Proof.
  intros Hin Hg Hm. apply existsb_exists. exists g. split.
  - now apply list_elem_of_In.
  - unfold isGuessing. rewrite Hm, Hg. reflexivity.
Qed.

(** X10. A successful kick of a player who is not the drawer, while some
    remaining player still guesses: the player leaves the list and the
    round goes on. Drawer, word, hints, ticker, pool, round number and every
    score and state are as before. *)
Theorem X10_kick_of_a_guesser_keeps_the_round now l player toKickID toKick playerToKick g :
  toKickID <> ID (mem l player) ->
  hasVoted (mem l player) toKickID = false ->
  indexWhere (fun p => String.eqb (ID (mem l p)) toKickID) (Players l) = Some toKick ->
  Players l !! toKick = Some playerToKick ->
  votesNeededFor (length (Players l)) <= voteKickCount toKickID (castVote player toKickID l) ->
  Drawer l <> Some playerToKick ->
  g ∈ (take toKick (Players l) ++ drop (S toKick) (Players l))%list ->
  State (mem l g) = Guessing ->
  exists l',
    handleKickEvent GetRandomWords intOfInf now l player toKickID = Done l' /\
    Players l' = (take toKick (Players l) ++ drop (S toKick) (Players l))%list /\
    Drawer l' = Drawer l /\ Round l' = Round l /\
    CurrentWord l' = CurrentWord l /\ WordHints l' = WordHints l /\
    timeLeftTicker l' = timeLeftTicker l /\
    scoreEarnedByGuessers l' = scoreEarnedByGuessers l /\
    forall q, Score (mem l' q) = Score (mem l q) /\
              LastScore (mem l' q) = LastScore (mem l q) /\
              State (mem l' q) = State (mem l q).
Proof.
  intros Hself Hvoted Hidx Hlook Hcount Hd Hg Hgs.
  rewrite (handleKickEvent_success GetRandomWords intOfInf now l player toKickID toKick
             playerToKick Hself Hvoted Hidx Hlook Hcount).
  set (l0 := announceVotes _ _ playerToKick (castVote player toKickID l)).
  assert (F0 : Players l0 = Players l /\ Drawer l0 = Drawer l /\
               scoreEarnedByGuessers l0 = scoreEarnedByGuessers l /\
               CurrentWord l0 = CurrentWord l /\ WordHints l0 = WordHints l /\
               timeLeftTicker l0 = timeLeftTicker l /\ Round l0 = Round l /\
               forall q, Score (mem l0 q) = Score (mem l q) /\
                         LastScore (mem l0 q) = LastScore (mem l q) /\
                         State (mem l0 q) = State (mem l q)).
  { unfold l0, announceVotes, castVote. simpl. repeat split;
      unfold update; destruct (decide (q = player)); reflexivity. }
  destruct F0 as (P0 & D0 & S0 & W0 & H0 & T0 & R0 & M0). clearbody l0.
  assert (Hd0 : Drawer l0 <> Some playerToKick) by congruence.
  destruct (removeKicked_other player toKickID toKick playerToKick l0 Hd0)
    as (DK & SK & WK & HK & TK & RK & MK).
  pose proof (removeKicked_Players player toKickID toKick playerToKick l0) as PK.
  unfold executeKick.
  set (k := removeKicked player toKickID toKick playerToKick l0) in *. clearbody k.
  assert (Hb : bool_decide (Drawer k = Some playerToKick) = false)
    by (apply bool_decide_eq_false; congruence).
  assert (Hany : isAnyoneStillGuessing k = true).
  { unfold isAnyoneStillGuessing. rewrite PK, P0.
    apply (existsb_guessing _ (mem k) (mem l) g Hg Hgs).
    intros q. destruct (MK q) as (_ & _ & ->). apply M0. }
  rewrite Hb, Hany. simpl. exists k.
  split; [reflexivity|]. rewrite PK, P0.
  split; [reflexivity|]. split; [congruence|]. split; [congruence|]. split; [congruence|].
  split; [congruence|]. split; [congruence|]. split; [congruence|].
  intros q. destruct (MK q) as (-> & -> & ->). apply M0.
Qed.

Lemma find_ext {A : Type} (f g : A -> bool) (xs : list A) :
  (forall x, f x = g x) -> List.find f xs = List.find g xs.
Proof. intros H. induction xs as [|x xs IH]; simpl; [reflexivity|]. now rewrite H, IH. Qed.

(** X11. When the owner of the lobby is kicked, the first connected player
    of the remaining list becomes the owner, and if none is connected the
    kicked player stays the owner; the kick of anyone else leaves the owner
    alone. *)
Theorem X11_kicked_owner_is_replaced player toKickID toKick playerToKick l :
  let k := removeKicked player toKickID toKick playerToKick l in
  let remaining := (take toKick (Players l) ++ drop (S toKick) (Players l))%list in
  (Owner l = Some playerToKick ->
   Owner k = match List.find (fun p => Connected (mem l p)) remaining with
             | Some newOwner => Some newOwner
             | None => Some playerToKick
             end) /\
  (Owner l <> Some playerToKick -> Owner k = Owner l).
Proof.
  intros k remaining. unfold k, removeKicked, triggerPlayersUpdate.
  set (l1 := if existsb _ (Players l) then modify player _ l else l).
  assert (H1 : Owner l1 = Owner l /\ Players l1 = Players l /\
               forall q, Connected (mem l1 q) = Connected (mem l q)).
  { unfold l1. destruct (existsb _ _); simpl; [|auto].
    repeat split. intros q. unfold update. destruct (decide (q = player)); reflexivity. }
  destruct H1 as (O1 & P1 & C1). clearbody l1. cbv zeta.
  set (l2 := emit _ l1).
  set (l3 := if bool_decide (Drawer l2 = Some playerToKick) then _ else l2).
  assert (H3 : Owner l3 = Owner l /\ Players l3 = Players l /\
               forall q, Connected (mem l3 q) = Connected (mem l q)).
  { unfold l3. destruct (bool_decide _); unfold l2; simpl; repeat split; try assumption.
    intros q. rewrite <- C1.
    apply (fold_update_keeps Connected (fun _ _ => redactLastScore)). reflexivity. }
  destruct H3 as (O3 & P3 & C3). clearbody l3. clear l2.
  set (l4 := if ws (mem l3 playerToKick) then emit (Close playerToKick) l3 else l3).
  assert (H4 : Owner l4 = Owner l /\ Players l4 = Players l /\ mem l4 = mem l3).
  { unfold l4. destruct (ws _); simpl; auto. }
  destruct H4 as (O4 & P4 & M4). clearbody l4.
  set (x := recalculateRanks (set_Players _ l4)).
  assert (Hx : Owner x = Owner l /\ Players x = remaining /\
               forall q, Connected (mem x q) = Connected (mem l q)).
  { unfold x. simpl. rewrite P4. repeat split; try assumption.
    intros q. rewrite <- C3, <- M4.
    apply (fold_update_keeps Connected
             (fun m a => set_Rank (int64 (playersThatAreHigher m _ a + 1)))).
    reflexivity. }
  destruct Hx as (Ox & Px & Cx). clearbody x.
  unfold replaceOwner. rewrite Ox, Px.
  rewrite (find_ext (fun p => Connected (mem x p)) (fun p => Connected (mem l p)) remaining Cx).
  split; intros Ho.
  - rewrite (bool_decide_eq_true_2 _ Ho).
    destruct (List.find _ remaining); simpl; [reflexivity | congruence].
  - rewrite (bool_decide_eq_false_2 _ Ho). simpl. assumption.
Qed.

End KickOthers.

Lemma X10_kick_of_a_guesser_keeps_the_round_witness :
  let l := sampleLobby [0; 1; 2; 3]%nat (Some 0%nat) "apple" (bobVoted "dan") in
  exists l',
    handleKickEvent threeWords 0 5000 l 2%nat "dan" = Done l' /\
    Players l' = [0; 1; 2]%nat /\ Drawer l' = Some 0%nat /\ CurrentWord l' = "apple".
Proof.
  intros l.
  destruct (X10_kick_of_a_guesser_keeps_the_round threeWords 0 5000 l 2%nat "dan"
              3%nat 3%nat 1%nat)
    as (l' & E & P & D & _ & W & _).
  - vm_compute. discriminate.
  - reflexivity.
  - reflexivity.
  - reflexivity.
  - vm_compute. discriminate.
  - discriminate.
  - apply list_elem_of_In. simpl. auto.
  - reflexivity.
  - exists l'. auto.
Defined.

Lemma X11_kicked_owner_is_replaced_witness :
  let l := sampleLobby [0; 1; 2; 3]%nat (Some 1%nat) "apple" fourPlayers in
  Owner l = Some 0%nat /\
  Owner (removeKicked 2%nat "ann" 0%nat 0%nat l) = Some 1%nat.
Proof.
  intros l. split; [reflexivity|].
  destruct (X11_kicked_owner_is_replaced 2%nat "ann" 0%nat 0%nat l) as (H & _).
  rewrite H; reflexivity.
Defined.

(** ** Chat outside of guessing *)

Section Messages.

Variable GetRandomWords : Lobby -> list string.
Variable TrimSpace ToLower Replace : string -> string.
Variable intOfInf : Z.

(** X12. A message that is blank once trimmed is dropped: nothing is sent
    and nothing changes. While no word is set, any other message is sent to
    every player of the lobby as a chat line, whatever the state of its
    sender, and nothing else changes. *)
Theorem X12_chat_without_a_word now input sender l :
  let run := handleMessage GetRandomWords TrimSpace ToLower Replace intOfInf now input sender l in
  (TrimSpace input = "" -> run = Done l) /\
  (TrimSpace input <> "" -> CurrentWord l = "" ->
   exists l',
     run = Done l' /\
     sent l' = (sent l ++ chatLines Replace (TrimSpace input) sender l)%list /\
     length (chatLines Replace (TrimSpace input) sender l) = length (Players l) /\
     mem l' = mem l /\ Players l' = Players l /\
     scoreEarnedByGuessers l' = scoreEarnedByGuessers l).
Proof.
  intros run. unfold run, handleMessage. split.
  - intros ->. reflexivity.
  - intros Ht Hw. rewrite (eqb_neq_false _ _ Ht), Hw. simpl.
    eexists. split; [reflexivity|]. simpl.
    split; [reflexivity|]. split; [apply length_map | auto].
Qed.

(** X13. While a word is set, a message of the drawer or of a player who
    has guessed the word is sent to the players who are not guessing, one
    event each, and to nobody else: no guessing player receives it, and it
    is never a normal chat line. Nothing else changes. *)
Theorem X13_no_leak_to_guessers now input sender l :
  TrimSpace input <> "" -> CurrentWord l <> "" -> State (mem l sender) <> Guessing ->
  exists l' evs,
    handleMessage GetRandomWords TrimSpace ToLower Replace intOfInf now input sender l
      = Done l' /\
    sent l' = (sent l ++ evs)%list /\
    mem l' = mem l /\ scoreEarnedByGuessers l' = scoreEarnedByGuessers l /\
    (forall e, e ∈ evs ->
       exists target,
         e = WriteAsJSON target "non-guessing-player-message"
               (DMessage (EscapeString (Name (mem l sender)))
                         (EscapeString (Replace (TrimSpace input)))) /\
         target ∈ Players l /\ State (mem l target) <> Guessing) /\
    (forall target, target ∈ Players l -> State (mem l target) <> Guessing ->
       WriteAsJSON target "non-guessing-player-message"
         (DMessage (EscapeString (Name (mem l sender)))
                   (EscapeString (Replace (TrimSpace input)))) ∈ evs).
Proof.
  intros Ht Hw Hs. unfold handleMessage.
  rewrite (eqb_neq_false _ _ Ht), (eqb_neq_false _ _ Hw).
  set (out := sendMessageToAllNonGuessing Replace (TrimSpace input) sender l).
  destruct (State (mem l sender)); try congruence;
    (eexists; eexists; split; [reflexivity|]; unfold out, sendMessageToAllNonGuessing; simpl;
     split; [reflexivity|]; split; [reflexivity|]; split; [reflexivity|]; split;
     [ intros e He; apply list_elem_of_fmap in He as (target & -> & Hin);
       apply list_elem_of_In, filter_In in Hin as (Hin & Hng);
       exists target; split; [reflexivity|]; split; [now apply list_elem_of_In|];
       unfold isGuessing in Hng; apply negb_true_iff, bool_decide_eq_false in Hng; exact Hng
     | intros target Hin Hng; apply list_elem_of_fmap; exists target; split; [reflexivity|];
       apply list_elem_of_In, filter_In; split; [now apply list_elem_of_In|];
       unfold isGuessing; apply negb_true_iff, bool_decide_eq_false; exact Hng ]).
Qed.

End Messages.

Lemma X12_chat_without_a_word_witness :
  let l := sampleLobby [0; 1; 2; 3]%nat (Some 0%nat) "" fourPlayers in
  handleMessage threeWords trimASCII lowerASCII noEmoji 0 1000 "   " 1%nat l = Done l /\
  exists l',
    handleMessage threeWords trimASCII lowerASCII noEmoji 0 1000 " hi <all> " 1%nat l = Done l' /\
    sent l' = (sent l ++ chatLines noEmoji "hi <all>" 1%nat l)%list.
Proof.
  intros l.
  split.
  - apply (X12_chat_without_a_word threeWords trimASCII lowerASCII noEmoji 0 1000 "   " 1%nat l).
    reflexivity.
  - destruct (X12_chat_without_a_word threeWords trimASCII lowerASCII noEmoji 0 1000
                " hi <all> " 1%nat l) as (_ & H).
    destruct H as (l' & E & S & _); [vm_compute; discriminate | reflexivity |].
    exists l'. split; [exact E | exact S].
Defined.

Lemma X13_no_leak_to_guessers_witness :
  let l := sampleLobby [0; 1; 2; 3]%nat (Some 0%nat) "apple" fourPlayers in
  exists l' evs,
    handleMessage threeWords trimASCII lowerASCII noEmoji 0 1000 "it is a fruit" 0%nat l
      = Done l' /\
    sent l' = (sent l ++ evs)%list /\
    forall e, e ∈ evs -> exists target, e = WriteAsJSON target "non-guessing-player-message"
                                              (DMessage "ann" "it is a fruit") /\
                                        State (mem l target) <> Guessing.
Proof.
  intros l.
  destruct (X13_no_leak_to_guessers threeWords trimASCII lowerASCII noEmoji 0 1000
              "it is a fruit" 0%nat l) as (l' & evs & E & S & _ & _ & H & _).
  - vm_compute. discriminate.
  - vm_compute. discriminate.
  - vm_compute. discriminate.
  - exists l', evs. split; [exact E|]. split; [exact S|].
    intros e He. destruct (H e He) as (target & -> & _ & Hs). exists target. auto.
Defined.

(** ** Hints: what is shown, and when *)

Lemma createWordHintFor_lookup word i char :
  runes word !! i = Some char ->
  createWordHintFor word false !! i =
    Some {| Character := 0; Underline := negb (irrelevantChar char) |} /\
  createWordHintFor word true !! i =
    Some {| Character := char; Underline := negb (irrelevantChar char) |}.
Proof.
  intros H. unfold createWordHintFor. rewrite !list_lookup_fmap, H. split; reflexivity.
Qed.

Lemma createWordHintFor_agree word :
  Forall2 (fun hint full =>
             (Character hint = 0 \/ Character hint = Character full) /\
             Underline hint = Underline full)
          (createWordHintFor word false) (createWordHintFor word true).
Proof.
  unfold createWordHintFor. induction (runes word) as [|c cs IH]; simpl; constructor; auto.
Qed.

(** X14. Once a choose-word event has been honored, a guessing player is
    shown one slot for each character of the word, every character hidden;
    the drawer and the players on standby are shown the characters of the
    word; in both arrays a slot is underlined unless its character is a
    space, an underscore or a hyphen. *)
Theorem X14_views_after_the_choice data l player l' :
  HandleEvent_chooseWord data l player = Done l' -> l' <> l ->
  (forall q, State (mem l' q) = Guessing ->
     exists hints,
       GetAvailableWordHints l' q = Some hints /\
       map Character hints = map (fun _ => 0) (runes (CurrentWord l')) /\
       map Underline hints = map (fun c => negb (irrelevantChar c)) (runes (CurrentWord l'))) /\
  (forall q, State (mem l' q) <> Guessing ->
     exists shown,
       GetAvailableWordHints l' q = Some shown /\
       map Character shown = runes (CurrentWord l') /\
       map Underline shown = map (fun c => negb (irrelevantChar c)) (runes (CurrentWord l'))).
Proof.
  unfold HandleEvent_chooseWord.
  destruct (chosenIndexOf data) as [i|]; [|intros [= <-] H; congruence].
  destruct (_ && _); [|intros [= <-] H; congruence].
  destruct (WordChoice l !! Z.to_nat i) as [word|]; [|discriminate].
  intros [= <-] _.
  assert (F : forall m, let x := emit (WriteAsJSON player "your-turn" DNone)
                                   (triggerWordHintUpdate m) in
                        mem x = mem m /\ CurrentWord x = CurrentWord m /\
                        WordHints x = WordHints m /\ WordHintsShown x = WordHintsShown m).
  { intros m. unfold triggerWordHintUpdate. destruct (String.eqb _ _); simpl; auto. }
  match goal with |- context [emit _ (triggerWordHintUpdate ?m)] =>
    destruct (F m) as (Fm & Fw & Fh & Fs) end.
  unfold GetAvailableWordHints. rewrite Fm, Fw, Fh, Fs. simpl.
  destruct (createWordHintFor_fields word) as (C0 & C1 & CU).
  split; intros q Hq.
  - rewrite Hq. eexists. split; [reflexivity|]. split; [exact C0 | apply CU].
  - destruct (State (mem l q)); try congruence;
      (eexists; split; [reflexivity|]; split; [exact C1 | apply CU]).
Qed.

Lemma X14_views_after_the_choice_witness :
  let l := set_WordChoice ["apple"; "ice-cream"; "cloud"]
             (sampleLobby [0; 1; 2; 3]%nat (Some 0%nat) "" fourPlayers) in
  obtains (HandleEvent_chooseWord (VInt 1) l 0%nat)
    (fun l' =>
       exists hints, GetAvailableWordHints l' 1%nat = Some hints /\
                     map Character hints = [0; 0; 0; 0; 0; 0; 0; 0; 0] /\
                     map Underline hints =
                       [true; true; true; false; true; true; true; true; true]).
Proof.
  intros l.
  assert (O : obtains (HandleEvent_chooseWord (VInt 1) l 0%nat)
                (fun x => CurrentWord x = "ice-cream" /\ WordChoice x = [] /\
                          State (mem x 1%nat) = Guessing))
    by (vm_compute; repeat split).
  destruct (HandleEvent_chooseWord (VInt 1) l 0%nat) as [l'| |] eqn:E; simpl in O;
    try contradiction.
  destruct O as (Hw & Hc & Hs). simpl.
  destruct (X14_views_after_the_choice (VInt 1) l 0%nat l' E) as (H & _).
  - intros ->. discriminate Hc.
  - destruct (H 1%nat Hs) as (hints & Hh & Hch & Hu). rewrite Hw in Hch, Hu.
    exists hints. split; [exact Hh|]. split; [exact Hch | exact Hu].
Defined.

(** X15. The reveal loop returns as soon as a number is drawn whose index
    holds a hidden slot; it has then filled exactly one slot that was
    hidden, with the character of the word at that index, and left the
    length and the other slots alone. *)
Theorem X15_reveal_returns_on_a_hit word hints rnd r hint :
  length hints = length (runes word) ->
  r ∈ rnd -> hints !! (r mod length hints)%nat = Some hint -> Character hint = 0 ->
  exists hints' i old char,
    revealHint rnd hints word = Done hints' /\
    hints !! i = Some old /\ Character old = 0 /\ runes word !! i = Some char /\
    hints' = <[i := {| Character := char; Underline := Underline old |}]> hints /\
    length hints' = length hints.
Proof.
  intros Hlen Hin Hh Hc.
  assert (Hne : (length hints =? 0)%nat = false).
  { apply Nat.eqb_neq. intros E. apply lookup_lt_Some in Hh. lia. }
  assert (Hdone : exists hints', revealHint rnd hints word = Done hints').
  { induction rnd as [|r0 rnd IH]; [inversion Hin|]. simpl. rewrite Hne.
    destruct (hints !! (r0 mod length hints)%nat) as [h0|] eqn:E0.
    - destruct (Character h0 =? 0) eqn:Ec.
      + destruct (runes word !! (r0 mod length hints)%nat) as [c|] eqn:Er; [eauto|].
        exfalso. apply lookup_ge_None in Er. apply lookup_lt_Some in E0. lia.
      + apply IH. inversion Hin; subst; [|assumption].
        rewrite Hh in E0. injection E0 as <-. apply Z.eqb_neq in Ec. contradiction.
    - exfalso. apply lookup_ge_None in E0.
      pose proof (Nat.mod_upper_bound r0 (length hints)).
      apply Nat.eqb_neq in Hne. lia. }
  destruct Hdone as (hints' & Hd).
  destruct (revealHint_reveals word hints rnd hints' Hd) as (i & old & char & H1 & H2 & H3 & H4).
  exists hints', i, old, char. repeat split; try assumption.
  rewrite H4. apply length_insert.
Qed.

Lemma X15_reveal_returns_on_a_hit_witness :
  exists hints',
    revealHint [3; 7; 1]%nat (<[0%nat := {| Character := 98; Underline := true |}]>
                               (createWordHintFor "boat" false)) "boat" = Done hints' /\
    length hints' = 4%nat.
Proof.
  destruct (X15_reveal_returns_on_a_hit "boat"
              (<[0%nat := {| Character := 98; Underline := true |}]>
                 (createWordHintFor "boat" false))
              [3; 7; 1]%nat 3%nat {| Character := 0; Underline := true |})
    as (hints' & _ & _ & _ & E & _ & _ & _ & _ & L).
  - reflexivity.
  - apply list_elem_of_In. simpl. auto.
  - reflexivity.
  - reflexivity.
  - exists hints'. split; [exact E | exact L].
Defined.

Section HintTimer.

Variable GetRandomWords : Lobby -> list string.
Variable intOfInf : Z.

Lemma triggerWordHintUpdate_fields m :
  WordHints (triggerWordHintUpdate m) = WordHints m /\
  WordHintsShown (triggerWordHintUpdate m) = WordHintsShown m /\
  CurrentWord (triggerWordHintUpdate m) = CurrentWord m /\
  timeLeftTicker (triggerWordHintUpdate m) = timeLeftTicker m /\
  RoundEndTime (triggerWordHintUpdate m) = RoundEndTime m /\
  DrawingTime (triggerWordHintUpdate m) = DrawingTime m.
Proof. unfold triggerWordHintUpdate. destruct (String.eqb _ _); simpl; auto 10. Qed.

Lemma hintsAgree_chooseWord data player l l' :
  hintsAgree l -> HandleEvent_chooseWord data l player = Done l' -> hintsAgree l'.
Proof.
  intros Hag. unfold HandleEvent_chooseWord.
  destruct (chosenIndexOf data) as [i|]; [|intros [= <-]; assumption].
  destruct (_ && _); [|intros [= <-]; assumption].
  destruct (WordChoice l !! Z.to_nat i) as [word|]; [|discriminate].
  intros [= <-]. unfold hintsAgree, triggerWordHintUpdate.
  destruct (String.eqb _ _); simpl; intros hints [= <-];
    (split; [reflexivity | apply createWordHintFor_agree]).
Qed.

Lemma hintsAgree_reveal l hints i old char v :
  hintsAgree l -> WordHints l = Some hints -> hints !! i = Some old ->
  runes (CurrentWord l) !! i = Some char ->
  hintsAgree
    (triggerWordHintUpdate
       (set_WordHints (Some (<[i := {| Character := char; Underline := Underline old |}]> hints))
                      (set_timeLeftTicker v l))).
Proof.
  intros Hag Eh Ho Hr.
  destruct (Hag hints Eh) as (Hs & Hall).
  destruct (createWordHintFor_lookup (CurrentWord l) i char Hr) as (_ & Hfull).
  intros hints'.
  destruct (triggerWordHintUpdate_fields
              (set_WordHints
                 (Some (<[i := {| Character := char; Underline := Underline old |}]> hints))
                 (set_timeLeftTicker v l))) as (E1 & E2 & E3 & _).
  rewrite E1, E2, E3. clear E1 E2 E3.
  change (Some (<[i := {| Character := char; Underline := Underline old |}]> hints) = Some hints' ->
          WordHintsShown l = Some (createWordHintFor (CurrentWord l) true) /\
          Forall2 (fun hint full =>
                     (Character hint = 0 \/ Character hint = Character full) /\
                     Underline hint = Underline full)
                  hints' (createWordHintFor (CurrentWord l) true)).
  intros [= <-]. split; [assumption|].
  destruct (Forall2_lookup_lr _ _ _ i _ _ Hall Ho Hfull) as (_ & Hu).
  remember (createWordHintFor (CurrentWord l) true) as full eqn:Efull. clear Efull.
  rewrite <- (list_insert_id full i _ Hfull).
  apply Forall2_insert; [assumption|]. simpl. split; [right; reflexivity | exact Hu].
Qed.

Lemma hintsAgree_countdown rnd t l l1 :
  hintsAgree l -> hintCountdown rnd t l = Done l1 -> hintsAgree l1.
Proof.
  intros Hag Ec. unfold hintCountdown in Ec.
  destruct (0 <? hintsLeft t); [|injection Ec as <-; assumption].
  destruct (int64 (showNextHintInSeconds t - 1) =? 0); [|injection Ec as <-; exact Hag].
  cbv zeta in Ec.
  destruct (WordHints (set_timeLeftTicker
                         (Some {| showNextHintInSeconds := DrawingTime l ÷ 3;
                                  hintsLeft := int64 (hintsLeft t - 1) |}) l))
    as [hints|] eqn:Eh.
  - destruct (revealHint rnd hints _) as [hints'| |] eqn:Er; try discriminate.
    injection Ec as <-.
    destruct (revealHint_reveals _ _ _ _ Er) as (i & old & char & Ho & _ & Hr & ->).
    apply (hintsAgree_reveal l hints i old char); assumption.
  - injection Ec as <-. intros hints Hh.
    change (WordHints l = Some hints) in Hh. change (WordHints l = None) in Eh. congruence.
Qed.

Lemma advanceLobby_keeps now l l' :
  advanceLobby GetRandomWords now l = Done l' -> keeps l l'.
Proof.
  intros E. destruct (Players l) as [|p0 ps] eqn:EP.
  - exfalso. unfold advanceLobby in E.
    assert (HP : Players (resetForTurn l) = []).
    { rewrite <- EP. apply (keeps_resetForTurn l l (keeps_refl l)). }
    destruct (Drawer (resetForTurn l)); rewrite HP in E; simpl in E; discriminate.
  - destruct (advanceLobby_done GetRandomWords now l) as (l2 & E2 & K); [congruence|].
    rewrite E in E2. injection E2 as <-. exact K.
Qed.

Lemma endRound_no_hints now l l' :
  endRound GetRandomWords intOfInf now l = Done l' -> WordHints l' = None.
Proof.
  unfold endRound. intros E. apply advanceLobby_keeps in E.
  rewrite (keeps_WordHints _ _ E).
  destruct (closeRound_fields intOfInf l) as (_ & _ & _ & _ & Hn & _). exact Hn.
Qed.

Lemma hintsAgree_tick now rnd l l' :
  hintsAgree l -> tick GetRandomWords intOfInf now rnd l = Done l' -> hintsAgree l'.
Proof.
  intros Hag. unfold tick.
  destruct (timeLeftTicker l) as [t|]; [|intros [= <-]; assumption].
  destruct (hintCountdown rnd t l) as [l1| |] eqn:Ec; try discriminate.
  pose proof (hintsAgree_countdown rnd t l l1 Hag Ec) as H1.
  unfold bind.
  destruct (RoundEndTime l1 =? 0); [|intros [= <-]; assumption].
  intros E hints Hh. rewrite (endRound_no_hints now l1 l' E) in Hh. discriminate.
Qed.

Lemma hintsAgree_advanceLobby now l l' :
  hintsAgree l -> advanceLobby GetRandomWords now l = Done l' -> hintsAgree l'.
Proof.
  intros Hag E. destruct (Players l) as [|p0 ps] eqn:EP.
  + exfalso. unfold advanceLobby in E.
    destruct (resetForTurn_more l) as (RP & _). rewrite EP in RP.
    destruct (Drawer (resetForTurn l)); rewrite RP in E; simpl in E; discriminate.
  + destruct (advanceLobby_done GetRandomWords now l) as (l2 & E2 & K); [congruence|].
    rewrite E in E2. injection E2 as <-.
    unfold hintsAgree.
    rewrite (keeps_WordHints _ _ K), (keeps_WordHintsShown _ _ K), (keeps_CurrentWord _ _ K).
    exact Hag.
Qed.

(** X16. The hints never lie: if every slot shown to the guessers is hidden
    or carries the character that the fully revealed array has at that
    place, then this is still so after a choose-word event, after a tick of
    the round timer with its reveal, and after [advanceLobby]. *)
Theorem X16_hints_agree_with_the_word l :
  hintsAgree l ->
  (forall data player l', HandleEvent_chooseWord data l player = Done l' -> hintsAgree l') /\
  (forall now rnd l', tick GetRandomWords intOfInf now rnd l = Done l' -> hintsAgree l') /\
  (forall now l', advanceLobby GetRandomWords now l = Done l' -> hintsAgree l').
Proof.
  intros Hag. split; [|split].
  - intros data player l'. now apply hintsAgree_chooseWord.
  - intros now rnd l'. now apply hintsAgree_tick.
  - intros now l'. now apply hintsAgree_advanceLobby.
Qed.

Lemma hidden_after_insert (hs : list WordHint) : forall i x,
  (hiddenSlots (Some hs) <= S (hiddenSlots (Some (<[i := x]> hs))))%nat.
Proof.
  unfold hiddenSlots.
  induction hs as [|h hs IH]; intros i x; simpl; [lia|].
  destruct i as [|i]; simpl.
  - destruct (Character h =? 0), (Character x =? 0); simpl; lia.
  - specialize (IH i x). destruct (Character h =? 0); simpl; lia.
Qed.

(** One tick of a running round: the reveals left do not go up, and a slot
    is revealed only by using one of them up. *)
Lemma tick_reveals_at_most_one now rnd l l' t :
  timeLeftTicker l = Some t -> 0 <= hintsLeft t <= 2 -> RoundEndTime l <> 0 ->
  tick GetRandomWords intOfInf now rnd l = Done l' ->
  exists t',
    timeLeftTicker l' = Some t' /\ 0 <= hintsLeft t' <= hintsLeft t /\
    RoundEndTime l' = RoundEndTime l /\
    (hiddenSlots (WordHints l) <=
     hiddenSlots (WordHints l') + Z.to_nat (hintsLeft t - hintsLeft t'))%nat.
Proof.
  intros Ht Hl Hr. unfold tick. rewrite Ht.
  destruct (hintCountdown rnd t l) as [l1| |] eqn:Ec; simpl; try discriminate.
  assert (H1 : exists t', timeLeftTicker l1 = Some t' /\ 0 <= hintsLeft t' <= hintsLeft t /\
                          RoundEndTime l1 = RoundEndTime l /\
                          (hiddenSlots (WordHints l) <=
                           hiddenSlots (WordHints l1) + Z.to_nat (hintsLeft t - hintsLeft t'))%nat).
  { unfold hintCountdown in Ec.
    destruct (0 <? hintsLeft t) eqn:E0.
    2:{ injection Ec as <-. exists t. rewrite Ht. repeat split; try lia. }
    apply Z.ltb_lt in E0.
    assert (Hsub : int64 (hintsLeft t - 1) = hintsLeft t - 1)
      by (apply int64_small; unfold inInt64; lia).
    destruct (_ =? 0).
    2:{ injection Ec as <-. eexists. simpl. split; [reflexivity|]. simpl.
        repeat split; try lia. }
    simpl in Ec. destruct (WordHints l) as [hints|] eqn:Eh.
    - destruct (revealHint rnd hints (CurrentWord l)) as [hints'| |] eqn:Er; try discriminate.
      simpl in Ec. injection Ec as <-.
      destruct (revealHint_reveals _ _ _ _ Er) as (i & old & char & _ & _ & _ & ->).
      match goal with |- context [triggerWordHintUpdate ?m] =>
        destruct (triggerWordHintUpdate_fields m) as (-> & _ & _ & -> & -> & _) end.
      eexists. simpl. split; [reflexivity|]. simpl. rewrite Hsub.
      split; [lia|]. split; [reflexivity|].
      replace (Z.to_nat (hintsLeft t - (hintsLeft t - 1))) with 1%nat by lia.
      pose proof (hidden_after_insert hints i {| Character := char; Underline := Underline old |})
        as H.
      unfold hiddenSlots in H. lia.
    - injection Ec as <-. eexists. simpl. split; [reflexivity|]. simpl. rewrite Eh, Hsub.
      simpl. repeat split; lia. }
  destruct H1 as (t' & T1 & L1 & R1 & C1).
  assert (Hz : (RoundEndTime l1 =? 0) = false) by (apply Z.eqb_neq; congruence).
  rewrite Hz. intros [= <-]. exists t'. auto.
Qed.

(** X17. During a turn the round timer reveals at most two slots, however
    many ticks it delivers: after any number of ticks at most two slots
    fewer are hidden than when the turn started. *)
Theorem X17_at_most_two_reveals now rnds : forall l l' t,
  timeLeftTicker l = Some t -> 0 <= hintsLeft t <= 2 -> RoundEndTime l <> 0 ->
  ticks GetRandomWords intOfInf now rnds l = Done l' ->
  (hiddenSlots (WordHints l) <= hiddenSlots (WordHints l') + Z.to_nat (hintsLeft t))%nat /\
  (hiddenSlots (WordHints l) <= hiddenSlots (WordHints l') + 2)%nat.
Proof.
  assert (G : forall l l' t,
             timeLeftTicker l = Some t -> 0 <= hintsLeft t <= 2 -> RoundEndTime l <> 0 ->
             ticks GetRandomWords intOfInf now rnds l = Done l' ->
             (hiddenSlots (WordHints l) <=
              hiddenSlots (WordHints l') + Z.to_nat (hintsLeft t))%nat).
  { induction rnds as [|rnd rnds IH]; intros l l' t Ht Hl Hr E; simpl in E.
    - injection E as <-. lia.
    - destruct (tick GetRandomWords intOfInf now rnd l) as [l1| |] eqn:E1; simpl in E;
        try discriminate.
      destruct (tick_reveals_at_most_one now rnd l l1 t Ht Hl Hr E1) as (t1 & T1 & L1 & R1 & C1).
      assert (H2 := IH l1 l' t1 T1 ltac:(lia) ltac:(congruence) E). lia. }
  intros l l' t Ht Hl Hr E. pose proof (G l l' t Ht Hl Hr E). split; [assumption | lia].
Qed.

(** X18. No reveal comes before its time: while the countdown of the timer
    has not run out, a tick only counts down. Nothing is revealed, nothing
    is sent, and after [j] ticks the countdown stands [j] lower. *)
Theorem X18_ticks_before_the_reveal_only_count_down now rnds : forall l s h,
  timeLeftTicker l = Some {| showNextHintInSeconds := s; hintsLeft := h |} ->
  0 < h -> RoundEndTime l <> 0 -> Z.of_nat (length rnds) < s < 2 ^ 63 ->
  ticks GetRandomWords intOfInf now rnds l =
  Done (set_timeLeftTicker
          (Some {| showNextHintInSeconds := s - Z.of_nat (length rnds); hintsLeft := h |}) l).
Proof.
  induction rnds as [|rnd rnds IH]; intros l s h Ht Hh Hr Hs.
  - simpl. rewrite Z.sub_0_r. f_equal. destruct l. simpl in *. subst. reflexivity.
  - simpl length in *. simpl ticks.
    assert (E1 : tick GetRandomWords intOfInf now rnd l =
                 Done (set_timeLeftTicker
                         (Some {| showNextHintInSeconds := s - 1; hintsLeft := h |}) l)).
    { unfold tick, hintCountdown. rewrite Ht. simpl.
      apply Z.ltb_lt in Hh. rewrite Hh.
      rewrite int64_small by (unfold inInt64; lia).
      assert (Hnz : (s - 1 =? 0) = false) by (apply Z.eqb_neq; lia).
      rewrite Hnz. simpl.
      assert (Hz : (RoundEndTime l =? 0) = false) by (apply Z.eqb_neq; assumption).
      rewrite Hz. reflexivity. }
    rewrite E1. simpl.
    assert (E2 := IH (set_timeLeftTicker
                        (Some {| showNextHintInSeconds := s - 1; hintsLeft := h |}) l)
                     (s - 1) h eq_refl Hh Hr ltac:(lia)).
    rewrite E2. simpl.
    replace (s - 1 - Z.of_nat (length rnds)) with (s - Z.of_nat (S (length rnds))) by lia.
    reflexivity.
Qed.

End HintTimer.

Lemma X16_hints_agree_with_the_word_witness :
  let l := set_timeLeftTicker (Some {| showNextHintInSeconds := 1; hintsLeft := 2 |})
             (sampleLobby [0; 1; 2; 3]%nat (Some 0%nat) "boat" fourPlayers) in
  hintsAgree l /\ obtains (tick threeWords 0 5000 [2%nat] l) hintsAgree.
Proof.
  intros l.
  assert (H : hintsAgree l).
  { intros hints [= <-]. split; [reflexivity | apply createWordHintFor_agree]. }
  split; [exact H|].
  assert (O : obtains (tick threeWords 0 5000 [2%nat] l) (fun _ => True))
    by (vm_compute; exact I).
  destruct (tick threeWords 0 5000 [2%nat] l) as [l'| |] eqn:E; simpl in O; try contradiction.
  simpl. destruct (X16_hints_agree_with_the_word threeWords 0 l H) as (_ & T & _).
  exact (T 5000 [2%nat] l' E).
Defined.

Lemma X17_at_most_two_reveals_witness :
  let l := sampleLobby [0; 1; 2; 3]%nat (Some 0%nat) "boat" fourPlayers in
  obtains (ticks threeWords 0 5000 (replicate 60 [0; 1; 2; 3]%nat) l)
          (fun l' => (hiddenSlots (WordHints l) <= hiddenSlots (WordHints l') + 2)%nat).
Proof.
  intros l.
  assert (O : obtains (ticks threeWords 0 5000 (replicate 60 [0; 1; 2; 3]%nat) l)
                      (fun _ => True))
    by (vm_compute; exact I).
  destruct (ticks threeWords 0 5000 (replicate 60 [0; 1; 2; 3]%nat) l) as [l'| |] eqn:E;
    simpl in O; try contradiction.
  simpl.
  destruct (X17_at_most_two_reveals threeWords 0 5000 (replicate 60 [0; 1; 2; 3]%nat) l l'
              {| showNextHintInSeconds := 20; hintsLeft := 2 |}) as (_ & H).
  - reflexivity.
  - simpl. lia.
  - discriminate.
  - exact E.
  - exact H.
Defined.

Lemma X18_ticks_before_the_reveal_only_count_down_witness :
  let l := sampleLobby [0; 1; 2; 3]%nat (Some 0%nat) "boat" fourPlayers in
  ticks threeWords 0 5000 (replicate 19 [0%nat]) l =
  Done (set_timeLeftTicker (Some {| showNextHintInSeconds := 1; hintsLeft := 2 |}) l).
Proof.
  intros l.
  apply (X18_ticks_before_the_reveal_only_count_down threeWords 0 5000
           (replicate 19 [0%nat]) l 20 2).
  - reflexivity.
  - lia.
  - discriminate.
  - simpl. lia.
Defined.
(** ** The end of a round *)

Section RoundEnd.

Variable GetRandomWords : Lobby -> list string.
Variable TrimSpace ToLower Replace : string -> string.
Variable intOfInf : Z.

Lemma creditDrawer_other l q :
  Some q <> Drawer l -> mem (creditDrawer intOfInf l) q = mem l q.
Proof.
  intros Hq. unfold creditDrawer. destruct (Drawer l) as [d|]; [|reflexivity].
  destruct (0 <? _); [|reflexivity]. destruct (drawerBonus _ _ _); [|reflexivity].
  simpl. apply update_other. congruence.
Qed.

Lemma creditDrawer_State l q :
  State (mem (creditDrawer intOfInf l) q) = State (mem l q).
Proof.
  unfold creditDrawer. destruct (Drawer l) as [d|]; [|reflexivity].
  destruct (0 <? _); [|reflexivity]. destruct (drawerBonus _ _ _); [|reflexivity].
  simpl. unfold update. destruct (decide (q = d)); reflexivity.
Qed.

(** The player records after [closeRound]: the drawer's bonus first, then
    the last score of whoever in the lobby is still guessing is taken. *)
Lemma closeRound_mem l q :
  mem (closeRound intOfInf l) q =
  if decide (q ∈ Players l)
  then (if isGuessing (mem (creditDrawer intOfInf l) q)
        then set_LastScore 0 (mem (creditDrawer intOfInf l) q)
        else mem (creditDrawer intOfInf l) q)
  else mem (creditDrawer intOfInf l) q.
Proof.
  destruct (creditDrawer_fields intOfInf l) as (HP & _).
  unfold closeRound. simpl. unfold forPlayers. simpl. rewrite HP.
  rewrite (fold_update_idem (fun p => if isGuessing p then set_LastScore 0 p else p)).
  - reflexivity.
  - intros x. unfold isGuessing. destruct (bool_decide (State x = Guessing)) eqn:E; simpl.
    + rewrite E. reflexivity.
    + rewrite E. reflexivity.
Qed.

Lemma endRound_keeps now l l' :
  endRound GetRandomWords intOfInf now l = Done l' -> keeps (closeRound intOfInf l) l'.
Proof. unfold endRound. apply advanceLobby_keeps. Qed.

Lemma closeRound_guessing l q :
  q ∈ Players l -> State (mem l q) = Guessing -> LastScore (mem (closeRound intOfInf l) q) = 0.
Proof.
  intros Hq Hs. rewrite closeRound_mem.
  destruct (decide (q ∈ Players l)) as [_|N]; [|contradiction].
  unfold isGuessing. rewrite creditDrawer_State.
  rewrite bool_decide_eq_true_2 by assumption. reflexivity.
Qed.

Lemma closeRound_others l q :
  Some q <> Drawer l ->
  Score (mem (closeRound intOfInf l) q) = Score (mem l q) /\
  (State (mem l q) <> Guessing \/ q ∉ Players l ->
   LastScore (mem (closeRound intOfInf l) q) = LastScore (mem l q)).
Proof.
  intros Hq. rewrite closeRound_mem, (creditDrawer_other l q Hq). split.
  - destruct (decide (q ∈ Players l)); [|reflexivity].
    destruct (isGuessing (mem l q)); reflexivity.
  - intros [Hs|Hn].
    + unfold isGuessing. rewrite bool_decide_eq_false_2 by assumption.
      destruct (decide (q ∈ Players l)); reflexivity.
    + destruct (decide (q ∈ Players l)); [contradiction | reflexivity].
Qed.


(** X19. When [endRound] has returned, the score pool is empty, the word
    and the player-facing hints are gone, every player of the lobby who was
    still guessing has a last score of 0, and whoever is not the drawer has
    the score they had; their last score changes only if they were a
    guessing player of the lobby. *)
Theorem X19_end_of_round_scores now l l' :
  endRound GetRandomWords intOfInf now l = Done l' ->
  scoreEarnedByGuessers l' = 0 /\ CurrentWord l' = "" /\ WordHints l' = None /\
  Players l' = Players l /\
  (forall q, q ∈ Players l -> State (mem l q) = Guessing -> LastScore (mem l' q) = 0) /\
  (forall q, Some q <> Drawer l ->
     Score (mem l' q) = Score (mem l q) /\
     (State (mem l q) <> Guessing \/ q ∉ Players l ->
      LastScore (mem l' q) = LastScore (mem l q))).
Proof.
  intros E. apply endRound_keeps in E.
  destruct (closeRound_fields intOfInf l) as (HP & _ & Hpool & Hw & Hh & _).
  split; [rewrite (keeps_pool _ _ E); exact Hpool|].
  split; [rewrite (keeps_CurrentWord _ _ E); exact Hw|].
  split; [rewrite (keeps_WordHints _ _ E); exact Hh|].
  split; [rewrite (keeps_Players _ _ E); exact HP|].
  split.
  - intros q Hq Hs. rewrite (keeps_LastScore _ _ E). now apply closeRound_guessing.
  - intros q Hq. rewrite (keeps_Score _ _ E), (keeps_LastScore _ _ E).
    now apply closeRound_others.
Qed.



End RoundEnd.

Lemma X19_end_of_round_scores_witness :
  let l := sampleLobby [0; 1; 2; 3]%nat (Some 0%nat) "boat" fourPlayers in
  obtains (endRound threeWords 0 1000 l)
          (fun l' => scoreEarnedByGuessers l' = 0 /\ LastScore (mem l' 1%nat) = 0).
Proof.
  intros l.
  assert (O : obtains (endRound threeWords 0 1000 l) (fun _ => True)) by (vm_compute; exact I).
  destruct (endRound threeWords 0 1000 l) as [l'| |] eqn:E; simpl in O; try contradiction.
  destruct (X19_end_of_round_scores threeWords 0 1000 l l' E) as (H1 & _ & _ & _ & H2 & _).
  simpl. split; [exact H1|].
  apply H2; [apply list_elem_of_In; simpl; auto | reflexivity].
Defined.

(** ** Commands *)

Section StartCommand.

Variable GetRandomWords : Lobby -> list string.

Lemma startTurn_Rank now d m a :
  a ∈ Players m ->
  Rank (mem (startTurn GetRandomWords now d m) a) =
  int64 (playersThatAreHigher (mem m) (Players m) a + 1).
Proof.
  intros Ha. unfold startTurn. simpl.
  apply (rank_fold (mem m) (Players m) (Players m)); [|assumption].
  intros x. unfold update. destruct (decide (x = d)); reflexivity.
Qed.

(** Whenever [advanceLobby] returns, the ranks are those of the scores. *)
Lemma advanceLobby_ranks now l l' :
  advanceLobby GetRandomWords now l = Done l' ->
  forall a, a ∈ Players l ->
    Rank (mem l' a) = int64 (playersThatAreHigher (mem l) (Players l) a + 1).
Proof.
  intros E a Ha. unfold advanceLobby in E.
  destruct (resetForTurn_fields l) as (RD & RR & _).
  destruct (resetForTurn_more l) as (RP & RM & _ & _ & _).
  assert (RS : forall x, Score (mem (resetForTurn l) x) = Score (mem l x))
    by (apply (keeps_Score _ _ (keeps_resetForTurn l l (keeps_refl l)))).
  remember (resetForTurn l) as r eqn:Er. clear Er.
  rewrite <- (playersThatAreHigher_ext (mem r) (mem l) (Players l) a RS).
  rewrite RD, RP, RR, RM in E.
  assert (T : forall now d m, Players m = Players l -> mem m = mem r ->
                Rank (mem (startTurn GetRandomWords now d m) a)
                = int64 (playersThatAreHigher (mem r) (Players l) a + 1)).
  { intros now' d m HP Hm. rewrite startTurn_Rank by (rewrite HP; exact Ha).
    rewrite HP, Hm. reflexivity. }
  destruct (Drawer l) as [d0|] eqn:Hd.
  - destruct (last (Players l)) as [lp|] eqn:Hl; [|discriminate].
    destruct (decide (d0 = lp)) as [<-|Hne].
    + destruct (Round l =? MaxRounds l) eqn:Hr.
      * injection E as <-. simpl. rewrite RP.
        apply (rank_fold (mem r) (Players l) (Players l)); [reflexivity | exact Ha].
      * destruct (Players l !! 0%nat) as [p0|] eqn:H0; [|discriminate].
        injection E as <-. apply T; [exact RP | reflexivity].
    + unfold selectNextDrawer in E. rewrite RD, RP in E.
      destruct (indexWhere _ (Players l)) as [i|] eqn:Hi.
      * destruct (Players l !! S i) as [next|] eqn:Hn; [|discriminate].
        simpl in E. injection E as <-. apply T; [exact RP | reflexivity].
      * destruct (scanConnected (mem r) (Players l) (Some d0)) as [d|] eqn:Hs.
        2:{ simpl in E. discriminate. }
        simpl in E. injection E as <-. apply T; [exact RP | reflexivity].
  - destruct (Players l !! 0%nat) as [p0|] eqn:H0; [|discriminate].
    injection E as <-. apply T; [exact RP | reflexivity].
Qed.

Lemma nobody_higher m ps a :
  (forall b, b ∈ ps -> Score (m b) <= Score (m a)) -> playersThatAreHigher m ps a = 0.
Proof.
  intros H. unfold playersThatAreHigher.
  induction ps as [|b ps IH]; simpl; [reflexivity|].
  assert (Hb : (Score (m a) <? Score (m b)) = false).
  { apply Z.ltb_ge. apply H. left. }
  rewrite Hb. apply IH. intros c Hc. apply H. now right.
Qed.

(** X21. [commandStart] does nothing unless the lobby is between games
    (round 0) and the caller owns it. Called by the owner of a lobby that is
    between games, with no drawer and at least one player, it returns with
    round 1 started and the first player drawing, and every player of the
    lobby has score 0, last score 0 and rank 1. *)
Theorem X21_start_of_a_game now caller l :
  (Round l <> 0 \/ Some caller <> Owner l ->
   commandStart GetRandomWords now caller l = Done l) /\
  (forall p0 ps,
     Round l = 0 -> Some caller = Owner l -> Drawer l = None -> Players l = p0 :: ps ->
     exists l',
       commandStart GetRandomWords now caller l = Done l' /\
       Round l' = 1 /\ Drawer l' = Some p0 /\ Players l' = Players l /\
       forall q, q ∈ Players l ->
         Score (mem l' q) = 0 /\ LastScore (mem l' q) = 0 /\ Rank (mem l' q) = 1).
Proof.
  split.
  - intros H. unfold commandStart.
    destruct (Round l =? 0) eqn:Er; [|reflexivity].
    destruct (bool_decide (Some caller = Owner l)) eqn:Eo; [|reflexivity].
    apply Z.eqb_eq in Er. apply bool_decide_eq_true in Eo. destruct H; contradiction.
  - intros p0 ps Hr Ho Hd HP. unfold commandStart.
    rewrite Hr, (bool_decide_eq_true_2 _ Ho). simpl.
    set (f := fun p => set_LastScore 0 (set_Score 0 p)).
    assert (Hf : forall x, f (f x) = f x) by reflexivity.
    destruct (advanceLobby_start GetRandomWords now (forPlayers f l) p0 ps Hd HP)
      as (l' & E & K & D' & R').
    exists l'. split; [exact E|].
    split; [rewrite R'; change (Round (forPlayers f l)) with (Round l); rewrite Hr; reflexivity|].
    split; [exact D'|]. split; [exact (keeps_Players _ _ K)|].
    assert (Hz : forall q, q ∈ Players l -> Score (mem (forPlayers f l) q) = 0).
    { intros q Hq. rewrite (forPlayers_in f l q Hf Hq). reflexivity. }
    intros q Hq. split; [rewrite (keeps_Score _ _ K); now apply Hz|].
    split; [rewrite (keeps_LastScore _ _ K), (forPlayers_in f l q Hf Hq); reflexivity|].
    rewrite (advanceLobby_ranks now (forPlayers f l) l' E q Hq).
    rewrite nobody_higher; [reflexivity|].
    intros b Hb. change (Players (forPlayers f l)) with (Players l) in Hb.
    rewrite (Hz b Hb), (Hz q Hq). lia.
Qed.

End StartCommand.

Lemma X21_start_of_a_game_witness :
  let m := fun p => match p with
                    | 0%nat => newPlayer "ann" Guessing 300 20
                    | _ => newPlayer "bob" Guessing 120 0
                    end in
  let l := set_Round 0 (sampleLobby [0; 1]%nat None "" m) in
  commandStart threeWords 1000 1%nat l = Done l /\
  exists l', commandStart threeWords 1000 0%nat l = Done l' /\
             Round l' = 1 /\ Drawer l' = Some 0%nat /\
             Score (mem l' 0%nat) = 0 /\ Rank (mem l' 1%nat) = 1.
Proof.
  intros m l.
  destruct (X21_start_of_a_game threeWords 1000 1%nat l) as (G & _).
  destruct (X21_start_of_a_game threeWords 1000 0%nat l) as (_ & S).
  split.
  - apply G. right. discriminate.
  - destruct (S 0%nat [1%nat] eq_refl eq_refl eq_refl eq_refl) as (l' & E & R & D & _ & H).
    exists l'. split; [exact E|]. split; [exact R|]. split; [exact D|].
    split.
    + apply (H 0%nat). apply list_elem_of_In. simpl. auto.
    + apply (H 1%nat). apply list_elem_of_In. simpl. auto.
Defined.

(** ** Markup in names and chat lines *)

Lemma plain_append a b : plain (a +:+ b) = plain a && plain b.
Proof.
  unfold plain. induction a as [|c a IH]; simpl; [reflexivity|].
  rewrite IH. destruct (rawMarkup c); reflexivity.
Qed.

Lemma plain_escapeChar c : plain (escapeChar c) = true.
Proof. destruct c as [[] [] [] [] [] [] [] []]; reflexivity. Qed.

Lemma plain_EscapeString s : plain (EscapeString s) = true.
Proof.
  induction s as [|c s IH]; simpl; [reflexivity|].
  rewrite plain_append, plain_escapeChar, IH. reflexivity.
Qed.

Lemma plain_prefix s : forall n, plain s = true -> plain (substring 0 n s) = true.
Proof.
  unfold plain. induction s as [|c s IH]; intros n H; destruct n as [|n]; simpl in *;
    try reflexivity.
  apply andb_true_iff in H. destruct H as (Hc & Hs).
  rewrite Hc. simpl. apply IH. exact Hs.
Qed.

Lemma substring_prefix_le s : forall n, (String.length (substring 0 n s) <= n)%nat.
Proof.
  induction s as [|c s IH]; intros n; destruct n as [|n]; simpl; try lia.
  specialize (IH n). lia.
Qed.

Section NickSafety.

Variable TrimSpace : string -> string.

(** X22. Whatever the arguments of a rename, the name that [commandNick]
    stores is the generated one, or it is at most 31 bytes long and holds
    no double quote, apostrophe, [<] or [>]. *)
Theorem X22_stored_name_has_no_markup generated caller l args l' :
  commandNick TrimSpace generated caller l args = Done l' ->
  Name (mem l' caller) = generated \/
  (plain (Name (mem l' caller)) = true /\ 0 < len (Name (mem l' caller)) <= 31).
Proof.
  unfold commandNick. destruct args as [|command rest]; [discriminate|].
  destruct rest as [|a rest].
  - intros [= <-]. left. simpl. rewrite update_same. reflexivity.
  - set (escaped := EscapeString (TrimSpace (Join (a :: rest) " "))).
    destruct (len escaped =? 0) eqn:E0.
    + intros [= <-]. left. simpl. rewrite update_same. reflexivity.
    + apply Z.eqb_neq in E0.
      destruct (30 <? len escaped) eqn:E30.
      * unfold slicePrefix. destruct (31 <=? String.length escaped)%nat eqn:E31;
          [|discriminate].
        simpl. intros [= <-]. right. simpl. rewrite update_same. simpl.
        apply Nat.leb_le in E31.
        split; [apply plain_prefix, plain_EscapeString|].
        unfold len. rewrite substring_prefix_length by exact E31. lia.
      * simpl. intros [= <-]. right. simpl. rewrite update_same. simpl.
        apply Z.ltb_ge in E30.
        split; [apply plain_EscapeString|]. unfold len in *. lia.
Qed.

End NickSafety.

Lemma X22_stored_name_has_no_markup_witness :
  let l := sampleLobby [0; 1; 2; 3]%nat (Some 0%nat) "" fourPlayers in
  obtains (commandNick trimASCII "CalmlyBraveOtter" 1%nat l ["nick"; "<b>bob</b>"; "'the'"; "builder"])
          (fun l' => Name (mem l' 1%nat) = "CalmlyBraveOtter" \/
                     (plain (Name (mem l' 1%nat)) = true /\ 0 < len (Name (mem l' 1%nat)) <= 31)).
Proof.
  intros l.
  assert (O : obtains (commandNick trimASCII "CalmlyBraveOtter" 1%nat l
                         ["nick"; "<b>bob</b>"; "'the'"; "builder"]) (fun _ => True))
    by (vm_compute; exact I).
  destruct (commandNick trimASCII "CalmlyBraveOtter" 1%nat l
              ["nick"; "<b>bob</b>"; "'the'"; "builder"]) as [l'| |] eqn:E;
    simpl in O; try contradiction.
  simpl.
  exact (X22_stored_name_has_no_markup trimASCII "CalmlyBraveOtter" 1%nat l
           ["nick"; "<b>bob</b>"; "'the'"; "builder"] l' E).
Defined.

(** X27. Every chat line that [sendMessageToAll] and
    [sendMessageToAllNonGuessing] write carries an author and a content
    without double quote, apostrophe, [<] or [>], whatever the message and
    whatever the name of the sender. *)
Theorem X27_chat_lines_have_no_markup Replace message sender l :
  forallb plainEvent (drop (length (sent l)) (sent (sendMessageToAll Replace message sender l)))
    = true /\
  forallb plainEvent
    (drop (length (sent l)) (sent (sendMessageToAllNonGuessing Replace message sender l)))
    = true.
Proof.
  unfold sendMessageToAll, sendMessageToAllNonGuessing. simpl.
  rewrite !drop_app_length.
  assert (H : forall type ps,
            forallb plainEvent
              (map (fun target =>
                      WriteAsJSON target type
                        (DMessage (EscapeString (Name (mem l sender)))
                                  (EscapeString (Replace message)))) ps) = true).
  { intros type ps. induction ps as [|p ps IH]; simpl; [reflexivity|].
    rewrite !plain_EscapeString, IH. reflexivity. }
  split; apply H.
Qed.
(** ** The capacity of the lobby *)

Section Capacity.

Variable TrimSpace : string -> string.
Variable ParseInt : string -> option Z.

Lemma keeps_tell caller text r : keeps (lobby r) (lobby (tell caller text r)).
Proof. unfold tell. simpl. apply keeps_emit; [reflexivity | apply keeps_refl]. Qed.

(** X23. [commandSetMP] changes the capacity only for the owner, and only
    to a value between 2 and 24 that is no less than the number of players
    in the lobby. It touches nothing else of the lobby but the messages
    sent, and no player record. *)
Theorem X23_capacity_stays_within_bounds caller r args :
  let r' := commandSetMP TrimSpace ParseInt caller r args in
  (MaxPlayers r' <> MaxPlayers r ->
   Some caller = Owner (lobby r) /\ 2 <= MaxPlayers r' <= 24 /\
   Z.of_nat (length (Players (lobby r))) <= MaxPlayers r') /\
  keeps (lobby r) (lobby r') /\ mem (lobby r') = mem (lobby r) /\
  Round (lobby r') = Round (lobby r) /\ Drawer (lobby r') = Drawer (lobby r).
Proof.
  unfold commandSetMP. simpl.
  destruct (bool_decide (Some caller = Owner (lobby r))) eqn:Eo.
  2:{ simpl. split; [intros H; now contradiction H|]. split; [apply keeps_tell | auto]. }
  apply bool_decide_eq_true in Eo.
  destruct (args !! 1%nat) as [arg|].
  2:{ split; [intros H; now contradiction H|]. split; [apply keeps_refl | auto]. }
  destruct (ParseInt (TrimSpace arg)) as [v|].
  2:{ simpl. split; [intros H; now contradiction H|]. split; [apply keeps_tell | auto]. }
  destruct ((Z.of_nat (length (Players (lobby r))) <=? v) && (v <=? 24) && (2 <=? v)) eqn:Ev.
  - apply andb_true_iff in Ev. destruct Ev as (Ev & E2).
    apply andb_true_iff in Ev. destruct Ev as (En & E24).
    apply Z.leb_le in En, E24, E2. simpl.
    split; [intros _; split; [exact Eo | lia]|].
    split; [apply keeps_emit; [reflexivity | apply keeps_refl] | auto].
  - destruct (2 <? Z.of_nat (length (Players (lobby r)))); simpl;
      (split; [intros H; now contradiction H|]; split; [apply keeps_tell | auto]).
Qed.

Lemma commandSetMP_keeps caller r args :
  keeps (lobby r) (lobby (commandSetMP TrimSpace ParseInt caller r args)).
Proof.
  unfold commandSetMP. simpl.
  destruct (bool_decide _); [|apply keeps_tell].
  destruct (args !! 1%nat) as [arg|]; [|apply keeps_refl].
  destruct (ParseInt (TrimSpace arg)) as [v|]; [|apply keeps_tell].
  destruct (_ && _).
  - simpl. apply keeps_emit; [reflexivity | apply keeps_refl].
  - destruct (2 <? _); apply keeps_tell.
Qed.

End Capacity.

Lemma X23_capacity_stays_within_bounds_witness :
  let r := {| lobby := sampleLobby [0; 1; 2; 3]%nat (Some 0%nat) "" fourPlayers;
              MaxPlayers := 12 |} in
  let parse := fun s => if String.eqb s "6" then Some 6 else None in
  let r' := commandSetMP trimASCII parse 0%nat r ["setmp"; " 6 "] in
  MaxPlayers r' = 6 /\ Some 0%nat = Owner (lobby r) /\ 2 <= MaxPlayers r' <= 24.
Proof.
  intros r parse r'.
  assert (E : MaxPlayers r' = 6) by reflexivity.
  split; [exact E|].
  destruct (X23_capacity_stays_within_bounds trimASCII parse 0%nat r ["setmp"; " 6 "])
    as (H & _).
  fold r' in H. destruct H as (Ho & Hb & _); [rewrite E; discriminate|].
  split; [exact Ho | exact Hb].
Defined.

(** ** Commands in the chat *)

Section CommandsInChat.

Variable GetRandomWords : Lobby -> list string.
Variable TrimSpace ToLower Replace : string -> string.
Variable intOfInf : Z.
Variable ParseCommand : string -> list string.
Variable ParseInt : string -> option Z.

Lemma keeps_quiet l l' : keeps l l' -> quiet l l'.
Proof.
  intros K. split.
  - apply (keeps_CurrentWord _ _ K).
  - apply (keeps_WordHints _ _ K).
  - apply (keeps_pool _ _ K).
  - apply (keeps_Players _ _ K).
  - apply (keeps_sent _ _ K).
Qed.

Lemma commandStart_quiet now caller l l' :
  commandStart GetRandomWords now caller l = Done l' -> quiet l l'.
Proof.
  unfold commandStart. destruct (_ && _).
  - intros E. apply advanceLobby_keeps in E.
    destruct (keeps_quiet _ _ E) as [H1 H2 H3 H4 H5]. split; assumption.
  - intros [= <-]. apply keeps_quiet, keeps_refl.
Qed.

Lemma commandNick_quiet generated caller l args l' :
  commandNick TrimSpace generated caller l args = Done l' -> quiet l l'.
Proof.
  assert (Q : forall name type data, String.eqb type "message" = false ->
            quiet l (triggerPlayersUpdate
                       (emit (WriteAsJSON caller type data)
                             (modify caller (set_Name name) l)))).
  { intros name type data Ht. split; try reflexivity.
    exists [WriteAsJSON caller type data;
            TriggerComplexUpdateEvent "update-players" (DPlayers (Players l))].
    split.
    - simpl. rewrite <- app_assoc. reflexivity.
    - simpl. rewrite Ht. reflexivity. }
  unfold commandNick. destruct args as [|command rest]; [discriminate|].
  destruct rest as [|a rest].
  - intros [= <-]. now apply Q.
  - destruct (len _ =? 0).
    + intros [= <-]. now apply Q.
    + destruct (30 <? len _).
      * destruct (slicePrefix 31 _) as [name| |]; simpl; try discriminate.
        intros [= <-]. now apply Q.
      * simpl. intros [= <-]. now apply Q.
Qed.

(** X24. A message that starts with an exclamation mark is handled as a
    command and never as chat or as a guess: whatever the command, if the
    call returns, no chat line was written and the word, the hints, the
    score pool and the player list are what they were. *)
Theorem X24_commands_are_not_chat generated now s r player r' :
  String.prefix "!" s = true ->
  HandleEvent_message GetRandomWords TrimSpace ToLower Replace intOfInf ParseCommand ParseInt
                      generated now (VString s) r player = Done (Some r') ->
  quiet (lobby r) (lobby r').
Proof.
  intros Hp. unfold HandleEvent_message. rewrite Hp. unfold handleCommand.
  destruct (ParseCommand (dropFirstByte s)) as [|name rest] eqn:Ec.
  { intros [= <-]. apply keeps_quiet, keeps_refl. }
  destruct (String.eqb (ToLower name) "start").
  { destruct (commandStart GetRandomWords now player (lobby r)) as [l1| |] eqn:E;
      simpl; try discriminate.
    intros [= <-]. simpl. now apply (commandStart_quiet now player). }
  destruct (String.eqb (ToLower name) "setmp").
  { intros [= <-]. apply keeps_quiet.
    apply (commandSetMP_keeps TrimSpace ParseInt player r (name :: rest)). }
  destruct (String.eqb (ToLower name) "help").
  { intros [= <-]. apply keeps_quiet, keeps_refl. }
  destruct (isNickCommand (ToLower name)).
  { destruct (commandNick TrimSpace generated player (lobby r) (name :: rest)) as [l1| |] eqn:E;
      simpl; try discriminate.
    intros [= <-]. simpl. now apply (commandNick_quiet generated player _ (name :: rest)). }
  intros [= <-]. apply keeps_quiet, keeps_refl.
Qed.

End CommandsInChat.

Lemma X24_commands_are_not_chat_witness :
  let r := {| lobby := set_Round 0 (sampleLobby [0; 1; 2; 3]%nat None "" fourPlayers);
              MaxPlayers := 12 |} in
  obtains (HandleEvent_message threeWords trimASCII lowerASCII noEmoji 0 oneWord (fun _ => None)
             "CalmlyBraveOtter" 1000 (VString "!START") r 0%nat)
          (fun o => match o with
                    | Some r' => quiet (lobby r) (lobby r')
                    | None => False
                    end).
Proof.
  intros r.
  assert (O : obtains (HandleEvent_message threeWords trimASCII lowerASCII noEmoji 0 oneWord
                         (fun _ => None) "CalmlyBraveOtter" 1000 (VString "!START") r 0%nat)
                (fun o => match o with
                          | Some r' => Round (lobby r') = 1
                          | None => False
                          end))
    by (vm_compute; reflexivity).
  destruct (HandleEvent_message threeWords trimASCII lowerASCII noEmoji 0 oneWord
              (fun _ => None) "CalmlyBraveOtter" 1000 (VString "!START") r 0%nat)
    as [[r'|]| |] eqn:E; simpl in O; try contradiction.
  simpl.
  exact (X24_commands_are_not_chat threeWords trimASCII lowerASCII noEmoji 0 oneWord
           (fun _ => None) "CalmlyBraveOtter" 1000 "!START" r 0%nat r' eq_refl E).
Defined.

(** ** Disconnecting *)

Section Disconnect.

Variable HasConnectedPlayers : Lobby -> bool.

(** X25. [OnDisconnected] handles a player once: after a first call a
    second call for the same player changes nothing, sends nothing and
    removes no lobby. The first call leaves the player list and every other
    player record as they were; the player stays in the lobby, with no
    socket. *)
Theorem X25_second_disconnect_does_nothing l player :
  let l1 := fst (OnDisconnected HasConnectedPlayers l player) in
  OnDisconnected HasConnectedPlayers l1 player = (l1, false) /\
  ws (mem l1 player) = false /\
  Players l1 = Players l /\
  (forall q, q <> player -> mem l1 q = mem l q) /\
  (ws (mem l player) = true -> Connected (mem l1 player) = false).
Proof.
  assert (G : forall m : Lobby,
            ws (mem m player) = false ->
            (if negb (ws (mem m player)) then (m, false)
             else let m' := modify player (fun p => set_ws false (set_Connected false p)) m in
                  if negb (HasConnectedPlayers m') then (m', true)
                  else (triggerPlayersUpdate m', false)) = (m, false)).
  { intros m Hm. rewrite Hm. reflexivity. }
  unfold OnDisconnected.
  destruct (ws (mem l player)) eqn:Ew.
  - cbn [negb]. cbv iota zeta.
    remember (modify player (fun p => set_ws false (set_Connected false p)) l) as l2 eqn:E2.
    assert (Hw : ws (mem l2 player) = false)
      by (subst l2; simpl; rewrite update_same; reflexivity).
    assert (Hc : Connected (mem l2 player) = false)
      by (subst l2; simpl; rewrite update_same; reflexivity).
    assert (Ho : forall q, q <> player -> mem l2 q = mem l q)
      by (intros q Hq; subst l2; simpl; now apply update_other).
    assert (HP : Players l2 = Players l) by (subst l2; reflexivity).
    clear E2.
    destruct (HasConnectedPlayers l2); cbn [negb fst].
    + split; [apply G; exact Hw|]. auto.
    + split; [apply G; exact Hw|]. auto.
  - cbn [negb fst]. split; [apply G; exact Ew|]. split; [exact Ew|].
    split; [reflexivity|]. split; [reflexivity | discriminate].
Qed.

End Disconnect.

Lemma X25_second_disconnect_does_nothing_witness :
  let l := sampleLobby [0; 1; 2; 3]%nat (Some 0%nat) "boat" fourPlayers in
  let connected := fun l => existsb (fun p => Connected (mem l p)) (Players l) in
  let l1 := fst (OnDisconnected connected l 2%nat) in
  ws (mem l 2%nat) = true /\ Connected (mem l1 2%nat) = false /\
  OnDisconnected connected l1 2%nat = (l1, false).
Proof.
  intros l connected l1.
  destruct (X25_second_disconnect_does_nothing connected l 2%nat) as (H1 & _ & _ & _ & H5).
  split; [reflexivity|]. split; [apply H5; reflexivity | exact H1].
Defined.

(** ** The points of a guess *)

Lemma guessPoints_spec s :
  0 < guessPoints s /\
  (guessPoints s - 1) ^ 10 < 1024 * Z.max s 1 ^ 13 <= guessPoints s ^ 10.
Proof. unfold guessPoints. apply ceilTwicePow_spec. lia. Qed.

(** X26. Within the 300 seconds that a turn can last at most, for which
    [guessPoints_margin] shows the exact arithmetic of [guessPoints] to be
    that of the code, the points of a correct guess do not go down with the
    time left: a guess with more seconds left earns at least as much. Every
    correct guess earns at least 2 points, and at most twice the square of
    the seconds left. *)
Theorem X26_faster_guesses_earn_no_less a b :
  a <= b <= 300 ->
  guessPoints a <= guessPoints b /\
  2 <= guessPoints a <= 2 * Z.max a 1 ^ 2.
Proof.
  intros (Hab & _).
  destruct (guessPoints_spec a) as (Pa & La & Ua).
  destruct (guessPoints_spec b) as (Pb & Lb & Ub).
  assert (Hm : 1 <= Z.max a 1 <= Z.max b 1) by lia.
  split; [|split].
  - assert (H : (guessPoints a - 1) ^ 10 < guessPoints b ^ 10).
    { eapply Z.lt_le_trans; [exact La|]. eapply Z.le_trans; [|exact Ub].
      apply Z.mul_le_mono_nonneg_l; [lia|]. apply Z.pow_le_mono_l. lia. }
    apply Z.pow_lt_mono_l_iff in H; lia.
  - assert (H : 1 ^ 10 < guessPoints a ^ 10).
    { eapply Z.lt_le_trans; [|exact Ua].
      assert (H13 : 1 ^ 13 <= Z.max a 1 ^ 13) by (apply Z.pow_le_mono_l; lia).
      rewrite Z.pow_1_l in H13 by lia. rewrite Z.pow_1_l by lia. lia. }
    apply Z.pow_lt_mono_l_iff in H; lia.
  - assert (H : (guessPoints a - 1) ^ 10 < (2 * Z.max a 1 ^ 2) ^ 10).
    { eapply Z.lt_le_trans; [exact La|].
      rewrite Z.pow_mul_l, <- Z.pow_mul_r by lia.
      change (2 ^ 10) with 1024. apply Z.mul_le_mono_nonneg_l; [lia|].
      apply Z.pow_le_mono_r; lia. }
    assert (0 < Z.max a 1 ^ 2) by (apply Z.pow_pos_nonneg; lia).
    apply Z.pow_lt_mono_l_iff in H; lia.
Qed.

Lemma X26_faster_guesses_earn_no_less_witness :
  guessPoints 10 <= guessPoints 45 /\ 2 <= guessPoints 10 <= 2 * Z.max 10 1 ^ 2.
Proof. apply (X26_faster_guesses_earn_no_less 10 45). lia. Defined.
